(** * Business-Intelligence-Pro: the research pipeline of
      [src/backend/utils] ([api_helpers.py], [parser_utils.py],
      [validation.py]), embedded as Rocq functions.

    Python [str] values are [string]s; the text helpers below follow the
    behaviour of the Python built-ins on ASCII text (characters above 127
    carry no case and are no white space here); [normalize_company_name]
    is embedded a second time over code points, with the character tables
    of the interpreter as a parameter ([Unicode]).  Everything the program
    learns from the network comes from a [World]: one decoded answer per
    request, [None] where the request or its decoding fails. *)

From Stdlib Require Import Strings.String Strings.Ascii Lists.List Bool.Bool
  Arith.Arith Arith.PeanoNat NArith.NArith ZArith.ZArith micromega.Lia.
Import ListNotations.
Open Scope string_scope.

(* ================================================================== *)
(** ** Python text built-ins *)
(* ================================================================== *)

Module PyStr.

Definition code (c : ascii) : nat := nat_of_ascii c.

Definition in_range (lo hi : nat) (c : ascii) : bool :=
  Nat.leb lo (code c) && Nat.leb (code c) hi.

(** [str.isspace] on one character: TAB..CR, FS..US and the blank. *)
Definition isspace (c : ascii) : bool := in_range 9 13 c || in_range 28 32 c.

Definition isupper (c : ascii) : bool := in_range 65 90 c.
Definition islower (c : ascii) : bool := in_range 97 122 c.
Definition isalpha (c : ascii) : bool := isupper c || islower c.
Definition isdigit (c : ascii) : bool := in_range 48 57 c.

Definition lower_char (c : ascii) : ascii :=
  if isupper c then ascii_of_nat (code c + 32) else c.
Definition upper_char (c : ascii) : ascii :=
  if islower c then ascii_of_nat (code c - 32) else c.

Fixpoint map_chars (f : ascii -> ascii) (s : string) : string :=
  match s with
  | EmptyString => EmptyString
  | String c t => String (f c) (map_chars f t)
  end.

(** [s.lower()] *)
Definition lower (s : string) : string := map_chars lower_char s.

(** Truth value of a string: [bool(s)]. *)
Definition truthy (s : string) : bool :=
  match s with EmptyString => false | String _ _ => true end.

(** [a or b] on strings. *)
Definition or_else (a b : string) : string := if truthy a then a else b.

Fixpoint lstrip_by (p : ascii -> bool) (s : string) : string :=
  match s with
  | EmptyString => EmptyString
  | String c t => if p c then lstrip_by p t else s
  end.

Fixpoint rstrip_by (p : ascii -> bool) (s : string) : string :=
  match s with
  | EmptyString => EmptyString
  | String c t =>
      match rstrip_by p t with
      | EmptyString => if p c then EmptyString else String c EmptyString
      | r => String c r
      end
  end.

(** [s.lstrip()], [s.rstrip()], [s.strip()] *)
Definition lstrip (s : string) : string := lstrip_by isspace s.
Definition rstrip (s : string) : string := rstrip_by isspace s.
Definition strip (s : string) : string := lstrip (rstrip s).

(** [s.startswith(p)] *)
Fixpoint startswith (p s : string) : bool :=
  match p, s with
  | EmptyString, _ => true
  | String a p', String b s' => Ascii.eqb a b && startswith p' s'
  | String _ _, EmptyString => false
  end.

(** [sub in s] *)
Fixpoint contains (sub s : string) : bool :=
  startswith sub s ||
  match s with
  | EmptyString => false
  | String _ t => contains sub t
  end.

Fixpoint mem_char (c : ascii) (s : string) : bool :=
  match s with
  | EmptyString => false
  | String d t => Ascii.eqb c d || mem_char c t
  end.

(** [s.endswith(c)] for a one-character suffix. *)
Fixpoint endswith_char (c : ascii) (s : string) : bool :=
  match s with
  | EmptyString => false
  | String d EmptyString => Ascii.eqb c d
  | String _ t => endswith_char c t
  end.

(** [s[:n]] for [n >= 0] *)
Fixpoint take (n : nat) (s : string) : string :=
  match n, s with
  | O, _ => EmptyString
  | _, EmptyString => EmptyString
  | S k, String c t => String c (take k t)
  end.

(** [s[n:]] for [n >= 0] *)
Fixpoint drop (n : nat) (s : string) : string :=
  match n, s with
  | O, _ => s
  | _, EmptyString => EmptyString
  | S k, String _ t => drop k t
  end.

(** The part of [s] before the first character satisfying [p]
    (all of [s] when there is none), and the rest from that character on. *)
Fixpoint span_until (p : ascii -> bool) (s : string) : string * string :=
  match s with
  | EmptyString => (EmptyString, EmptyString)
  | String c t =>
      if p c then (EmptyString, s)
      else let (a, b) := span_until p t in (String c a, b)
  end.

(** [s.split(c)[0]] *)
Definition before_first (c : ascii) (s : string) : string :=
  fst (span_until (Ascii.eqb c) s).

(** [s.replace(old, new)] for a non-empty [old]: leftmost occurrences, not
    overlapping.  [skip] counts the characters of a match still to pass. *)
Fixpoint replace_from (old new : string) (skip : nat) (s : string) : string :=
  match s with
  | EmptyString => EmptyString
  | String c t =>
      match skip with
      | S k => replace_from old new k t
      | O =>
          if startswith old s
          then new ++ replace_from old new (String.length old - 1) t
          else String c (replace_from old new 0 t)
      end
  end.

Definition replace (old new s : string) : string := replace_from old new 0 s.

(** [s.split()]: the maximal runs of characters that are no white space.
    [cur] is the run being read, kept reversed. *)
Fixpoint rev_string (acc s : string) : string :=
  match s with
  | EmptyString => acc
  | String c t => rev_string (String c acc) t
  end.

Fixpoint split_ws_from (cur : string) (s : string) : list string :=
  match s with
  | EmptyString =>
      if truthy cur then [rev_string EmptyString cur] else []
  | String c t =>
      if isspace c
      then (if truthy cur then rev_string EmptyString cur :: split_ws_from EmptyString t
            else split_ws_from EmptyString t)
      else split_ws_from (String c cur) t
  end.

Definition split_ws (s : string) : list string := split_ws_from EmptyString s.

(** [sep.join(parts)] *)
Fixpoint join (sep : string) (parts : list string) : string :=
  match parts with
  | [] => EmptyString
  | [p] => p
  | p :: rest => p ++ sep ++ join sep rest
  end.

(** [s.title()]: a letter that follows a letter is lowered, any other
    letter is raised; [prev] tells whether the previous character was a
    letter. *)
Fixpoint title_from (prev : bool) (s : string) : string :=
  match s with
  | EmptyString => EmptyString
  | String c t =>
      String (if prev then lower_char c else upper_char c)
             (title_from (isalpha c) t)
  end.

Definition title (s : string) : string := title_from false s.

(** One-character strings used in the source. *)
Definition chr (n : nat) : ascii := ascii_of_nat n.
Definition newline : string := String (chr 10) EmptyString.
Definition dquote : string := String (chr 34) EmptyString.

End PyStr.

(* ================================================================== *)
(** ** [urllib.parse.urlparse]

    The standard-library parser, as far as the program reads its result:
    leading C0 controls and blanks are dropped and TAB, CR and LF removed;
    a scheme is a leading letter followed by letters, digits, [+], [-] or
    [.] up to the first colon; after [//] the network location runs up to
    the first [/], [?] or [#]; a network location with one square bracket
    and not the other makes the parser raise [ValueError] ([None] here).
    The address check inside a pair of brackets is not part of the model. *)
(* ================================================================== *)

Module UrlParse.
Import PyStr.

Record ParseResult := mkParse {
  scheme : string;
  netloc : string;
  path : string;
  params : string;
  query : string;
  fragment : string
}.

Definition is_c0_or_space (c : ascii) : bool := Nat.leb (code c) 32.
Definition is_unsafe (c : ascii) : bool :=
  Nat.eqb (code c) 9 || Nat.eqb (code c) 13 || Nat.eqb (code c) 10.

Fixpoint remove_chars (p : ascii -> bool) (s : string) : string :=
  match s with
  | EmptyString => EmptyString
  | String c t => if p c then remove_chars p t else String c (remove_chars p t)
  end.

Definition is_scheme_char (c : ascii) : bool :=
  isalpha c || isdigit c || mem_char c "+-.".

Fixpoint all_chars (p : ascii -> bool) (s : string) : bool :=
  match s with
  | EmptyString => true
  | String c t => p c && all_chars p t
  end.

Definition is_colon (c : ascii) : bool := Ascii.eqb c ":".
Definition is_netloc_delim (c : ascii) : bool := mem_char c "/?#".

(** The scheme step of [urlsplit]: [(scheme, rest)]. *)
Definition split_scheme (url : string) : string * string :=
  match url with
  | EmptyString => (EmptyString, url)
  | String c0 _ =>
      let (pre, rest) := span_until is_colon url in
      match rest with
      | String _ after =>
          (* a colon exists; [pre] is [url[:i]], and [i > 0] as [c0] is a letter *)
          if isalpha c0 && all_chars is_scheme_char pre
          then (lower pre, after)
          else (EmptyString, url)
      | EmptyString => (EmptyString, url)
      end
  end.

(** The network-location step: [None] when [urlsplit] raises. *)
Definition split_netloc (url : string) : option (string * string) :=
  if startswith "//" url then
    let (nl, rest) := span_until is_netloc_delim (drop 2 url) in
    let lb := mem_char "[" nl in
    let rb := mem_char "]" nl in
    if (lb && negb rb) || (rb && negb lb) then None else Some (nl, rest)
  else Some (EmptyString, url).

(** [url.split(c, 1)] when [c] occurs in [url]: the parts around the first [c]. *)
Definition cut_at (c : ascii) (url : string) : string * string :=
  let (a, b) := span_until (Ascii.eqb c) url in (a, drop 1 b).

Record SplitResult := mkSplit {
  s_scheme : string; s_netloc : string; s_path : string;
  s_query : string; s_fragment : string
}.

Definition urlsplit (url0 : string) : option SplitResult :=
  let url := remove_chars is_unsafe (lstrip_by is_c0_or_space url0) in
  let (sch, url1) := split_scheme url in
  match split_netloc url1 with
  | None => None
  | Some (nl, url2) =>
      let (url3, frag) := cut_at "#" url2 in
      let (url4, qry) := cut_at "?" url3 in
      Some (mkSplit sch nl url4 qry frag)
  end.

Definition uses_params : list string :=
  [""; "ftp"; "hdl"; "prospero"; "http"; "imap"; "https"; "shttp"; "rtsp";
   "rtspu"; "sip"; "sips"; "mms"; "sftp"; "tel"].

(** [_splitparams]: the first [;] of the last path segment separates the
    parameters. [seg] is the segment being read, kept reversed. *)
Fixpoint last_segment_from (head seg : string) (s : string) : string * string :=
  match s with
  | EmptyString => (rev_string EmptyString head, rev_string EmptyString seg)
  | String c t =>
      if Ascii.eqb c "/"
      then last_segment_from (String c (seg ++ head)) EmptyString t
      else last_segment_from head (String c seg) t
  end.

Definition splitparams (url : string) : string * string :=
  let (head, seg) := last_segment_from EmptyString EmptyString url in
  if mem_char ";" seg
  then let (a, b) := cut_at ";" seg in (head ++ a, b)
  else (url, EmptyString).

Definition urlparse (url : string) : option ParseResult :=
  match urlsplit url with
  | None => None
  | Some r =>
      if existsb (String.eqb (s_scheme r)) uses_params && mem_char ";" (s_path r)
      then let (p, prm) := splitparams (s_path r) in
           Some (mkParse (s_scheme r) (s_netloc r) p prm (s_query r) (s_fragment r))
      else Some (mkParse (s_scheme r) (s_netloc r) (s_path r) EmptyString
                         (s_query r) (s_fragment r))
  end.

End UrlParse.

(* ================================================================== *)
(** ** [validation.py] *)
(* ================================================================== *)

Module Validation.
Import PyStr UrlParse.

(** [all([result.scheme, result.netloc])], [False] when parsing raises. *)
Definition is_valid_url (url : string) : bool :=
  match urlparse url with
  | Some result => truthy (scheme result) && truthy (netloc result)
  | None => false
  end.

End Validation.

(* ================================================================== *)
(** ** Regular expressions, as far as [parser_utils.py] uses [re.sub] *)
(* ================================================================== *)

Module Regex.
Import PyStr.

(** Patterns, matched ignoring case ([flags=re.I]). *)
Inductive regex :=
| Eps
| Lit (c : ascii)
| PlusSpace
| Opt (r : regex)
| Seq (r1 r2 : regex)
| Alt (r1 r2 : regex)
| EndOfString.

(** A run of one or more white-space characters, longest first. *)
Fixpoint plus_space (s : string) (k : string -> option string) : option string :=
  match s with
  | EmptyString => None
  | String c t =>
      if isspace c
      then match plus_space t k with
           | Some r => Some r
           | None => k t
           end
      else None
  end.

(** Backtracking matcher: [matches r s k] matches [r] at the start of [s]
    and hands what is left to [k]; the answer is the text left after the
    whole match. *)
Fixpoint matches (r : regex) (s : string) (k : string -> option string)
  : option string :=
  match r with
  | Eps => k s
  | Lit c =>
      match s with
      | String d t =>
          if Ascii.eqb (lower_char c) (lower_char d) then k t else None
      | EmptyString => None
      end
  | PlusSpace => plus_space s k
  | Opt r1 =>
      match matches r1 s k with
      | Some x => Some x
      | None => k s
      end
  | Seq r1 r2 => matches r1 s (fun s' => matches r2 s' k)
  | Alt r1 r2 =>
      match matches r1 s k with
      | Some x => Some x
      | None => matches r2 s k
      end
  | EndOfString =>
      (* [$]: at the end, or before a line feed that ends the text *)
      if negb (truthy s) || String.eqb s newline then k s else None
  end.

Definition match_here (r : regex) (s : string) : option string :=
  matches r s Some.

(** [re.sub(r, "", s)] for a pattern that matches no empty text: every
    leftmost match is removed.  [skip] counts the characters of the
    current match still to pass. *)
Fixpoint sub_from (r : regex) (skip : nat) (s : string) : string :=
  match s with
  | EmptyString => EmptyString
  | String c t =>
      match skip with
      | S k => sub_from r k t
      | O =>
          match match_here r s with
          | Some rest => sub_from r (String.length s - String.length rest - 1) t
          | None => String c (sub_from r 0 t)
          end
      end
  end.

Definition sub_empty (r : regex) (s : string) : string := sub_from r 0 s.

Fixpoint lit (s : string) : regex :=
  match s with
  | EmptyString => Eps
  | String c t => Seq (Lit c) (lit t)
  end.

(** What is left of [u] after the prefix [p], compared ignoring case. *)
Fixpoint strip_prefix_ci (p u : string) : option string :=
  match p with
  | EmptyString => Some u
  | String c p' =>
      match u with
      | String d u' =>
          if Ascii.eqb (lower_char c) (lower_char d) then strip_prefix_ci p' u'
          else None
      | EmptyString => None
      end
  end.

End Regex.

(* ================================================================== *)
(** ** [parser_utils.py] *)
(* ================================================================== *)

Module ParserUtils.
Import PyStr UrlParse Regex.

(** [None] when [urlparse] raises: this function has no handler. *)
Definition extract_domain (url : string) : option string :=
  if negb (truthy url) then Some EmptyString
  else match urlparse url with
       | None => None
       | Some parsed =>
           let domain := or_else (netloc parsed) (path parsed) in
           Some (lower (strip (replace "www." "" domain)))
       end.

(** [word\.?] *)
Definition dotted (word : string) : regex := Seq (lit word) (Opt (Lit ".")).

(** [(inc\.?|ltd\.?|corp\.?|co\.?)] *)
Definition suffix_words : regex :=
  Alt (dotted "inc") (Alt (dotted "ltd") (Alt (dotted "corp") (dotted "co"))).

(** The pattern after its leading [\s+]. *)
Definition suffix_tail : regex := Seq suffix_words EndOfString.

(** [r"\s+(inc\.?|ltd\.?|corp\.?|co\.?)$"] *)
Definition suffix_pattern : regex := Seq PlusSpace suffix_tail.

Definition normalize_company_name (name : string) : string :=
  if negb (truthy name) then EmptyString
  else
    let name1 := strip name in
    let name2 := sub_empty suffix_pattern name1 in
    title name2.

End ParserUtils.

(* ================================================================== *)
(** ** [normalize_company_name] over Python's own characters *)
(* ================================================================== *)

(** A Python [str] is a sequence of code points, and [str.strip], the
    class [\s], the flag [re.I] and [str.title] follow the tables of the
    interpreter for all of them.  Here the text is a list of code points
    and the tables are a parameter; the pattern is the one of
    [ParserUtils]. *)
Module Unicode.
Import Regex.

Definition text := list N.

(** The text of the ASCII range that a [string] spells. *)
Definition codes (s : string) : text := map N_of_ascii (list_ascii_of_string s).

Record Tables := {
  (* [str.isspace] on one character: what [strip] removes and what the
     class [\s] of a pattern accepts *)
  isspace : N -> bool;
  (* under [re.I], the character [c] of a pattern matches the character
     [d] of the text *)
  ignore_case_eq : N -> N -> bool;
  (* [str.title] *)
  title : text -> text
}.

Definition line_feed : N := 10.

Section Model.
Variable T : Tables.

Fixpoint lstrip (s : text) : text :=
  match s with
  | [] => []
  | c :: t => if isspace T c then lstrip t else s
  end.

Fixpoint rstrip (s : text) : text :=
  match s with
  | [] => []
  | c :: t =>
      match rstrip t with
      | [] => if isspace T c then [] else [c]
      | r => c :: r
      end
  end.

(** [s.strip()] *)
Definition strip (s : text) : text := lstrip (rstrip s).

(** [\s+], longest first. *)
Fixpoint plus_space (s : text) (k : text -> option text) : option text :=
  match s with
  | [] => None
  | c :: t =>
      if isspace T c
      then match plus_space t k with
           | Some r => Some r
           | None => k t
           end
      else None
  end.

(** The backtracking matcher of [Regex] on a text of code points. *)
Fixpoint matches (r : regex) (s : text) (k : text -> option text)
  : option text :=
  match r with
  | Eps => k s
  | Lit c =>
      match s with
      | d :: t => if ignore_case_eq T (N_of_ascii c) d then k t else None
      | [] => None
      end
  | PlusSpace => plus_space s k
  | Opt r1 =>
      match matches r1 s k with
      | Some x => Some x
      | None => k s
      end
  | Seq r1 r2 => matches r1 s (fun s' => matches r2 s' k)
  | Alt r1 r2 =>
      match matches r1 s k with
      | Some x => Some x
      | None => matches r2 s k
      end
  | EndOfString =>
      (* [$]: at the end, or before a line feed that ends the text *)
      match s with
      | [] => k s
      | [d] => if N.eqb d line_feed then k s else None
      | _ => None
      end
  end.

Definition match_here (r : regex) (s : text) : option text :=
  matches r s Some.

(** The end of the pattern: what [$] hands on. *)
Definition at_end (s : text) : option text := matches EndOfString s Some.

(** [re.sub(r, "", s)] for a pattern that matches no empty text. *)
Fixpoint sub_from (r : regex) (skip : nat) (s : text) : text :=
  match s with
  | [] => []
  | c :: t =>
      match skip with
      | S k => sub_from r k t
      | O =>
          match match_here r s with
          | Some rest => sub_from r (List.length s - List.length rest - 1) t
          | None => c :: sub_from r 0 t
          end
      end
  end.

Definition sub_empty (r : regex) (s : text) : text := sub_from r 0 s.

Definition normalize_company_name (name : text) : text :=
  match name with
  | [] => []
  | _ :: _ =>
      let name1 := strip name in
      let name2 := sub_empty ParserUtils.suffix_pattern name1 in
      title T name2
  end.

(** What is left of [u] after the pattern text [p]. *)
Fixpoint strip_prefix (p : string) (u : text) : option text :=
  match p with
  | EmptyString => Some u
  | String c p' =>
      match u with
      | d :: u' =>
          if ignore_case_eq T (N_of_ascii c) d then strip_prefix p' u' else None
      | [] => None
      end
  end.

End Model.

(** The characters a pattern spells out. *)
Fixpoint literals (r : regex) : list ascii :=
  match r with
  | Lit c => [c]
  | Opt r1 => literals r1
  | Seq r1 r2 | Alt r1 r2 => List.app (literals r1) (literals r2)
  | Eps | PlusSpace | EndOfString => []
  end.

(** A fact of Python's tables: no white-space character matches a
    character of the suffix pattern (white space has no case). *)
Definition space_matches_no_letter (T : Tables) : Prop :=
  forall c d,
    In c (literals ParserUtils.suffix_pattern) ->
    isspace T d = true -> ignore_case_eq T (N_of_ascii c) d = false.

(** The tables on the ASCII range; the characters above it are left as
    they are. *)
Definition between (lo hi n : N) : bool := N.leb lo n && N.leb n hi.

Definition ascii_isspace (n : N) : bool := between 9 13 n || between 28 32 n.
Definition ascii_lower (n : N) : N := if between 65 90 n then N.add n 32 else n.
Definition ascii_upper (n : N) : N := if between 97 122 n then N.sub n 32 else n.
Definition ascii_isalpha (n : N) : bool := between 65 90 n || between 97 122 n.

Fixpoint ascii_title_from (prev : bool) (s : text) : text :=
  match s with
  | [] => []
  | c :: t =>
      (if prev then ascii_lower c else ascii_upper c)
        :: ascii_title_from (ascii_isalpha c) t
  end.

Definition ascii_tables : Tables := {|
  isspace := ascii_isspace;
  ignore_case_eq := fun c d => N.eqb (ascii_lower c) (ascii_lower d);
  title := ascii_title_from false
|}.

(** Python's tables are those of ASCII on the ASCII range. *)
Definition is_ascii (u : text) : Prop := Forall (fun n => (n < 128)%N) u.

Definition extends_ascii (T : Tables) : Prop :=
  (forall n, (n < 128)%N -> isspace T n = ascii_isspace n)
  /\ (forall c d, (c < 128)%N -> (d < 128)%N ->
        ignore_case_eq T c d = N.eqb (ascii_lower c) (ascii_lower d))
  /\ (forall u, is_ascii u -> title T u = ascii_title_from false u).

End Unicode.

(* ================================================================== *)
(** ** What the providers answer *)
(* ================================================================== *)

Module Providers.

(** A fetched page as BeautifulSoup shows it once the [script], [style],
    [nav], [header] and [footer] elements are removed: each field is the
    text of the element the scraper asks for, [None] when [find] or
    [select_one] finds nothing. *)
Record Soup := mkSoup {
  soup_title : option string;              (* [soup.find('title').get_text()] *)
  soup_meta_description : option string;   (* [meta_desc.get('content', '')] *)
  soup_h1 : list string;                   (* [h1.get_text()] for all [h1] *)
  soup_first_p : option string;            (* [soup.find('p').get_text()] *)
  soup_select : string -> option string;   (* [soup.select_one(sel).get_text()] *)
  soup_body : option string                (* [soup.find('body').get_text()] *)
}.

Record Logo := mkLogo { logo_url : string; logo_src : string }.

(** Brandfetch answer; a missing or null entry is the empty value. *)
Record BrandData := mkBrandData { bd_logos : list Logo; bd_name : string }.

Inductive Topic :=
| TopicDict (Text Result FirstURL : string)
| TopicOther.

(** DuckDuckGo answer; [RelatedTopics] that is no list counts as empty. *)
Record DdgData := mkDdgData {
  AbstractText : string;
  Heading : string;
  AbstractURL : string;
  RelatedTopics : list Topic
}.

Record NewsItem := mkNewsItem {
  ni_title : string; ni_headline : string; ni_link : string; ni_url : string
}.

Record NewsData := mkNewsData {
  nd_results : list NewsItem; nd_articles : list NewsItem
}.

Record SerperItem := mkSerperItem {
  si_title : string; si_label : string;
  si_snippet : string; si_description : string; si_snippetText : string;
  si_link : string; si_url : string; si_source : string
}.

Record SerperData := mkSerperData {
  sd_organic : list SerperItem;
  sd_results : list SerperItem;
  sd_organic_results : list SerperItem
}.

(** Chat-completion request. [temperature] is in tenths. *)
Record Payload := mkPayload {
  model : string; content : string; max_tokens : Z; temperature : Z
}.

(** Chat-completion answer: the empty object, an object without usable
    [choices], or the [message.content] of each choice ([None] where it is
    absent or no string). *)
Inductive GroqData :=
| GroqEmpty
| GroqNoChoices
| GroqChoices (cs : list (option string)).

(** One attempt of a request: [None] when [requests] raises (transport
    error or [raise_for_status]); inside, [None] when decoding the body
    raises ([resp.json()], or BeautifulSoup on a page). *)
Record World := mkWorld {
  BRANDFETCH_API_KEY : string;
  NEWSDATA_API_KEY : string;
  SERPER_API_KEY : string;
  GROQ_API_KEY : string;
  get_page : string -> nat -> option (option Soup);
  get_brand : string -> nat -> option (option BrandData);
  get_ddg : string -> bool -> nat -> option (option DdgData);
  get_news : string -> nat -> option (option NewsData);
  post_serper : string -> Z -> nat -> option (option SerperData);
  post_groq : Payload -> nat -> option (option GroqData)
}.

End Providers.

(* ================================================================== *)
(** ** [api_helpers.py]: utilities and source adapters *)
(* ================================================================== *)

Module ApiHelpers.
Import PyStr UrlParse Providers.

Definition RETRY_COUNT : nat := 2.

Definition is_valid_url (url : string) : bool :=
  if negb (truthy url) then false
  else match urlparse url with
       | Some p =>
           (String.eqb (scheme p) "http" || String.eqb (scheme p) "https")
           && truthy (netloc p)
       | None => false
       end.

(** In the last branch [urlparse] has already succeeded on [url] inside
    [is_valid_url], so its [None] case is not reached. *)
Definition extract_domain (url : string) : string :=
  if negb (truthy url) then EmptyString
  else if negb (is_valid_url url) then
    (if negb (contains "/" url) && contains "." url then strip url
     else EmptyString)
  else match urlparse url with
       | Some parsed => netloc parsed
       | None => EmptyString
       end.

(** The loop of [_safe_get] and [_safe_post]: [send attempt] is one
    request; a failure is retried while [attempt < RETRY_COUNT - 1]. *)
Fixpoint retry_loop {R : Type} (send : nat -> option R) (attempt todo : nat)
  : option R :=
  match todo with
  | O => None
  | S todo' =>
      match send attempt with
      | Some r => Some r
      | None =>
          if Nat.ltb attempt (RETRY_COUNT - 1)
          then retry_loop send (S attempt) todo'
          else None
      end
  end.

Definition _safe_get {R : Type} (send : nat -> option R) : option R :=
  retry_loop send 0 RETRY_COUNT.

Definition _safe_post {R : Type} (send : nat -> option R) : option R :=
  retry_loop send 0 RETRY_COUNT.

(** *** Website content *)

Definition content_selectors : list string :=
  ["main"; "article"; ".content"; "#content"; ".main-content"].

(** The selector loop: the first selected element whose trimmed text has
    more than 50 characters, cut to 500. *)
Fixpoint select_main_content (soup : Soup) (selectors : list string) : string :=
  match selectors with
  | [] => EmptyString
  | selector :: rest =>
      match soup_select soup selector with
      | Some text =>
          let main_text := strip text in
          if Nat.ltb 50 (String.length main_text) then take 500 main_text
          else select_main_content soup rest
      | None => select_main_content soup rest
      end
  end.

Definition sentinel : string :=
  "Website content extracted but limited text available".

Definition text_or_empty (o : option string) : string :=
  match o with Some t => strip t | None => EmptyString end.

(** The values the [try] block extracts once the page is parsed. *)
Definition soup_title_text (soup : Soup) : string :=
  text_or_empty (soup_title soup).

Definition soup_description_text (soup : Soup) : string :=
  text_or_empty (soup_meta_description soup).

Definition soup_headings (soup : Soup) : list string :=
  map strip (firstn 2 (soup_h1 soup)).

Definition soup_first_paragraph (soup : Soup) : string :=
  match soup_first_p soup with
  | Some t => take 300 (strip t)
  | None => EmptyString
  end.

(** The block chosen as main content, before its white space is
    normalised: a selected region, else the body text. *)
Definition soup_content_block (soup : Soup) : string :=
  let main_content := select_main_content soup content_selectors in
  if negb (truthy main_content) then
    match soup_body soup with
    | Some t => take 500 (strip t)
    | None => main_content
    end
  else main_content.

Definition soup_main_content (soup : Soup) : string :=
  let main_content := soup_content_block soup in
  if truthy main_content then join " " (split_ws main_content)
  else main_content.

Definition summary_parts (soup : Soup) : list string :=
  let title := soup_title_text soup in
  let description := soup_description_text soup in
  let headings := soup_headings soup in
  let main_content := soup_main_content soup in
  let first_paragraph := soup_first_paragraph soup in
  List.app (if truthy title then [append "Title: " title] else [])
 (List.app (if truthy description then [append "Description: " description] else [])
 (List.app (match headings with
            | [] => []
            | _ => [append "Headings: " (join ", " headings)]
            end)
           (if truthy main_content then [append "Content: " main_content]
            else if truthy first_paragraph then [append "Content: " first_paragraph]
            else []))).

Definition summarize_soup (soup : Soup) : string :=
  let result := join " | " (filter truthy (summary_parts soup)) in
  if truthy result then result else sentinel.

Definition scrape_website_content (w : World) (url : string) : string :=
  if negb (truthy url) || negb (is_valid_url url) then EmptyString
  else
    match _safe_get (get_page w url) with
    | None => EmptyString
    | Some None => EmptyString          (* an exception inside [try] *)
    | Some (Some soup) => summarize_soup soup
    end.

(** *** Serper: organic results *)

Record ContextItem := mkContextItem {
  ci_title : string; ci_content : string; ci_source : string
}.

Definition or_list {A : Type} (a b : list A) : list A :=
  match a with [] => b | _ => a end.

Definition serper_item (item : SerperItem) : ContextItem :=
  let title := or_else (si_title item) (si_label item) in
  let snippet :=
    or_else (si_snippet item) (or_else (si_description item) (si_snippetText item)) in
  let link := or_else (si_link item) (or_else (si_url item) (si_source item)) in
  let link :=
    if truthy link && negb (startswith "http" link)
    then "https://" ++ lstrip_by (Ascii.eqb "/") link
    else link in
  mkContextItem (strip title) (strip snippet) (strip link).

Definition _fetch_serper_organic (w : World) (query : string) (num : Z)
  : list ContextItem :=
  if negb (truthy (SERPER_API_KEY w)) then []
  else
    match _safe_post (post_serper w query num) with
    | None => []
    | Some None => []
    | Some (Some data) =>
        let organic :=
          or_list (sd_organic data)
                  (or_list (sd_results data) (sd_organic_results data)) in
        map serper_item organic
    end.

Definition fetch_strategic_context (w : World) (company_name industry : string)
  : list ContextItem :=
  let disambiguation_terms := " company tech startup business inc" in
  let strategic_queries :=
    [ company_name ++ disambiguation_terms ++ " competitors market position";
      company_name ++ disambiguation_terms ++ " growth funding " ++ industry;
      dquote ++ company_name ++ dquote ++ " company business model" ] in
  flat_map (fun query => _fetch_serper_organic w query 2)
           (firstn 2 strategic_queries).

(** *** Brandfetch *)

(** A [dict] with text keys and values, in insertion order. *)
Definition dict := list (string * string).

Fixpoint dict_find (k : string) (d : dict) : option string :=
  match d with
  | [] => None
  | (k', v) :: rest => if String.eqb k k' then Some v else dict_find k rest
  end.

(** [d.get(k, default)] and [d.get(k)] as a truth-tested text. *)
Definition dict_get (k : string) (default : string) (d : dict) : string :=
  match dict_find k d with Some v => v | None => default end.

Definition dict_truthy (d : dict) : bool :=
  match d with [] => false | _ => true end.

Definition fetch_brandfetch_data (w : World) (domain : string) : dict :=
  if negb (truthy domain) then []
  else if negb (truthy (BRANDFETCH_API_KEY w)) then []
  else
    match _safe_get (get_brand w domain) with
    | None => []
    | Some None => []
    | Some (Some data) =>
        let logo_url :=
          match bd_logos data with
          | [] => EmptyString
          | l :: _ => or_else (logo_url l) (logo_src l)
          end in
        let name := or_else (bd_name data) domain in
        [("logo", logo_url); ("name", name)]
    end.

(** The loop over the alternative domains: the first one that differs from
    [clean_domain] and yields a name replaces [brand_data]. *)
Fixpoint try_variations (w : World) (clean_domain : string)
  (variations : list string) (brand_data : dict) : dict :=
  match variations with
  | [] => brand_data
  | variation :: rest =>
      if negb (String.eqb variation clean_domain) then
        let alt_data := fetch_brandfetch_data w variation in
        if truthy (dict_get "name" "" alt_data) then alt_data
        else try_variations w clean_domain rest brand_data
      else try_variations w clean_domain rest brand_data
  end.

Definition fetch_brandfetch_data_enhanced (w : World) (domain : string) : dict :=
  if negb (truthy domain) then []
  else
    let clean_domain := before_first "/" (replace "www." "" domain) in
    let brand_data := fetch_brandfetch_data w clean_domain in
    if negb (truthy (dict_get "name" "" brand_data)) && contains "." clean_domain
    then
      let variations :=
        [ clean_domain;
          "www." ++ clean_domain;
          replace ".com" ".co" clean_domain;
          replace ".io" ".com" clean_domain ] in
      try_variations w clean_domain variations brand_data
    else brand_data.

(** *** Exceptions inside a [try] block *)

(** A computation that may raise: [None] is the raised exception. *)
Definition exc (A : Type) : Type := option A.
Definition ret {A : Type} (a : A) : exc A := Some a.
Definition raise {A : Type} : exc A := None.
Definition bind {A B : Type} (m : exc A) (f : A -> exc B) : exc B :=
  match m with Some a => f a | None => None end.

(** Reading a local variable: [UnboundLocalError] when no assignment to it
    has run yet. *)
Definition read_local {A : Type} (v : option A) : exc A := v.

(** [try: body except Exception: return handler] *)
Definition try_except {A : Type} (body : exc A) (handler : A) : A :=
  match body with Some a => a | None => handler end.

(** *** DuckDuckGo summary *)

Definition summary_common_words : list string :=
  ["stochastic"; "quantum"; "vector"; "matrix"; "alpha"; "beta"; "gamma";
   "delta"; "sigma"; "lambda"; "omega"; "zen"; "nova"; "pulse"; "flux"].

Definition indicator_words : list string :=
  ["company"; "startup"; "tech"; "business"; "inc"; "corp"; "ltd";
   "founder"; "CEO"; "venture"].

(** [any(indicator in text.lower() for indicator in indicators)] *)
Definition any_indicator (indicators : list string) (text : string) : bool :=
  existsb (fun indicator => contains indicator (lower text)) indicators.

(** The loop over [RelatedTopics]: [Some t] when it breaks with
    [summary = t], [None] when it runs to its end. It reads the local
    [company_indicators], which is bound only if the branch
    [if summary:] has run. *)
Fixpoint scan_related (related : list Topic)
  (company_indicators : option (list string)) : exc (option string) :=
  match related with
  | [] => ret None
  | TopicDict text result _ :: rest =>
      let t := or_else text (or_else result EmptyString) in
      if truthy t then
        bind (read_local company_indicators) (fun indicators =>
          if any_indicator indicators t then ret (Some t)
          else scan_related rest company_indicators)
      else scan_related rest company_indicators
  | TopicOther :: rest => scan_related rest company_indicators
  end.

(** The [try] block of [fetch_duckduckgo_summary] after [resp.json()]. *)
Definition summary_of_data (data : DdgData) : exc string :=
  let summary := or_else (AbstractText data) (or_else (Heading data) EmptyString) in
  let '(summary, company_indicators) :=
    if truthy summary then
      let company_indicators := indicator_words in
      let is_conceptual := any_indicator company_indicators summary in
      if negb is_conceptual && Nat.ltb 20 (List.length (split_ws summary))
      then (EmptyString, Some company_indicators)
      else (summary, Some company_indicators)
    else (summary, None) in
  if negb (truthy summary) then
    bind (scan_related (RelatedTopics data) company_indicators) (fun found =>
      match found with
      | Some t => ret (or_else t EmptyString)
      | None => ret (or_else summary EmptyString)
      end)
  else ret (or_else summary EmptyString).

Definition summary_query (company : string) : string :=
  if existsb (String.eqb (lower company)) summary_common_words
  then company ++ " company tech startup business"
  else company.

Definition fetch_duckduckgo_summary (w : World) (company : string) : string :=
  match _safe_get (get_ddg w (summary_query company) true) with
  | None => EmptyString
  | Some decoded =>
      try_except (bind decoded summary_of_data) EmptyString
  end.

(** *** NewsData *)

Record Article := mkArticle { a_title : string; a_link : string }.

Definition news_common_words : list string :=
  ["stochastic"; "quantum"; "vector"; "matrix"; "alpha"; "beta"].

(** [l[:limit]]: a negative [limit] counts from the end. *)
Definition slice_to {A : Type} (limit : Z) (l : list A) : list A :=
  if (0 <=? limit)%Z then firstn (Z.to_nat limit) l
  else firstn (List.length l - Z.to_nat (- limit)) l.

Definition news_article (a : NewsItem) : list Article :=
  let title := or_else (ni_title a) (or_else (ni_headline a) EmptyString) in
  let link := or_else (ni_link a) (or_else (ni_url a) EmptyString) in
  if truthy title then [mkArticle title link] else [].

Definition news_query (company_name : string) : string :=
  if existsb (String.eqb (lower company_name)) news_common_words
  then dquote ++ company_name ++ dquote ++ " company OR "
       ++ dquote ++ company_name ++ dquote ++ " startup OR "
       ++ dquote ++ company_name ++ dquote ++ " tech"
  else company_name.

Definition fetch_news_articles (w : World) (company_name : string) (limit : Z)
  : list Article :=
  if negb (truthy (NEWSDATA_API_KEY w)) then []
  else
    match _safe_get (get_news w (news_query company_name)) with
    | None => []
    | Some None => []
    | Some (Some data) =>
        let results := or_list (nd_results data) (or_list (nd_articles data) []) in
        flat_map news_article (slice_to limit results)
    end.

Definition mem_string (s : string) (l : list string) : bool :=
  existsb (String.eqb s) l.

Definition title_key (article : Article) : string :=
  strip (lower (a_title article)).

(** The loop over [articles] with its set [seen_titles] and list
    [unique_articles]. *)
Fixpoint dedup_loop (articles : list Article) (seen_titles : list string)
  (unique_articles : list Article) : list Article :=
  match articles with
  | [] => unique_articles
  | article :: rest =>
      let title := title_key article in
      if truthy title && negb (mem_string title seen_titles)
      then dedup_loop rest (title :: seen_titles)
                      (List.app unique_articles [article])
      else dedup_loop rest seen_titles unique_articles
  end.

Definition clean_news_domain (domain : string) : string :=
  before_first "/"
    (replace "http://" "" (replace "https://" "" (replace "www." "" domain))).

(** The function together with the list of queries it hands to
    [fetch_news_articles], in the order of the calls. *)
Definition fetch_news_articles_enhanced_calls (w : World)
  (company_name domain : string) (limit : Z) : list string * list Article :=
  let calls := [] in
  let articles := [] in
  let '(calls, articles) :=
    if truthy company_name
    then (List.app calls [company_name],
          List.app articles (fetch_news_articles w company_name limit))
    else (calls, articles) in
  let '(calls, articles) :=
    if truthy domain && negb (contains domain company_name)
    then let clean_domain := clean_news_domain domain in
         (List.app calls [clean_domain],
          List.app articles (fetch_news_articles w clean_domain limit))
    else (calls, articles) in
  let unique_articles := dedup_loop articles [] [] in
  (calls, slice_to limit unique_articles).

Definition fetch_news_articles_enhanced (w : World)
  (company_name domain : string) (limit : Z) : list Article :=
  snd (fetch_news_articles_enhanced_calls w company_name domain limit).

(** *** Official website *)

Definition website_common_words : list string := news_common_words.

Definition website_query (company_name : string) : string :=
  if existsb (String.eqb (lower company_name)) website_common_words
  then company_name ++ " company official website tech startup"
  else company_name ++ " official website".

(** The first [try] block: [Some url] when it returns, [None] when control
    goes on (also after an exception). *)
Definition website_from_ddg (w : World) (company_name : string) : option string :=
  match _safe_get (get_ddg w (website_query company_name) false) with
  | None => None
  | Some None => None
  | Some (Some data) =>
      let first_url :=
        match RelatedTopics data with
        | TopicDict _ _ url :: _ => url
        | _ => EmptyString
        end in
      if truthy first_url then Some first_url
      else if truthy (AbstractURL data) then Some (AbstractURL data)
      else None
  end.

Fixpoint count_char (c : ascii) (s : string) : nat :=
  match s with
  | EmptyString => 0
  | String d t => (if Ascii.eqb c d then 1 else 0) + count_char c t
  end.

(** [len(s.split("."))] *)
Definition split_len (c : ascii) (s : string) : nat := S (count_char c s).

Definition website_from_name (company_name : string) : option string :=
  if contains "." company_name && Nat.leb 2 (split_len "." company_name) then
    let candidate := strip company_name in
    if is_valid_url candidate then Some candidate
    else
      let candidate :=
        if negb (startswith "http" candidate) then "https://" ++ candidate
        else candidate in
      if is_valid_url candidate then Some candidate else None
  else None.

Definition tld_hints : list string := [".com"; ".io"; ".co"; ".ai"].

Fixpoint website_from_context (company_name : string) (items : list ContextItem)
  : option string :=
  match items with
  | [] => None
  | item :: rest =>
      let source := ci_source item in
      if contains (lower company_name) (lower source)
         || existsb (fun domain => contains domain source) tld_hints
      then Some source
      else website_from_context company_name rest
  end.

Definition find_official_website (w : World) (company_name : string) : string :=
  match website_from_ddg w company_name with
  | Some url => url
  | None =>
      match website_from_name company_name with
      | Some url => url
      | None =>
          match website_from_context company_name
                  (fetch_strategic_context w company_name EmptyString) with
          | Some url => url
          | None => EmptyString
          end
      end
  end.

(** *** Groq *)

Definition _call_groq_chat (w : World) (payload : Payload) : option GroqData :=
  if negb (truthy (GROQ_API_KEY w)) then None
  else
    match _safe_post (post_groq w payload) with
    | None => None
    | Some None => None
    | Some (Some data) => Some data
    end.

(** [resp["choices"][0]["message"]["content"]] *)
Definition first_content (resp : GroqData) : exc string :=
  match resp with
  | GroqChoices (Some c :: _) => ret c
  | _ => raise
  end.

(** [not resp] for the value [_call_groq_chat] returns. *)
Definition no_response (resp : option GroqData) : bool :=
  match resp with
  | None => true
  | Some GroqEmpty => true
  | Some _ => false
  end.

Definition groq_model : string := "moonshotai/kimi-k2-instruct-0905".

Definition infer_industry (w : World) (company_name summary : string) : string :=
  let prompt :=
    "Classify the industry for the company named '" ++ company_name
    ++ "'. Summary: " ++ or_else summary "No summary available." ++ newline
    ++ "Return a short phrase like 'FinTech', 'AI Consulting', 'Healthcare SaaS'." in
  let payload := mkPayload groq_model prompt 30 0 in
  let resp := _call_groq_chat w payload in
  if no_response resp then "Unknown"
  else
    try_except
      (bind resp (fun r => bind (first_content r) (fun c => ret (strip c))))
      "Unknown".

(** *** The research aggregator *)

(** The [results] dictionary of [research_company_thoroughly]. *)
Record ResearchRecord := mkRecord {
  company_name : string;
  website : string;
  canonical_name : string;
  summary : string;
  news : list Article;
  logo : string;
  industry : string;
  sources_used : list string
}.

Definition set_website (v : string) (r : ResearchRecord) : ResearchRecord :=
  mkRecord (company_name r) v (canonical_name r) (summary r) (news r)
           (logo r) (industry r) (sources_used r).
Definition set_canonical_name (v : string) (r : ResearchRecord) : ResearchRecord :=
  mkRecord (company_name r) (website r) v (summary r) (news r)
           (logo r) (industry r) (sources_used r).
Definition set_summary (v : string) (r : ResearchRecord) : ResearchRecord :=
  mkRecord (company_name r) (website r) (canonical_name r) v (news r)
           (logo r) (industry r) (sources_used r).
Definition set_news (v : list Article) (r : ResearchRecord) : ResearchRecord :=
  mkRecord (company_name r) (website r) (canonical_name r) (summary r) v
           (logo r) (industry r) (sources_used r).
Definition set_logo (v : string) (r : ResearchRecord) : ResearchRecord :=
  mkRecord (company_name r) (website r) (canonical_name r) (summary r) (news r)
           v (industry r) (sources_used r).
Definition set_industry (v : string) (r : ResearchRecord) : ResearchRecord :=
  mkRecord (company_name r) (website r) (canonical_name r) (summary r) (news r)
           (logo r) v (sources_used r).
(** [results["sources_used"].append(label)] *)
Definition append_source (label : string) (r : ResearchRecord) : ResearchRecord :=
  mkRecord (company_name r) (website r) (canonical_name r) (summary r) (news r)
           (logo r) (industry r) (List.app (sources_used r) [label]).

(** The variables of one run: the dictionary and the locals [website],
    [domain] and [website_content]. *)
Record Run := mkRun {
  results : ResearchRecord;
  loc_website : string;
  loc_domain : string;
  loc_website_content : string
}.

Definition start_run (name site : string) : Run :=
  mkRun (mkRecord name site name EmptyString [] EmptyString EmptyString [])
        site EmptyString EmptyString.

(** Stage 1: website discovery when none is given. *)
Definition stage_discover (w : World) (name : string) (st : Run) : Run :=
  if negb (truthy (loc_website st)) then
    let site := find_official_website w name in
    mkRun (set_website site (results st)) site
          (loc_domain st) (loc_website_content st)
  else st.

(** Stage 2: the domain of the website. *)
Definition stage_domain (st : Run) : Run :=
  mkRun (results st) (loc_website st)
        (if truthy (loc_website st) then extract_domain (loc_website st)
         else EmptyString)
        (loc_website_content st).

(** Stage 3: Brandfetch. *)
Definition stage_brand (w : World) (name : string) (st : Run) : Run :=
  if truthy (loc_domain st) then
    let brand_data := fetch_brandfetch_data_enhanced w (loc_domain st) in
    if dict_truthy brand_data then
      mkRun (append_source "Brandfetch"
               (set_canonical_name (dict_get "name" name brand_data)
                  (set_logo (dict_get "logo" EmptyString brand_data) (results st))))
            (loc_website st) (loc_domain st) (loc_website_content st)
    else st
  else st.

(** Stage 4: the website itself. *)
Definition stage_website (w : World) (st : Run) : Run :=
  if truthy (loc_website st) then
    let text := scrape_website_content w (loc_website st) in
    mkRun (if truthy text then append_source "Website Content" (results st)
           else results st)
          (loc_website st) (loc_domain st) text
  else
    mkRun (results st) (loc_website st) (loc_domain st) EmptyString.

(** Stage 5: the summary. *)
Definition stage_summary (w : World) (st : Run) : Run :=
  let ddg_summary := fetch_duckduckgo_summary w (canonical_name (results st)) in
  if truthy ddg_summary then
    mkRun (append_source "DuckDuckGo" (set_summary ddg_summary (results st)))
          (loc_website st) (loc_domain st) (loc_website_content st)
  else if truthy (loc_website_content st) then
    mkRun (append_source "Website Summary"
             (set_summary (loc_website_content st) (results st)))
          (loc_website st) (loc_domain st) (loc_website_content st)
  else st.

(** Stage 6: news. *)
Definition stage_news (w : World) (st : Run) : Run :=
  let news_articles :=
    fetch_news_articles_enhanced w (canonical_name (results st)) (loc_domain st) 5 in
  match news_articles with
  | [] => st
  | _ =>
      mkRun (append_source "NewsData" (set_news news_articles (results st)))
            (loc_website st) (loc_domain st) (loc_website_content st)
  end.

(** Stage 7: the industry. *)
Definition stage_industry (w : World) (st : Run) : Run :=
  if truthy (summary (results st)) then
    mkRun (append_source "AI Industry Classification"
             (set_industry
                (infer_industry w (canonical_name (results st)) (summary (results st)))
                (results st)))
          (loc_website st) (loc_domain st) (loc_website_content st)
  else st.

(** The run up to and including stage [n] (0: the initial dictionary). *)
Fixpoint run_stages (w : World) (name site : string) (n : nat) : Run :=
  match n with
  | O => start_run name site
  | S k =>
      let st := run_stages w name site k in
      match k with
      | 0 => stage_discover w name st
      | 1 => stage_domain st
      | 2 => stage_brand w name st
      | 3 => stage_website w st
      | 4 => stage_summary w st
      | 5 => stage_news w st
      | 6 => stage_industry w st
      | _ => st
      end
  end.

Definition research_company_thoroughly (w : World) (name site : string)
  : ResearchRecord :=
  results
    (stage_industry w
      (stage_news w
        (stage_summary w
          (stage_website w
            (stage_brand w name
              (stage_domain
                (stage_discover w name (start_run name site)))))))).

(** *** The insight synthesizer *)

(** The [enriched_lead] dictionary; a key that is absent reads as the
    default of its [get], which is the empty value but for
    [canonical_name]. *)
Record EnrichedLead := mkLead {
  l_company_name : string;
  l_canonical_name : option string;
  l_summary : string;
  l_industry : string;
  l_website : string;
  l_news : list Article;
  l_sources_used : list string
}.

Definition news_line (n : Article) : string :=
  "- **" ++ a_title n ++ "** - " ++ a_link n.

Definition context_line (item : ContextItem) : string :=
  "- " ++ ci_title item ++ ": " ++ ci_content item.

Definition build_context (w : World) (lead : EnrichedLead)
  (include_strategic_context : bool) : string :=
  let company := l_company_name lead in
  let canonical := match l_canonical_name lead with Some c => c | None => company end in
  let context_parts :=
    List.app (if truthy (l_summary lead)
              then ["## Company Overview" ++ newline ++ l_summary lead] else [])
   (List.app (if truthy (l_website lead)
              then ["## Website" ++ newline ++ l_website lead] else [])
   (List.app (match l_news lead with
              | [] => []
              | ns => ["## Recent News & Mentions" ++ newline
                       ++ join newline (map news_line (firstn 3 ns))]
              end)
   (List.app (if truthy (l_industry lead) && negb (String.eqb (l_industry lead) "Unknown")
              then ["## Industry" ++ newline ++ l_industry lead] else [])
   (List.app (match l_sources_used lead with
              | [] => []
              | srcs => ["## Research Sources" ++ newline ++ join ", " srcs]
              end)
             (if include_strategic_context then
                match fetch_strategic_context w canonical (l_industry lead) with
                | [] => []
                | strategic_data =>
                    ["## Market Context" ++ newline
                     ++ join newline (map context_line (firstn 2 strategic_data))]
                end
              else []))))) in
  match context_parts with
  | [] => "No detailed public information found through automated research."
  | _ => join (newline ++ newline) context_parts
  end.

Definition insight_prompt (canonical context : string) : string :=
  join newline
    [ "";
      "You are a business intelligence analyst. Create a detailed company assessment for **"
        ++ canonical ++ "**.";
      "";
      "**AVAILABLE RESEARCH DATA:**";
      context;
      "";
      "**REQUIRED ANALYSIS:**";
      "Provide substantive insights in these THREE sections:";
      "";
      "1) **Business Model & Market Position**";
      "   - Analyze their likely business model based on available data";
      "   - Assess their market positioning and potential differentiation";
      "   - Identify their target customer base";
      "";
      "2) **Growth Signals & Market Presence**  ";
      "   - Evaluate any growth indicators from news or online presence";
      "   - Assess their market traction and visibility";
      "   - Identify potential partnership or expansion opportunities";
      "";
      "3) **Strategic Assessment & Recommendations**";
      "   - Provide actionable business intelligence";
      "   - Suggest potential engagement strategies";
      "   - Identify areas for further due diligence";
      "";
      "**CRITICAL INSTRUCTIONS:**";
      "- Base ALL analysis strictly on the provided research data";
      "- If data is limited, focus on what CAN be inferred from available information";
      "- Provide concrete, actionable business intelligence";
      "- Never state " ++ dquote ++ "not enough data" ++ dquote
        ++ " - instead provide industry-level insights";
      "- **IMPORTANT: You MUST complete all 3 sections. Do not cut off mid-sentence.**";
      "";
      "**FORMAT REQUIREMENTS:**";
      "- Use clear section headings with numbers (1, 2, 3)";
      "- Keep each section concise but comprehensive";
      "- Use bullet points for clarity";
      "- Ensure the analysis flows logically between sections";
      "" ].

Definition insight_payload (w : World) (lead : EnrichedLead)
  (include_strategic_context : bool) : Payload :=
  let canonical :=
    match l_canonical_name lead with Some c => c | None => l_company_name lead end in
  mkPayload groq_model
    (insight_prompt canonical (build_context w lead include_strategic_context))
    1200 3.

Definition call_failed_message : string :=
  "Analysis generation failed. Please check the company website and try again.".

Definition truncation_advisory : string :=
  "Analysis was truncated. Please try again with the 'Strategic Research' option disabled, or provide a company website for more focused analysis.".

Definition technical_error_message : string :=
  "Analysis generation failed due to technical error.".

(** [content.endswith(('.', '!', '?'))] *)
Definition ends_with_terminal (content : string) : bool :=
  endswith_char "." content || endswith_char "!" content
  || endswith_char "?" content.

(** The [try] block after the call. *)
Definition insight_of_response (resp : GroqData) : exc string :=
  bind (first_content resp) (fun raw =>
    let content := strip raw in
    if truthy content && negb (ends_with_terminal content)
       && Nat.ltb 300 (List.length (split_ws content))
    then ret truncation_advisory
    else ret content).

Definition generate_ai_insight (w : World) (enriched_lead : EnrichedLead)
  (include_strategic_context : bool) : string :=
  let payload := insight_payload w enriched_lead include_strategic_context in
  let resp := _call_groq_chat w payload in
  if no_response resp then call_failed_message
  else
    try_except (bind resp insight_of_response) technical_error_message.

End ApiHelpers.

(* ================================================================== *)
(** ** [validation.py]: company names *)
(* ================================================================== *)

Module ValidationNames.
Import PyStr Regex.

(** [[A-Za-z0-9 &.\-]] *)
Definition name_char (c : ascii) : bool :=
  isupper c || islower c || isdigit c || mem_char c " &.-".

(** One or more characters of a class, longest first. *)
Fixpoint plus_class (p : ascii -> bool) (s : string)
  (k : string -> option string) : option string :=
  match s with
  | EmptyString => None
  | String c t =>
      if p c
      then match plus_class p t k with
           | Some r => Some r
           | None => k t
           end
      else None
  end.

(** [re.match(r"^[A-Za-z0-9 &.\-]+$", s)]: what is left after the match,
    [None] when there is no match. *)
Definition match_name (s : string) : option string :=
  plus_class name_char s (fun s' => matches EndOfString s' Some).

Definition is_valid_company_name (name : string) : bool :=
  if negb (truthy name) || Nat.ltb (String.length (strip name)) 2 then false
  else match match_name (strip name) with
       | Some _ => true
       | None => false
       end.

End ValidationNames.

(* ================================================================== *)
(** ** [data_cleaner.py] *)
(* ================================================================== *)

Module DataCleaner.
Import PyStr ApiHelpers.

(** The values a lead holds. *)
#[local] Set Warnings "-register-all".
Inductive value :=
| VNone
| VBool (b : bool)
| VNum (z : Z)
| VStr (s : string)
| VList (items : list value)
| VDict (entries : list (string * value)).

(** A lead: a [dict] in insertion order. *)
Definition lead := list (string * value).

(** [v in [None, '', [], {}]] *)
Definition is_empty_value (v : value) : bool :=
  match v with
  | VNone => true
  | VStr EmptyString => true
  | VList [] => true
  | VDict [] => true
  | _ => false
  end.

Fixpoint lead_find (k : string) (d : lead) : option value :=
  match d with
  | [] => None
  | (k', v) :: rest => if String.eqb k k' then Some v else lead_find k rest
  end.

(** [d[k] = v]: the entry is replaced in place, or added at the end. *)
Fixpoint lead_set (k : string) (v : value) (d : lead) : lead :=
  match d with
  | [] => [(k, v)]
  | (k', v') :: rest =>
      if String.eqb k k' then (k, v) :: rest else (k', v') :: lead_set k v rest
  end.

(** [lead.get('company_name', '').strip().lower()]; a value that is no
    text has no [strip] and the call raises. *)
Definition lead_name (l : lead) : exc string :=
  match lead_find "company_name" l with
  | None => ret (lower (strip EmptyString))
  | Some (VStr s) => ret (lower (strip s))
  | Some _ => raise
  end.

(** [{k: v for k, v in lead.items() if v not in [None, '', [], {}]}] *)
Definition drop_empty (l : lead) : lead :=
  filter (fun kv => negb (is_empty_value (snd kv))) l.

(** The loop with its set [seen] and list [cleaned]. *)
Fixpoint clean_loop (leads : list lead) (seen : list string)
  (cleaned : list lead) : exc (list lead) :=
  match leads with
  | [] => ret cleaned
  | l :: rest =>
      bind (lead_name l) (fun name =>
        if negb (truthy name) || mem_string name seen
        then clean_loop rest seen cleaned
        else
          let l1 := drop_empty l in
          let l2 := lead_set "company_name" (VStr (title name)) l1 in
          clean_loop rest (name :: seen) (List.app cleaned [l2]))
  end.

Definition clean_enriched_data (leads : list lead) : exc (list lead) :=
  clean_loop leads [] [].


(** The lead as the loop stores it. *)
Definition cleaned_lead (l : lead) (name : string) : lead :=
  lead_set "company_name" (VStr (title name)) (drop_empty l).

(** The company name of a lead is absent or a text. *)
Definition text_name (l : lead) : Prop :=
  lead_find "company_name" l = None
  \/ exists s, lead_find "company_name" l = Some (VStr s).

End DataCleaner.

(* ================================================================== *)
(** ** Properties the specification names, and sample worlds *)
(* ================================================================== *)

Module Spec.
Import PyStr Providers ApiHelpers.

(** The related-topic rule of the summary lookup in the words of the
    specification: the text of the first entry that contains a business
    indicator keyword. *)
Definition topic_text (t : Topic) : string :=
  match t with
  | TopicDict text result _ => or_else text result
  | TopicOther => EmptyString
  end.

Definition first_business_topic (related : list Topic) : option string :=
  find (any_indicator indicator_words) (map topic_text related).

(** The legal-entity suffix tokens of [normalize_company_name], each with
    and without its final period; a word is one of them whatever its
    case. *)
Definition legal_suffix_tokens : list string :=
  ["inc"; "inc."; "ltd"; "ltd."; "corp"; "corp."; "co"; "co."].

Definition is_legal_suffix (word : string) : bool :=
  existsb (String.eqb (lower word)) legal_suffix_tokens.

(** The legal-suffix rule over Python text with the tables [T]: a word
    is a suffix token when it spells one of [legal_suffix_tokens],
    character by character, case ignored as a pattern ignores it. *)
Fixpoint same_ignoring_case (T : Unicode.Tables) (p : string)
  (u : Unicode.text) : bool :=
  match p, u with
  | EmptyString, [] => true
  | String c p', d :: u' =>
      Unicode.ignore_case_eq T (N_of_ascii c) d && same_ignoring_case T p' u'
  | _, _ => false
  end.

Definition is_suffix_token (T : Unicode.Tables) (word : Unicode.text) : bool :=
  existsb (fun p => same_ignoring_case T p word) legal_suffix_tokens.

(** [t] is [base], then white space, then a suffix token, where [base]
    does not end in white space. *)
Definition ends_in_suffix (T : Unicode.Tables) (t base : Unicode.text) : Prop :=
  exists ws tok,
    t = List.app base (List.app ws tok)
    /\ ws <> [] /\ forallb (Unicode.isspace T) ws = true
    /\ is_suffix_token T tok = true
    /\ Unicode.rstrip T base = base.

(** A part of the scraper's output carries one of the four labels. *)
Definition labelled (part : string) : Prop :=
  exists text,
    part = "Title: " ++ text \/ part = "Description: " ++ text
    \/ part = "Headings: " ++ text \/ part = "Content: " ++ text.

(** The labels each of the seven stages of the aggregator may append. *)
Definition stage_labels : list (list string) :=
  [ []; []; ["Brandfetch"]; ["Website Content"];
    ["DuckDuckGo"; "Website Summary"]; ["NewsData"];
    ["AI Industry Classification"] ].

(** [added] is what a stage with the labels [allowed] may append: nothing,
    or one of its labels. *)
Definition appends_at_most_one (allowed added : list string) : Prop :=
  added = [] \/ exists label, added = [label] /\ In label allowed.

(** What one run of the aggregator works with: the website it settles
    on, the domain it derives, and the answers of the brand lookup and of
    the website-content adapter. *)
Definition effective_website (w : World) (name site : string) : string :=
  if truthy site then site else find_official_website w name.

Definition research_domain (w : World) (name site : string) : string :=
  let site' := effective_website w name site in
  if truthy site' then extract_domain site' else EmptyString.

Definition brand_answer (w : World) (name site : string) : dict :=
  let domain := research_domain w name site in
  if truthy domain then fetch_brandfetch_data_enhanced w domain else [].

Definition website_answer (w : World) (name site : string) : string :=
  let site' := effective_website w name site in
  if truthy site' then scrape_website_content w site' else EmptyString.

(** No provider of the world answers: every attempt of every request
    fails. *)
Definition unreachable (w : World) : Prop :=
  (forall url n, get_page w url n = None)
  /\ (forall domain n, get_brand w domain n = None)
  /\ (forall query flag n, get_ddg w query flag n = None)
  /\ (forall query n, get_news w query n = None)
  /\ (forall query num n, post_serper w query num n = None)
  /\ (forall payload n, post_groq w payload n = None).

(** [small] is [big] with some entries left out, the order kept. *)
Inductive subsequence {A : Type} : list A -> list A -> Prop :=
| sub_nil : subsequence [] []
| sub_skip x small big : subsequence small big -> subsequence small (x :: big)
| sub_keep x small big : subsequence small big -> subsequence (x :: small) (x :: big).

End Spec.

Module Examples.
Import PyStr Providers ApiHelpers.

Definition no_get {R : Type} : nat -> option R := fun _ => None.

(** A world in which nothing answers. *)
Definition silent : World :=
  mkWorld EmptyString EmptyString EmptyString EmptyString
    (fun _ => no_get) (fun _ => no_get) (fun _ _ => no_get)
    (fun _ => no_get) (fun _ _ => no_get) (fun _ => no_get).

Definition empty_soup : Soup :=
  mkSoup None None [] None (fun _ => None) None.

Definition acme_soup : Soup :=
  mkSoup (Some " Acme Tools ") None ["Welcome"] None (fun _ => None)
         (Some "We   build
 tools.").

(** Every page is [soup]; no other provider answers. *)
Definition pages_only (soup : Soup) : World :=
  mkWorld EmptyString EmptyString EmptyString EmptyString
    (fun _ _ => Some (Some soup)) (fun _ => no_get) (fun _ _ => no_get)
    (fun _ => no_get) (fun _ _ => no_get) (fun _ => no_get).

(** The knowledge-summary answer with both primary fields empty and one
    related topic about a company. *)
Definition related_only : DdgData :=
  mkDdgData EmptyString EmptyString EmptyString
    [TopicDict "Acme is a software company" EmptyString EmptyString].

Definition ddg_world (data : DdgData) : World :=
  mkWorld EmptyString EmptyString EmptyString EmptyString
    (fun _ => no_get) (fun _ => no_get) (fun _ _ _ => Some (Some data))
    (fun _ => no_get) (fun _ _ => no_get) (fun _ => no_get).

Definition three_news : NewsData :=
  mkNewsData
    [ mkNewsItem "Acme raises funds" EmptyString "l1" EmptyString;
      mkNewsItem "ACME RAISES FUNDS " EmptyString "l2" EmptyString;
      mkNewsItem "Acme hires" EmptyString "l3" EmptyString;
      mkNewsItem "Acme ships" EmptyString "l4" EmptyString ]
    [].

Definition news_world (data : NewsData) : World :=
  mkWorld EmptyString "key" EmptyString EmptyString
    (fun _ => no_get) (fun _ => no_get) (fun _ _ => no_get)
    (fun _ _ => Some (Some data)) (fun _ _ => no_get) (fun _ => no_get).

(** The chat model answers every request with [answer]. *)
Definition groq_world (answer : option (option GroqData)) : World :=
  mkWorld EmptyString EmptyString EmptyString "key"
    (fun _ => no_get) (fun _ => no_get) (fun _ _ => no_get)
    (fun _ => no_get) (fun _ _ => no_get) (fun _ _ => answer).

(** 301 words and no final punctuation. *)
Definition long_answer : string := join " " (repeat "word" 301).

Definition acme_lead : EnrichedLead :=
  mkLead "Acme" None "Acme makes tools." EmptyString EmptyString [] [].

(** 301 words, a final period, and a line feed after it. *)
Definition long_answer_ended : string := long_answer ++ "." ++ newline.

(** The news adapter answers the query "Acme" with [by_name] and every
    other query with [by_domain]. *)
Definition news_by_query (by_name by_domain : NewsData) : World :=
  mkWorld EmptyString "key" EmptyString EmptyString
    (fun _ => no_get) (fun _ => no_get) (fun _ _ => no_get)
    (fun q _ => if String.eqb q "Acme" then Some (Some by_name)
                else Some (Some by_domain))
    (fun _ _ => no_get) (fun _ => no_get).

Definition name_news : NewsData :=
  mkNewsData
    [ mkNewsItem "Acme raises funds" EmptyString "l1" EmptyString;
      mkNewsItem "   " EmptyString "l2" EmptyString;
      mkNewsItem "Acme hires" EmptyString "l3" EmptyString;
      mkNewsItem "Acme ships" EmptyString "l4" EmptyString;
      mkNewsItem "Acme grows" EmptyString "l5" EmptyString ]
    [].

Definition domain_news : NewsData :=
  mkNewsData
    [ mkNewsItem "Acme expands" EmptyString "l6" EmptyString;
      mkNewsItem "Acme wins" EmptyString "l7" EmptyString ]
    [].

(** The search answers every query with one result whose link has no
    scheme. *)
Definition serper_world : World :=
  mkWorld EmptyString EmptyString "key" EmptyString
    (fun _ => no_get) (fun _ => no_get) (fun _ _ => no_get)
    (fun _ => no_get)
    (fun _ _ _ =>
       Some (Some (mkSerperData
         [mkSerperItem " Acme " EmptyString "Tools " EmptyString EmptyString
                       "//acme.io/about" EmptyString EmptyString] [] [])))
    (fun _ => no_get).

End Examples.

(* ================================================================== *)
(** ** Theorems *)
(* ================================================================== *)

Import PyStr UrlParse Providers.

(** *** Text lemmas *)

Lemma truthy_false_iff (s : string) : truthy s = false <-> s = EmptyString.
Proof. destruct s; simpl; split; intro H; congruence. Qed.

Lemma truthy_true_iff (s : string) : truthy s = true <-> s <> EmptyString.
Proof. destruct s; simpl; split; intro H; congruence. Qed.

Lemma urlparse_empty :
  urlparse EmptyString
  = Some (mkParse EmptyString EmptyString EmptyString EmptyString
                  EmptyString EmptyString).
Proof. reflexivity. Qed.

(** *** URL validation (C9) *)

Lemma api_is_valid_url_iff (s : string) :
  ApiHelpers.is_valid_url s = true <->
  exists p, urlparse s = Some p
            /\ (scheme p = "http" \/ scheme p = "https")
            /\ netloc p <> EmptyString.
Proof.
  unfold ApiHelpers.is_valid_url.
  destruct s as [|c t].
  - simpl. split; [discriminate|].
    intros (p & Hp & [Hs|Hs] & _); rewrite urlparse_empty in Hp;
      injection Hp as <-; discriminate Hs.
  - cbn [truthy negb].
    destruct (urlparse (String c t)) as [p|].
    + rewrite andb_true_iff, orb_true_iff, !String.eqb_eq, truthy_true_iff.
      split.
      * intros [Hs Hn]. exists p. auto.
      * intros (q & Hq & Hs & Hn). injection Hq as <-. auto.
    + split; [discriminate|]. intros (p & Hp & _). discriminate.
Qed.

Lemma validation_is_valid_url_iff (s : string) :
  Validation.is_valid_url s = true <->
  exists p, urlparse s = Some p
            /\ scheme p <> EmptyString /\ netloc p <> EmptyString.
Proof.
  unfold Validation.is_valid_url.
  destruct (urlparse s) as [p|].
  - rewrite andb_true_iff, !truthy_true_iff. split.
    + intros [Hs Hn]. exists p. auto.
    + intros (q & Hq & Hs & Hn). injection Hq as <-. auto.
  - split; [discriminate|]. intros (p & Hp & _). discriminate.
Qed.

(** C9, as stated, fails for [validation.is_valid_url]: it accepts
    [ftp://example.com], whose scheme is neither [http] nor [https]. *)
Lemma validation_accepts_ftp :
  Validation.is_valid_url "ftp://example.com" = true
  /\ ~ (exists p, urlparse "ftp://example.com" = Some p
                  /\ (scheme p = "http" \/ scheme p = "https")
                  /\ netloc p <> EmptyString).
Proof.
  split; [reflexivity|].
  intros (p & Hp & [Hs|Hs] & _); vm_compute in Hp; injection Hp as <-;
    discriminate Hs.
Qed.

(** C9 (amended): [api_helpers.is_valid_url] is true exactly for the text
    that parses to a URL with scheme [http] or [https] and a non-empty
    network location; [validation.is_valid_url] is true exactly for the
    text that parses to a URL with a non-empty scheme, whatever it is, and
    a non-empty network location.  Both are false when parsing fails, when
    there is no scheme and when there is no network location. *)
Theorem is_valid_url_characterisation (s : string) :
  (ApiHelpers.is_valid_url s = true <->
   exists p, urlparse s = Some p
             /\ (scheme p = "http" \/ scheme p = "https")
             /\ netloc p <> EmptyString)
  /\ (Validation.is_valid_url s = true <->
      exists p, urlparse s = Some p
                /\ scheme p <> EmptyString /\ netloc p <> EmptyString)
  /\ ((urlparse s = None
       \/ (exists p, urlparse s = Some p /\ scheme p = EmptyString)
       \/ (exists p, urlparse s = Some p /\ netloc p = EmptyString)) ->
      ApiHelpers.is_valid_url s = false /\ Validation.is_valid_url s = false).
Proof.
  split; [apply api_is_valid_url_iff|].
  split; [apply validation_is_valid_url_iff|].
  intros H.
  assert (Ha : ApiHelpers.is_valid_url s <> true).
  { rewrite api_is_valid_url_iff. intros (p & Hp & Hs & Hn).
    destruct H as [H|[(q & Hq & H)|(q & Hq & H)]]; rewrite Hp in *;
      try discriminate; injection Hq as <-; try contradiction.
    destruct Hs as [Hs|Hs]; rewrite Hs in H; discriminate. }
  assert (Hv : Validation.is_valid_url s <> true).
  { rewrite validation_is_valid_url_iff. intros (p & Hp & Hs & Hn).
    destruct H as [H|[(q & Hq & H)|(q & Hq & H)]]; rewrite Hp in *;
      try discriminate; injection Hq as <-; contradiction. }
  split; apply not_true_is_false; assumption.
Qed.

Lemma is_valid_url_characterisation_witness :
  ApiHelpers.is_valid_url "example.com" = false
  /\ Validation.is_valid_url "example.com" = false.
Proof.
  apply (is_valid_url_characterisation "example.com").
  right. left. eexists. split; reflexivity.
Defined.

(** *** Domain extraction (C7) *)

Lemma api_is_valid_url_parses (s : string) :
  ApiHelpers.is_valid_url s = true -> exists p, urlparse s = Some p.
Proof.
  intro H. apply api_is_valid_url_iff in H. destruct H as (p & Hp & _).
  exists p. exact Hp.
Qed.

Lemma contains_empty (sub : string) :
  sub <> EmptyString -> contains sub EmptyString = false.
Proof. destruct sub; [congruence|reflexivity]. Qed.

(** C7: on a valid URL [api_helpers.extract_domain] returns the network
    location of the parsed URL unchanged; on text that is no valid URL but
    has a dot and no slash it returns the text trimmed; otherwise it
    returns the empty text.  On [https://www.example.com/path] it returns
    [www.example.com] (and keeps upper case), where
    [parser_utils.extract_domain], which removes [www.] from the network
    location (or the path when there is none), trims and lowers it,
    returns [example.com]. *)
Theorem extract_domain_cases (s : string) :
  ((ApiHelpers.is_valid_url s = true
    /\ exists p, urlparse s = Some p /\ ApiHelpers.extract_domain s = netloc p)
   \/ (ApiHelpers.is_valid_url s = false
       /\ contains "." s = true /\ contains "/" s = false
       /\ ApiHelpers.extract_domain s = strip s)
   \/ (ApiHelpers.is_valid_url s = false
       /\ (contains "." s = false \/ contains "/" s = true)
       /\ ApiHelpers.extract_domain s = EmptyString))
  /\ ApiHelpers.extract_domain "https://www.example.com/path" = "www.example.com"
  /\ ApiHelpers.extract_domain "https://WWW.Example.COM/path" = "WWW.Example.COM"
  /\ ParserUtils.extract_domain "https://www.example.com/path" = Some "example.com"
  /\ ParserUtils.extract_domain "https://WWW.Example.COM/path" = Some "www.example.com"
  /\ (ParserUtils.extract_domain s
      = if truthy s then
          match urlparse s with
          | Some p => Some (lower (strip (replace "www." "" (or_else (netloc p) (path p)))))
          | None => None
          end
        else Some EmptyString).
Proof.
  split; [|repeat split; try reflexivity].
  - unfold ApiHelpers.extract_domain.
    destruct s as [|c t].
    + right. right. repeat split. left. reflexivity.
    + cbn [truthy negb].
      destruct (ApiHelpers.is_valid_url (String c t)) eqn:Hv; cbn [negb].
      * left. split; [reflexivity|].
        destruct (api_is_valid_url_parses _ Hv) as (p & Hp).
        exists p. rewrite Hp. auto.
      * right.
        destruct (contains "/" (String c t)) eqn:Hs; cbn [negb andb].
        -- right. auto.
        -- destruct (contains "." (String c t)) eqn:Hd.
           ++ left. auto.
           ++ right. auto.
  - unfold ParserUtils.extract_domain. destruct s; reflexivity.
Qed.

(** *** The summary lookup (C2) *)

Import ApiHelpers.

Lemma scan_related_unbound (related : list Topic) :
  scan_related related None = None \/ scan_related related None = Some None.
Proof.
  induction related as [|[text result url|] rest IH]; simpl.
  - right. reflexivity.
  - destruct (truthy (or_else text (or_else result EmptyString))).
    + left. reflexivity.
    + exact IH.
  - exact IH.
Qed.

(** With both primary fields empty the lookup never yields a text: the
    loop over the related topics reads [company_indicators] before any
    assignment to it has run, and the handler turns the error into the
    empty text. *)
Lemma summary_of_data_empty_primary (data : DdgData) :
  AbstractText data = EmptyString -> Heading data = EmptyString ->
  try_except (summary_of_data data) EmptyString = EmptyString.
Proof.
  intros Ha Hh. unfold summary_of_data. rewrite Ha, Hh. simpl.
  destruct (scan_related_unbound (RelatedTopics data)) as [H|H];
    rewrite H; reflexivity.
Qed.

Lemma fetch_duckduckgo_summary_empty_primary (w : World) (company : string)
  (data : DdgData) :
  _safe_get (get_ddg w (summary_query company) true) = Some (Some data) ->
  AbstractText data = EmptyString -> Heading data = EmptyString ->
  fetch_duckduckgo_summary w company = EmptyString.
Proof.
  intros Hr Ha Hh. unfold fetch_duckduckgo_summary. rewrite Hr.
  exact (summary_of_data_empty_primary data Ha Hh).
Qed.

(** C2 (the code departs from it): the answer [related_only] has empty
    primary fields and a first related topic, "Acme is a software
    company", that contains the keyword "company"; the lookup returns the
    empty text, not that topic. *)
Theorem summary_lookup_drops_related_topic :
  AbstractText Examples.related_only = EmptyString
  /\ Heading Examples.related_only = EmptyString
  /\ Spec.first_business_topic (RelatedTopics Examples.related_only)
     = Some "Acme is a software company"
  /\ fetch_duckduckgo_summary (Examples.ddg_world Examples.related_only) "Acme"
     = EmptyString.
Proof. repeat split; reflexivity. Qed.

(** *** The insight synthesizer (C5) *)

Lemma split_ws_from_lstrip (s : string) :
  split_ws_from EmptyString (lstrip s) = split_ws_from EmptyString s.
Proof.
  unfold lstrip. induction s as [|c t IH]; simpl; [reflexivity|].
  destruct (isspace c) eqn:Hc; simpl.
  - exact IH.
  - rewrite Hc. reflexivity.
Qed.

Lemma split_ws_from_rstrip (s cur : string) :
  split_ws_from cur (rstrip s) = split_ws_from cur s.
Proof.
  unfold rstrip. revert cur. induction s as [|c t IH]; intro cur; simpl;
    [reflexivity|].
  destruct (rstrip_by isspace t) as [|d r] eqn:Hr.
  - destruct (isspace c) eqn:Hc.
    + simpl. rewrite <- (IH EmptyString). simpl.
      destruct (truthy cur); reflexivity.
    + simpl. rewrite Hc. rewrite <- (IH (String c cur)). reflexivity.
  - destruct (isspace c) eqn:Hc.
    + rewrite <- (IH EmptyString). simpl. rewrite Hc. reflexivity.
    + rewrite <- (IH (String c cur)). simpl. rewrite Hc. reflexivity.
Qed.

(** Trimming does not change the words of a text. *)
Lemma split_ws_strip (s : string) : split_ws (strip s) = split_ws s.
Proof.
  unfold split_ws, strip.
  rewrite split_ws_from_lstrip. apply split_ws_from_rstrip.
Qed.

(** C5, as stated, fails on content that ends in white space: 301
    words, a period and a line feed do not end in [.], [!] or [?], yet the
    function, which trims the content before it looks at its end, returns
    the trimmed content and not the advisory. *)
Lemma trailing_white_space_hides_period :
  let raw := Examples.long_answer_ended in
  let out := generate_ai_insight
               (Examples.groq_world (Some (Some (GroqChoices [Some raw]))))
               Examples.acme_lead false in
  300 < List.length (split_ws raw)
  /\ ends_with_terminal raw = false
  /\ out = strip raw
  /\ out <> truncation_advisory.
Proof.
  cbv zeta. split; [vm_compute; lia|]. split; [vm_compute; reflexivity|].
  split; [vm_compute; reflexivity|]. vm_compute. discriminate.
Qed.

(** C5 (amended): when the first choice of the model's answer carries a
    content of more than 300 words that, once trimmed as the function
    trims it, does not end in [.], [!] or [?], the result is the
    truncation advisory;
    when the call yields nothing the result is the call-failure message,
    and when the content cannot be read from the answer it is the
    technical-error message; both messages are non-empty.  The function
    is total: its result is always one of these three texts or the
    trimmed content. *)
Theorem generate_ai_insight_guard (w : World) (lead : EnrichedLead)
  (strategic : bool) :
  let resp := _call_groq_chat w (insight_payload w lead strategic) in
  let out := generate_ai_insight w lead strategic in
  (forall raw cs,
      resp = Some (GroqChoices (Some raw :: cs)) ->
      300 < List.length (split_ws raw) ->
      ends_with_terminal (strip raw) = false ->
      out = truncation_advisory)
  /\ (resp = None \/ resp = Some GroqEmpty -> out = call_failed_message)
  /\ (forall r, resp = Some r -> r <> GroqEmpty -> first_content r = None ->
      out = technical_error_message)
  /\ call_failed_message <> EmptyString
  /\ technical_error_message <> EmptyString
  /\ (out = call_failed_message \/ out = technical_error_message
      \/ out = truncation_advisory
      \/ exists raw cs, resp = Some (GroqChoices (Some raw :: cs))
                        /\ out = strip raw).
Proof.
  intros resp out. subst out. unfold generate_ai_insight. fold resp.
  repeat split.
  - intros raw cs Hr Hw He. rewrite Hr.
    cbv beta iota zeta
      delta [no_response try_except bind insight_of_response first_content ret].
    rewrite He, split_ws_strip.
    apply Nat.ltb_lt in Hw. rewrite Hw.
    destruct (strip raw) eqn:Hs.
    + rewrite <- split_ws_strip, Hs in Hw. discriminate Hw.
    + reflexivity.
  - intros [Hr|Hr]; rewrite Hr; reflexivity.
  - intros r Hr Hne Hc. rewrite Hr.
    destruct r as [| |cs]; try congruence; simpl.
    + reflexivity.
    + simpl in Hc. destruct cs as [|[c|] cs]; try discriminate; reflexivity.
  - discriminate.
  - discriminate.
  - destruct resp as [[| |cs]|]; simpl; auto.
    destruct cs as [|[raw|] cs]; simpl; auto.
    cbv beta iota zeta
      delta [no_response try_except bind insight_of_response first_content ret].
    destruct (truthy (strip raw) && negb (ends_with_terminal (strip raw))
              && Nat.ltb 300 (List.length (split_ws (strip raw)))).
    + auto.
    + right. right. right. exists raw, cs. auto.
Qed.

Lemma long_answer_words : List.length (split_ws Examples.long_answer) = 301.
Proof. vm_compute. reflexivity. Qed.

Lemma generate_ai_insight_guard_witness :
  generate_ai_insight
    (Examples.groq_world (Some (Some (GroqChoices [Some Examples.long_answer]))))
    Examples.acme_lead false
  = truncation_advisory.
Proof.
  refine (proj1 (generate_ai_insight_guard
            (Examples.groq_world (Some (Some (GroqChoices [Some Examples.long_answer]))))
            Examples.acme_lead false) Examples.long_answer [] _ _ _).
  - reflexivity.
  - rewrite long_answer_words. lia.
  - vm_compute. reflexivity.
Defined.

(** *** The aggregator, stage by stage *)

(** One step of symbolic execution of the stages: project the fields of
    the explicit states. *)
Ltac run_step :=
  cbn [dict_truthy truthy loc_website results loc_domain
       loc_website_content company_name website canonical_name summary
       news logo industry sources_used set_website set_canonical_name
       set_logo set_summary set_news set_industry append_source
       negb List.app].

(** The record a run returns, field by field. *)
Lemma research_record (w : World) (name site : string) :
  let site' := Spec.effective_website w name site in
  let domain := Spec.research_domain w name site in
  let brand := Spec.brand_answer w name site in
  let canonical := if dict_truthy brand then dict_get "name" name brand else name in
  let text := Spec.website_answer w name site in
  let ddg := fetch_duckduckgo_summary w canonical in
  let summ := if truthy ddg then ddg else text in
  let articles := fetch_news_articles_enhanced w canonical domain 5 in
  research_company_thoroughly w name site
  = mkRecord name site' canonical summ articles
      (if dict_truthy brand then dict_get "logo" EmptyString brand else EmptyString)
      (if truthy summ then infer_industry w canonical summ else EmptyString)
      (List.app (if dict_truthy brand then ["Brandfetch"] else [])
      (List.app (if truthy text then ["Website Content"] else [])
      (List.app (if truthy ddg then ["DuckDuckGo"]
                 else if truthy text then ["Website Summary"] else [])
      (List.app (match articles with [] => [] | _ => ["NewsData"] end)
                (if truthy summ then ["AI Industry Classification"] else []))))).
Proof.
  intros site' domain brand canonical text ddg summ articles.
  subst articles summ ddg text canonical brand domain site'.
  unfold research_company_thoroughly, Spec.brand_answer, Spec.website_answer,
    Spec.research_domain, Spec.effective_website.
  assert (H1 : stage_discover w name (start_run name site)
               = mkRun (mkRecord name
                          (if truthy site then site else find_official_website w name)
                          name EmptyString [] EmptyString EmptyString [])
                       (if truthy site then site else find_official_website w name)
                       EmptyString EmptyString).
  { unfold stage_discover, start_run. cbn [loc_website].
    destruct (truthy site); reflexivity. }
  rewrite H1. clear H1.
  generalize (if truthy site then site else find_official_website w name).
  intro site'.
  unfold stage_domain. cbn [loc_website results loc_domain loc_website_content].
  generalize (if truthy site' then extract_domain site' else EmptyString).
  intro domain.
  unfold stage_brand. run_step.
  destruct (truthy domain) eqn:Hd;
    [destruct (dict_truthy (fetch_brandfetch_data_enhanced w domain)) eqn:Hb|];
    run_step.
  all: unfold stage_website; run_step;
    (destruct (truthy site') eqn:Hs;
      [destruct (truthy (scrape_website_content w site')) eqn:Hc|]);
    run_step.
  all: unfold stage_summary; run_step;
    match goal with |- context [fetch_duckduckgo_summary ?w' ?c] =>
      destruct (truthy (fetch_duckduckgo_summary w' c)) eqn:Hddg end;
    run_step; rewrite ?Hc; run_step.
  all: unfold stage_news; run_step;
    match goal with |- context [fetch_news_articles_enhanced ?w' ?c ?d ?n] =>
      destruct (fetch_news_articles_enhanced w' c d n) eqn:Hn end;
    run_step.
  all: unfold stage_industry; run_step; rewrite ?Hddg, ?Hc; run_step.
  all: try reflexivity.
  all: apply truthy_false_iff in Hc; rewrite Hc; reflexivity.
Qed.

(** *** The fallback chain (C1) *)

Lemma fetch_brandfetch_data_shape (w : World) (domain : string) :
  fetch_brandfetch_data w domain = []
  \/ exists logo_url name,
       fetch_brandfetch_data w domain = [("logo", logo_url); ("name", name)]
       /\ name <> EmptyString.
Proof.
  unfold fetch_brandfetch_data.
  destruct domain as [|c t]; [left; reflexivity|]. cbn [truthy negb].
  destruct (truthy (BRANDFETCH_API_KEY w)); [|left; reflexivity]. cbn [negb].
  destruct (_safe_get (get_brand w (String c t))) as [[data|]|];
    try (left; reflexivity).
  right. eexists. eexists. split; [reflexivity|].
  unfold or_else. destruct (bd_name data); simpl; congruence.
Qed.

Lemma try_variations_shape (w : World) (clean : string)
  (variations : list string) (brand : dict) :
  (brand = [] \/ exists l n, brand = [("logo", l); ("name", n)] /\ n <> EmptyString) ->
  try_variations w clean variations brand = []
  \/ exists l n, try_variations w clean variations brand = [("logo", l); ("name", n)]
                 /\ n <> EmptyString.
Proof.
  intro Hb. induction variations as [|v rest IH]; simpl; [exact Hb|].
  destruct (String.eqb v clean); cbn [negb]; [exact IH|].
  destruct (truthy (dict_get "name" EmptyString (fetch_brandfetch_data w v)));
    [apply fetch_brandfetch_data_shape|exact IH].
Qed.

(** The brand lookup answers with the empty dictionary or with a
    dictionary that holds a non-empty name. *)
Lemma fetch_brandfetch_data_enhanced_shape (w : World) (domain : string) :
  fetch_brandfetch_data_enhanced w domain = []
  \/ exists l n, fetch_brandfetch_data_enhanced w domain = [("logo", l); ("name", n)]
                 /\ n <> EmptyString.
Proof.
  unfold fetch_brandfetch_data_enhanced.
  destruct (truthy domain); cbn [negb]; [|left; reflexivity].
  match goal with |- context [if ?c then _ else _] => destruct c end.
  - apply try_variations_shape. apply fetch_brandfetch_data_shape.
  - apply fetch_brandfetch_data_shape.
Qed.

Lemma brand_answer_shape (w : World) (name site : string) :
  Spec.brand_answer w name site = []
  \/ exists l n, Spec.brand_answer w name site = [("logo", l); ("name", n)]
                 /\ n <> EmptyString.
Proof.
  unfold Spec.brand_answer.
  destruct (truthy (Spec.research_domain w name site)).
  - apply fetch_brandfetch_data_enhanced_shape.
  - left. reflexivity.
Qed.

(** C1: in a run of the aggregator, when the brand lookup yields no name
    the canonical name is the input company name; and when the summary
    lookup, asked for the canonical name, yields the empty text while the
    website-content adapter yielded a non-empty text, the summary is that
    text and the sources list holds "Website Summary" and not
    "DuckDuckGo". *)
Theorem research_fallback_chain (w : World) (name site : string) :
  let r := research_company_thoroughly w name site in
  (dict_get "name" EmptyString (Spec.brand_answer w name site) = EmptyString ->
   canonical_name r = name)
  /\ (fetch_duckduckgo_summary w (canonical_name r) = EmptyString ->
      Spec.website_answer w name site <> EmptyString ->
      summary r = Spec.website_answer w name site
      /\ In "Website Summary" (sources_used r)
      /\ ~ In "DuckDuckGo" (sources_used r)).
Proof.
  intro r. subst r. rewrite research_record.
  cbn [canonical_name summary sources_used]. split.
  - intro Hn.
    destruct (brand_answer_shape w name site) as [Hb|(l & n & Hb & Hne)];
      rewrite Hb in *; [reflexivity|].
    simpl in Hn. contradiction.
  - intros Hd Ht. rewrite Hd. cbn [truthy].
    apply truthy_true_iff in Ht. rewrite Ht.
    split; [reflexivity|]. split.
    + apply in_or_app. right. apply in_or_app. right. left. reflexivity.
    + intro Hin.
      destruct (dict_truthy (Spec.brand_answer w name site));
        destruct (fetch_news_articles_enhanced w _ _ 5);
        simpl in Hin; intuition discriminate.
Qed.

Lemma research_fallback_chain_witness :
  let r := research_company_thoroughly
             (Examples.pages_only Examples.acme_soup) "Acme" "https://acme.test" in
  canonical_name r = "Acme"
  /\ summary r = "Title: Acme Tools | Headings: Welcome | Content: We build tools."
  /\ In "Website Summary" (sources_used r)
  /\ ~ In "DuckDuckGo" (sources_used r).
Proof.
  destruct (research_fallback_chain
              (Examples.pages_only Examples.acme_soup) "Acme" "https://acme.test")
    as [H1 H2].
  split; [apply H1; reflexivity|].
  destruct H2 as (Hs & Hin & Hnot).
  - reflexivity.
  - vm_compute. discriminate.
  - split; [rewrite Hs; reflexivity|]. split; assumption.
Defined.

(** *** The sources list only grows (C3) *)

Lemma run_stages_final (w : World) (name site : string) :
  research_company_thoroughly w name site = results (run_stages w name site 7).
Proof. reflexivity. Qed.

Ltac no_label := exists []; split; [symmetry; apply app_nil_r | left; reflexivity].
Ltac one_label l :=
  exists [l]; split;
  [reflexivity | right; exists l; split; [reflexivity | simpl; auto]].

Lemma stage_discover_sources (w : World) (name : string) (st : Run) :
  sources_used (results (stage_discover w name st)) = sources_used (results st).
Proof. unfold stage_discover. destruct (truthy (loc_website st)); reflexivity. Qed.

Lemma stage_brand_sources (w : World) (name : string) (st : Run) :
  exists added,
    sources_used (results (stage_brand w name st))
    = List.app (sources_used (results st)) added
    /\ Spec.appends_at_most_one ["Brandfetch"] added.
Proof.
  unfold stage_brand. destruct (truthy (loc_domain st)); [|no_label].
  destruct (dict_truthy _); [one_label "Brandfetch"|no_label].
Qed.

Lemma stage_website_sources (w : World) (st : Run) :
  exists added,
    sources_used (results (stage_website w st))
    = List.app (sources_used (results st)) added
    /\ Spec.appends_at_most_one ["Website Content"] added.
Proof.
  unfold stage_website. destruct (truthy (loc_website st)); [|no_label].
  cbn [results]. destruct (truthy _); [one_label "Website Content"|no_label].
Qed.

Lemma stage_summary_sources (w : World) (st : Run) :
  exists added,
    sources_used (results (stage_summary w st))
    = List.app (sources_used (results st)) added
    /\ Spec.appends_at_most_one ["DuckDuckGo"; "Website Summary"] added.
Proof.
  unfold stage_summary. cbv zeta.
  destruct (truthy (fetch_duckduckgo_summary w _)); [one_label "DuckDuckGo"|].
  destruct (truthy (loc_website_content st));
    [one_label "Website Summary"|no_label].
Qed.

Lemma stage_news_sources (w : World) (st : Run) :
  exists added,
    sources_used (results (stage_news w st))
    = List.app (sources_used (results st)) added
    /\ Spec.appends_at_most_one ["NewsData"] added.
Proof.
  unfold stage_news. cbv zeta.
  destruct (fetch_news_articles_enhanced w _ _ 5); [no_label|one_label "NewsData"].
Qed.

Lemma stage_industry_sources (w : World) (st : Run) :
  exists added,
    sources_used (results (stage_industry w st))
    = List.app (sources_used (results st)) added
    /\ Spec.appends_at_most_one ["AI Industry Classification"] added.
Proof.
  unfold stage_industry. destruct (truthy (summary (results st)));
    [one_label "AI Industry Classification"|no_label].
Qed.

Lemma subsequence_refl {A : Type} (l : list A) : Spec.subsequence l l.
Proof. induction l; constructor; assumption. Qed.

(** C3: a run starts with an empty sources list; each of the seven stages
    leaves the list as it is or puts one of its own labels at the end, so
    what was there stays in place; the list returned is therefore the
    labels of the stages that contributed, in the order of the stages. *)
Theorem sources_used_only_grows (w : World) (name site : string) :
  sources_used (results (run_stages w name site 0)) = []
  /\ research_company_thoroughly w name site = results (run_stages w name site 7)
  /\ (forall n, n < 7 ->
      exists added,
        sources_used (results (run_stages w name site (S n)))
        = List.app (sources_used (results (run_stages w name site n))) added
        /\ Spec.appends_at_most_one (nth n Spec.stage_labels []) added)
  /\ Spec.subsequence
       (sources_used (research_company_thoroughly w name site))
       (concat Spec.stage_labels).
Proof.
  split; [reflexivity|]. split; [reflexivity|]. split.
  - intros n Hn.
    destruct n as [|[|[|[|[|[|[|n]]]]]]]; try lia;
      cbn [run_stages nth Spec.stage_labels].
    + rewrite stage_discover_sources. no_label.
    + cbn [stage_domain results]. no_label.
    + apply stage_brand_sources.
    + apply stage_website_sources.
    + apply stage_summary_sources.
    + apply stage_news_sources.
    + apply stage_industry_sources.
  - rewrite research_record. cbn [sources_used].
    destruct (dict_truthy _);
      destruct (truthy (Spec.website_answer w name site));
      destruct (truthy (fetch_duckduckgo_summary w _)) eqn:Hddg;
      destruct (fetch_news_articles_enhanced w _ _ 5);
      rewrite ?Hddg; cbn [truthy];
      try destruct (truthy (Spec.website_answer w name site));
      simpl;
      repeat first [apply Spec.sub_nil | apply Spec.sub_keep | apply Spec.sub_skip].
Qed.

Lemma sources_used_only_grows_witness :
  exists added,
    sources_used (results (run_stages (Examples.pages_only Examples.acme_soup)
                             "Acme" "https://acme.test" 5))
    = List.app
        (sources_used (results (run_stages (Examples.pages_only Examples.acme_soup)
                                  "Acme" "https://acme.test" 4)))
        added
    /\ Spec.appends_at_most_one ["DuckDuckGo"; "Website Summary"] added.
Proof.
  apply (proj1 (proj2 (proj2 (sources_used_only_grows
           (Examples.pages_only Examples.acme_soup) "Acme" "https://acme.test"))) 4).
  lia.
Defined.

(** *** The website-content adapter (C6, C10) *)

Lemma truthy_append_label (label text : string) :
  label <> EmptyString -> truthy (label ++ text) = true.
Proof. destruct label; [congruence|reflexivity]. Qed.

Lemma summary_parts_truthy (soup : Soup) :
  forallb truthy (summary_parts soup) = true.
Proof.
  unfold summary_parts. cbv zeta.
  destruct (truthy (soup_title_text soup));
    destruct (truthy (soup_description_text soup));
    destruct (soup_headings soup);
    destruct (truthy (soup_main_content soup));
    destruct (truthy (soup_first_paragraph soup)); reflexivity.
Qed.

Lemma filter_all {A : Type} (p : A -> bool) (l : list A) :
  forallb p l = true -> filter p l = l.
Proof.
  induction l as [|x l IH]; simpl; [reflexivity|].
  intro H. apply andb_true_iff in H. destruct H as [Hx Hl].
  rewrite Hx, (IH Hl). reflexivity.
Qed.

Lemma join_truthy (sep : string) (parts : list string) :
  parts <> [] -> forallb truthy parts = true -> truthy (join sep parts) = true.
Proof.
  destruct parts as [|p rest]; [congruence|]. intros _ H.
  simpl in H. apply andb_true_iff in H. destruct H as [Hp _].
  destruct p as [|c p]; [discriminate|].
  destruct rest; reflexivity.
Qed.

(** What the parsed page is turned into: the joined parts, or the
    sentinel when there is no part. *)
Lemma summarize_soup_cases (soup : Soup) :
  (summary_parts soup = [] /\ summarize_soup soup = sentinel)
  \/ (summary_parts soup <> []
      /\ summarize_soup soup = join " | " (summary_parts soup)).
Proof.
  unfold summarize_soup. cbv zeta.
  rewrite (filter_all _ _ (summary_parts_truthy soup)).
  destruct (summary_parts soup) as [|p rest] eqn:Hp.
  - left. split; reflexivity.
  - right. split; [congruence|].
    rewrite join_truthy; [reflexivity|congruence|].
    rewrite <- Hp. apply summary_parts_truthy.
Qed.

Lemma summarize_soup_nonempty (soup : Soup) : summarize_soup soup <> EmptyString.
Proof.
  unfold summarize_soup. cbv zeta.
  destruct (truthy (join " | " (filter truthy (summary_parts soup)))) eqn:H.
  - apply truthy_true_iff. exact H.
  - discriminate.
Qed.

Lemma summary_parts_nothing_found (soup : Soup) :
  soup_title_text soup = EmptyString ->
  soup_description_text soup = EmptyString ->
  soup_headings soup = [] ->
  soup_main_content soup = EmptyString ->
  soup_first_paragraph soup = EmptyString ->
  summary_parts soup = [].
Proof.
  intros Ht Hd Hh Hm Hf. unfold summary_parts.
  rewrite Ht, Hd, Hh, Hm, Hf. reflexivity.
Qed.

Lemma scrape_parsed (w : World) (url : string) (soup : Soup) :
  is_valid_url url = true ->
  _safe_get (get_page w url) = Some (Some soup) ->
  scrape_website_content w url = summarize_soup soup.
Proof.
  intros Hv Hg. unfold scrape_website_content. rewrite Hv, Hg.
  destruct url; [discriminate Hv|reflexivity].
Qed.

(** C10: a parsed page never yields the empty text: with no title, no
    description, no heading and no content the adapter returns the
    sentinel, which is not empty.  So whenever the page of the website the
    aggregator settles on is fetched and parsed, "Website Content" is
    recorded among the sources, and if the summary lookup is empty the
    adapter's text, be it the sentinel, becomes the summary. *)
Theorem parsed_page_never_empty (w : World) :
  (forall soup, summarize_soup soup <> EmptyString)
  /\ sentinel <> EmptyString
  /\ (forall soup,
        soup_title_text soup = EmptyString ->
        soup_description_text soup = EmptyString ->
        soup_headings soup = [] ->
        soup_main_content soup = EmptyString ->
        soup_first_paragraph soup = EmptyString ->
        summarize_soup soup = sentinel)
  /\ (forall url soup,
        is_valid_url url = true ->
        _safe_get (get_page w url) = Some (Some soup) ->
        scrape_website_content w url = summarize_soup soup
        /\ scrape_website_content w url <> EmptyString)
  /\ (forall name site soup,
        let site' := Spec.effective_website w name site in
        let r := research_company_thoroughly w name site in
        is_valid_url site' = true ->
        _safe_get (get_page w site') = Some (Some soup) ->
        In "Website Content" (sources_used r)
        /\ (fetch_duckduckgo_summary w (canonical_name r) = EmptyString ->
            summary r = summarize_soup soup
            /\ In "Website Summary" (sources_used r))).
Proof.
  split; [apply summarize_soup_nonempty|].
  split; [discriminate|].
  split.
  { intros soup Ht Hd Hh Hm Hf.
    destruct (summarize_soup_cases soup) as [[_ H]|[H _]]; [exact H|].
    elim H. apply summary_parts_nothing_found; assumption. }
  split.
  { intros url soup Hv Hg. rewrite (scrape_parsed w url soup Hv Hg).
    split; [reflexivity|apply summarize_soup_nonempty]. }
  intros name site soup site' r Hv Hg. subst r.
  assert (Hw : Spec.website_answer w name site = summarize_soup soup).
  { unfold Spec.website_answer. fold site'.
    destruct (truthy site') eqn:Hs.
    - apply scrape_parsed; assumption.
    - apply truthy_false_iff in Hs. rewrite Hs in Hv. discriminate Hv. }
  assert (Ht : truthy (Spec.website_answer w name site) = true).
  { rewrite Hw. apply truthy_true_iff. apply summarize_soup_nonempty. }
  rewrite research_record. cbn [canonical_name summary sources_used].
  rewrite Ht. split.
  - apply in_or_app. right. left. reflexivity.
  - intro Hd. rewrite Hd. cbn [truthy]. split; [exact Hw|].
    apply in_or_app. right. apply in_or_app. right. left. reflexivity.
Qed.

Lemma parsed_page_never_empty_witness :
  let r := research_company_thoroughly
             (Examples.pages_only Examples.empty_soup) "Acme" "https://acme.test" in
  In "Website Content" (sources_used r)
  /\ summary r = sentinel.
Proof.
  destruct (parsed_page_never_empty (Examples.pages_only Examples.empty_soup))
    as (_ & _ & _ & _ & H).
  destruct (H "Acme" "https://acme.test" Examples.empty_soup) as [Hin Hs].
  - reflexivity.
  - reflexivity.
  - split; [exact Hin|]. destruct Hs as [Hs _]; [reflexivity|].
    rewrite Hs. reflexivity.
Defined.

Lemma take_length (n : nat) (s : string) : String.length (take n s) <= n.
Proof.
  revert s. induction n as [|n IH]; intros [|c t]; simpl; try lia.
  specialize (IH t). lia.
Qed.

Lemma append_length (a b : string) :
  String.length (a ++ b) = String.length a + String.length b.
Proof. induction a as [|c a IH]; simpl; [reflexivity|]. rewrite IH. reflexivity. Qed.

Lemma rev_string_length (acc s : string) :
  String.length (rev_string acc s) = String.length acc + String.length s.
Proof.
  revert acc. induction s as [|c t IH]; intro acc; simpl; [lia|].
  rewrite IH. simpl. lia.
Qed.

Lemma join_cons_length (sep p : string) (rest : list string) :
  String.length (join sep (p :: rest))
  <= String.length p + String.length sep + String.length (join sep rest).
Proof.
  destruct rest as [|q rest].
  - simpl. lia.
  - change (join sep (p :: q :: rest)) with (p ++ sep ++ join sep (q :: rest)).
    rewrite !append_length. lia.
Qed.

(** Normalising the white space of a text does not make it longer. *)
Lemma join_split_ws_from_length (s cur : string) :
  String.length (join " " (split_ws_from cur s))
  <= String.length cur + String.length s.
Proof.
  revert cur. induction s as [|c t IH]; intro cur.
  - simpl. destruct cur as [|d cur]; simpl; [lia|].
    rewrite rev_string_length. simpl. lia.
  - cbn [split_ws_from]. destruct (isspace c).
    + destruct (truthy cur) eqn:Hc.
      * etransitivity; [apply join_cons_length|].
        rewrite rev_string_length. specialize (IH EmptyString). simpl in *. lia.
      * specialize (IH EmptyString). simpl in *. lia.
    + specialize (IH (String c cur)). simpl in *. lia.
Qed.

Lemma select_main_content_length (soup : Soup) (selectors : list string) :
  String.length (select_main_content soup selectors) <= 500.
Proof.
  induction selectors as [|sel rest IH]; cbn [select_main_content];
    [simpl; lia|].
  destruct (soup_select soup sel) as [text|]; [|exact IH]. cbv zeta.
  destruct (Nat.ltb 50 (String.length (strip text))); [|exact IH].
  apply take_length.
Qed.

Lemma soup_content_block_length (soup : Soup) :
  String.length (soup_content_block soup) <= 500.
Proof.
  unfold soup_content_block. cbv zeta.
  destruct (truthy (select_main_content soup content_selectors)); cbn [negb].
  - apply select_main_content_length.
  - destruct (soup_body soup); [apply take_length|apply select_main_content_length].
Qed.

Lemma soup_main_content_collapsed (soup : Soup) :
  soup_main_content soup = join " " (split_ws (soup_content_block soup)).
Proof.
  unfold soup_main_content. cbv zeta.
  destruct (soup_content_block soup); reflexivity.
Qed.

Lemma soup_main_content_length (soup : Soup) :
  String.length (soup_main_content soup) <= 500.
Proof.
  rewrite soup_main_content_collapsed. unfold split_ws.
  etransitivity; [apply join_split_ws_from_length|].
  simpl. apply soup_content_block_length.
Qed.

Lemma summary_parts_labelled (soup : Soup) :
  Forall Spec.labelled (summary_parts soup).
Proof.
  unfold summary_parts. cbv zeta.
  apply Forall_app; split; [|apply Forall_app; split; [|apply Forall_app; split]].
  - destruct (truthy _); constructor; [|constructor].
    eexists. left. reflexivity.
  - destruct (truthy _); constructor; [|constructor].
    eexists. right. left. reflexivity.
  - destruct (soup_headings soup); constructor; [|constructor].
    eexists. right. right. left. reflexivity.
  - destruct (truthy (soup_main_content soup));
      [|destruct (truthy (soup_first_paragraph soup))];
      constructor; try constructor; eexists; right; right; right; reflexivity.
Qed.

(** C6, as stated, fails: a page parsed with nothing to extract gives the
    sentinel, which is neither the empty text nor the join of the
    extracted fields (there are none), nor a join of labelled parts. *)
Lemma scrape_sentinel_is_third_outcome :
  let out := scrape_website_content (Examples.pages_only Examples.empty_soup)
               "https://acme.test" in
  summary_parts Examples.empty_soup = []
  /\ out <> EmptyString
  /\ out <> join " | " (summary_parts Examples.empty_soup)
  /\ ~ (exists parts, parts <> [] /\ Forall Spec.labelled parts
                      /\ out = join " | " parts).
Proof.
  split; [reflexivity|]. split; [discriminate|]. split; [discriminate|].
  intros (parts & Hne & Hl & Hj).
  destruct parts as [|p rest]; [congruence|].
  inversion Hl as [|? ? Hp _]; subst.
  destruct Hp as (text & [H|[H|[H|H]]]); subst p;
    destruct rest; vm_compute in Hj; discriminate Hj.
Qed.

(** C6 (amended): the adapter returns the empty text when the URL is empty
    or not valid, when the fetch fails and when parsing raises; for a
    parsed page it returns the sentinel "Website content extracted but
    limited text available" when no part was extracted, and otherwise the
    parts joined by " | ".  The parts are, in this order: "Title: " and the
    title when it is not empty; "Description: " and the description when
    it is not empty; "Headings: " and the first two headings joined by
    ", " when the page has a heading; "Content: " and the main content
    when it is not empty, else "Content: " and the first paragraph (cut to
    300 characters) when that is not empty.  The main content is the
    chosen block, cut to 500 characters, with its white space then
    collapsed, so it has at most 500 characters. *)
Theorem scrape_website_content_cases (w : World) (url : string) :
  (scrape_website_content w url = EmptyString
   /\ (url = EmptyString \/ is_valid_url url = false
       \/ _safe_get (get_page w url) = None
       \/ _safe_get (get_page w url) = Some None))
  \/ (exists soup,
        is_valid_url url = true
        /\ _safe_get (get_page w url) = Some (Some soup)
        /\ ((summary_parts soup = []
             /\ scrape_website_content w url = sentinel)
            \/ (summary_parts soup <> []
                /\ scrape_website_content w url = join " | " (summary_parts soup)))
        /\ Forall Spec.labelled (summary_parts soup)
        /\ summary_parts soup
           = List.app
               (if truthy (soup_title_text soup)
                then ["Title: " ++ soup_title_text soup] else [])
              (List.app
                (if truthy (soup_description_text soup)
                 then ["Description: " ++ soup_description_text soup] else [])
              (List.app
                (match soup_headings soup with
                 | [] => []
                 | _ => ["Headings: " ++ join ", " (soup_headings soup)]
                 end)
                (if truthy (soup_main_content soup)
                 then ["Content: " ++ soup_main_content soup]
                 else if truthy (soup_first_paragraph soup)
                      then ["Content: " ++ soup_first_paragraph soup]
                      else [])))
        /\ soup_main_content soup = join " " (split_ws (soup_content_block soup))
        /\ String.length (soup_content_block soup) <= 500
        /\ String.length (soup_main_content soup) <= 500
        /\ String.length (soup_first_paragraph soup) <= 300).
Proof.
  destruct url as [|c t]; [left; split; [reflexivity|left; reflexivity]|].
  destruct (is_valid_url (String c t)) eqn:Hv.
  2:{ left. unfold scrape_website_content. rewrite Hv. simpl. auto. }
  destruct (_safe_get (get_page w (String c t))) as [[soup|]|] eqn:Hg.
  - right. exists soup.
    rewrite (scrape_parsed w _ soup Hv Hg).
    split; [reflexivity|]. split; [reflexivity|].
    split; [apply summarize_soup_cases|].
    split; [apply summary_parts_labelled|].
    split; [reflexivity|].
    split; [apply soup_main_content_collapsed|].
    split; [apply soup_content_block_length|].
    split; [apply soup_main_content_length|].
    unfold soup_first_paragraph. destruct (soup_first_p soup);
      [apply take_length|simpl; lia].
  - left. unfold scrape_website_content. rewrite Hv, Hg. simpl. auto.
  - left. unfold scrape_website_content. rewrite Hv, Hg. simpl. auto.
Qed.

(** *** News merge (C4) *)

Lemma mem_string_iff (s : string) (l : list string) :
  mem_string s l = true <-> In s l.
Proof.
  unfold mem_string. rewrite existsb_exists. split.
  - intros (x & Hx & He). apply String.eqb_eq in He. subst. exact Hx.
  - intro H. exists s. split; [exact H|apply String.eqb_refl].
Qed.

Lemma dedup_loop_acc (articles : list Article) (seen : list string)
  (unique : list Article) :
  dedup_loop articles seen unique
  = List.app unique (dedup_loop articles seen []).
Proof.
  revert seen unique. induction articles as [|a rest IH]; intros seen unique.
  - simpl. symmetry. apply app_nil_r.
  - cbn [dedup_loop]. cbv zeta.
    destruct (truthy (title_key a) && negb (mem_string (title_key a) seen)).
    + rewrite (IH _ (List.app unique [a])), (IH _ (List.app [] [a])).
      rewrite <- app_assoc. reflexivity.
    + apply IH.
Qed.

(** The loop, one article at a time. *)
Lemma dedup_loop_cons (a : Article) (rest : list Article) (seen : list string) :
  dedup_loop (a :: rest) seen []
  = if truthy (title_key a) && negb (mem_string (title_key a) seen)
    then a :: dedup_loop rest (title_key a :: seen) []
    else dedup_loop rest seen [].
Proof.
  cbn [dedup_loop]. cbv zeta.
  destruct (truthy (title_key a) && negb (mem_string (title_key a) seen));
    [|reflexivity].
  rewrite dedup_loop_acc. reflexivity.
Qed.

Lemma kept_test (a : Article) (seen : list string) :
  truthy (title_key a) && negb (mem_string (title_key a) seen) = true
  <-> title_key a <> EmptyString /\ ~ In (title_key a) seen.
Proof.
  rewrite andb_true_iff, negb_true_iff, truthy_true_iff, <- mem_string_iff.
  split; intros [H1 H2]; split; try assumption.
  - rewrite H2. discriminate.
  - destruct (mem_string (title_key a) seen); [elim H2|]; reflexivity.
Qed.

Lemma subsequence_nil {A : Type} (l : list A) : Spec.subsequence [] l.
Proof. induction l; constructor; assumption. Qed.

Lemma subsequence_firstn {A : Type} (small big : list A) :
  Spec.subsequence small big ->
  forall n, Spec.subsequence (firstn n small) big.
Proof.
  induction 1 as [|x small big _ IH|x small big _ IH]; intro n.
  - rewrite firstn_nil. constructor.
  - constructor. apply IH.
  - destruct n as [|n]; simpl.
    + apply subsequence_nil.
    + apply Spec.sub_keep. apply IH.
Qed.

Lemma dedup_subsequence (articles : list Article) (seen : list string) :
  Spec.subsequence (dedup_loop articles seen []) articles.
Proof.
  revert seen. induction articles as [|a rest IH]; intro seen.
  - constructor.
  - rewrite dedup_loop_cons. destruct (_ && _); constructor; apply IH.
Qed.

Lemma dedup_keys (articles : list Article) (seen : list string) (a : Article) :
  In a (dedup_loop articles seen []) ->
  title_key a <> EmptyString /\ ~ In (title_key a) seen.
Proof.
  revert seen. induction articles as [|b rest IH]; intros seen Hin.
  - destruct Hin.
  - rewrite dedup_loop_cons in Hin.
    destruct (_ && _) eqn:Hk.
    + destruct Hin as [<-|Hin]; [apply kept_test; exact Hk|].
      destruct (IH _ Hin) as [H1 H2]. split; [exact H1|].
      intro H. apply H2. right. exact H.
    + apply IH. exact Hin.
Qed.

Lemma dedup_nodup (articles : list Article) (seen : list string) :
  NoDup (map title_key (dedup_loop articles seen [])).
Proof.
  revert seen. induction articles as [|a rest IH]; intro seen.
  - constructor.
  - rewrite dedup_loop_cons. destruct (_ && _); [|apply IH].
    cbn [map]. constructor; [|apply IH].
    intro Hin. apply in_map_iff in Hin. destruct Hin as (b & Hb & Hin).
    destruct (dedup_keys _ _ _ Hin) as [_ H]. apply H. left. symmetry. exact Hb.
Qed.

Lemma dedup_complete (articles : list Article) (seen : list string) (k : string) :
  k <> EmptyString -> ~ In k seen -> In k (map title_key articles) ->
  In k (map title_key (dedup_loop articles seen [])).
Proof.
  revert seen. induction articles as [|a rest IH]; intros seen Hk Hs Hin.
  - destruct Hin.
  - rewrite dedup_loop_cons. destruct (_ && _) eqn:Ht.
    + cbn [map]. destruct (string_dec (title_key a) k) as [He|He];
        [left; exact He|right].
      apply IH; [exact Hk| |].
      * intros [H|H]; [contradiction|apply Hs; exact H].
      * destruct Hin as [H|H]; [contradiction|exact H].
    + apply IH; [exact Hk|exact Hs|].
      destruct Hin as [H|H]; [|exact H].
      assert (Hok : truthy (title_key a)
                    && negb (mem_string (title_key a) seen) = true).
      { apply kept_test. rewrite H. split; assumption. }
      rewrite Hok in Ht. discriminate.
Qed.

Lemma dedup_first_seen (articles : list Article) (seen : list string) (a : Article) :
  In a (dedup_loop articles seen []) ->
  exists pre post,
    articles = List.app pre (a :: post)
    /\ ~ In (title_key a) (map title_key pre).
Proof.
  revert seen. induction articles as [|b rest IH]; intros seen Hin.
  - destruct Hin.
  - rewrite dedup_loop_cons in Hin. destruct (_ && _) eqn:Ht.
    + destruct Hin as [<-|Hin].
      * exists [], rest. split; [reflexivity|]. intros [].
      * destruct (dedup_keys _ _ _ Hin) as [_ Hs].
        destruct (IH _ Hin) as (pre & post & -> & Hp).
        exists (b :: pre), post. split; [reflexivity|].
        intros [H|H]; [apply Hs; left; exact H|apply Hp; exact H].
    + destruct (dedup_keys _ _ _ Hin) as [Hne Hs].
      destruct (IH _ Hin) as (pre & post & -> & Hp).
      exists (b :: pre), post. split; [reflexivity|].
      intros [H|H]; [|apply Hp; exact H].
      assert (Hok : truthy (title_key b)
                    && negb (mem_string (title_key b) seen) = true).
      { apply kept_test. rewrite H. split; assumption. }
      rewrite Hok in Ht. discriminate.
Qed.

(** [l[:limit]] is a prefix of [l] for every [limit]. *)
Lemma slice_to_firstn {A : Type} (limit : Z) (l : list A) :
  exists n, slice_to limit l = firstn n l
            /\ ((0 <= limit)%Z -> n = Z.to_nat limit).
Proof.
  unfold slice_to. destruct (0 <=? limit)%Z eqn:H.
  - eexists. split; [reflexivity|]. reflexivity.
  - eexists. split; [reflexivity|]. apply Z.leb_gt in H. lia.
Qed.

Lemma firstn_in {A : Type} (n : nat) (l : list A) (a : A) :
  In a (firstn n l) -> In a l.
Proof.
  revert l. induction n as [|n IH]; intros [|x l]; simpl; try tauto.
  intros [H|H]; [left; exact H|right; apply IH; exact H].
Qed.

Lemma firstn_map_nodup {A B : Type} (f : A -> B) (n : nat) (l : list A) :
  NoDup (map f l) -> NoDup (map f (firstn n l)).
Proof.
  revert l. induction n as [|n IH]; intros [|x l]; simpl; intro H;
    try constructor.
  - inversion H as [|? ? Hx Hl]; subst. intro Hin. apply Hx.
    apply in_map_iff in Hin. destruct Hin as (y & Hy & Hin).
    apply in_map_iff. exists y. split; [exact Hy|].
    apply (firstn_in n). exact Hin.
  - inversion H; subst. apply IH. assumption.
Qed.

Lemma firstn_short_or_full {A : Type} (n : nat) (l : list A) :
  firstn n l = l \/ List.length (firstn n l) = n.
Proof.
  destruct (Nat.le_gt_cases (List.length l) n) as [H|H].
  - left. apply firstn_all2. exact H.
  - right. apply firstn_length_le. lia.
Qed.

(** C4, as stated, fails when the merged results hold more titles than
    [limit], and for a title that is blank.  With [limit = 5], five
    articles for the name (one of them with a blank title) and two for
    the domain, all distinct, the output is the first five with a title:
    "Acme wins" and the blank title are among the merged results and not
    in the output.  With the name alone the output has four articles,
    fewer than [limit], and the blank title is still missing. *)
Lemma truncation_drops_titles :
  let w := Examples.news_by_query Examples.name_news Examples.domain_news in
  let merged := List.app (fetch_news_articles w "Acme" 5)
                         (fetch_news_articles w "acme.io" 5) in
  let out := fetch_news_articles_enhanced w "Acme" "acme.io" 5 in
  In (mkArticle "Acme wins" "l7") merged
  /\ In (mkArticle "   " "l2") merged
  /\ out = [ mkArticle "Acme raises funds" "l1"; mkArticle "Acme hires" "l3";
             mkArticle "Acme ships" "l4"; mkArticle "Acme grows" "l5";
             mkArticle "Acme expands" "l6" ]
  /\ ~ In (title_key (mkArticle "Acme wins" "l7")) (map title_key out)
  /\ ~ In (mkArticle "   " "l2") out
  /\ In (mkArticle "   " "l2") (fetch_news_articles w "Acme" 5)
  /\ fetch_news_articles_enhanced w "Acme" EmptyString 5
     = [ mkArticle "Acme raises funds" "l1"; mkArticle "Acme hires" "l3";
         mkArticle "Acme ships" "l4"; mkArticle "Acme grows" "l5" ].
Proof.
  cbv zeta. split; [vm_compute; tauto|]. split; [vm_compute; tauto|].
  split; [reflexivity|]. split; [vm_compute; intuition discriminate|].
  split; [vm_compute; intuition discriminate|].
  split; [vm_compute; tauto|reflexivity].
Qed.

(** C4 (amended): the queries handed to the news adapter are the company
    name (when not empty) and then, exactly when the domain is not empty
    and does not occur in the name, the cleaned domain.  The output is
    made of the merged adapter results of these queries alone: it keeps
    no two articles with the same lowered and trimmed title and none with
    an empty one; it is a subsequence of the merged results, and each
    article kept is the first of the merged results with its title.
    For a limit that is a count (not negative) the output has at most
    [limit] articles, and every non-empty title of the merged results is
    in the output unless the output already holds [limit] articles. *)
Theorem fetch_news_articles_enhanced_merge (w : World) (name domain : string)
  (limit : Z) :
  let calls := fst (fetch_news_articles_enhanced_calls w name domain limit) in
  let out := fetch_news_articles_enhanced w name domain limit in
  let merged := flat_map (fun q => fetch_news_articles w q limit) calls in
  let name_call := if truthy name then [name] else [] in
  ((domain <> EmptyString /\ contains domain name = false
    /\ calls = List.app name_call [clean_news_domain domain])
   \/ (~ (domain <> EmptyString /\ contains domain name = false)
       /\ calls = name_call))
  /\ out = slice_to limit (dedup_loop merged [] [])
  /\ NoDup (map title_key out)
  /\ (forall a, In a out -> title_key a <> EmptyString)
  /\ Spec.subsequence out merged
  /\ (forall a, In a out ->
      exists pre post, merged = List.app pre (a :: post)
                       /\ ~ In (title_key a) (map title_key pre))
  /\ ((0 <= limit)%Z ->
      (Z.of_nat (List.length out) <= limit)%Z
      /\ forall k, k <> EmptyString -> In k (map title_key merged) ->
           In k (map title_key out) \/ Z.of_nat (List.length out) = limit).
Proof.
  intros calls out merged name_call.
  assert (Hc : calls = List.app name_call
                 (if truthy domain && negb (contains domain name)
                  then [clean_news_domain domain] else [])).
  { subst calls name_call. unfold fetch_news_articles_enhanced_calls.
    destruct (truthy name); destruct (truthy domain && negb (contains domain name));
      reflexivity. }
  assert (Ho : out = slice_to limit (dedup_loop merged [] [])).
  { subst out merged calls. unfold fetch_news_articles_enhanced,
      fetch_news_articles_enhanced_calls.
    destruct (truthy name); destruct (truthy domain && negb (contains domain name));
      cbn [fst snd flat_map List.app]; rewrite ?app_nil_r; reflexivity. }
  destruct (slice_to_firstn limit (dedup_loop merged [] [])) as (n & Hn & Hlim).
  rewrite Hn in Ho. clearbody out merged calls.
  split.
  { rewrite Hc. destruct (truthy domain) eqn:Hd; cbn [andb].
    - destruct (contains domain name) eqn:Hs; cbn [negb].
      + right. split; [intros (_ & H); discriminate|apply app_nil_r].
      + left. split; [apply truthy_true_iff; exact Hd|]. split; reflexivity.
    - right. apply truthy_false_iff in Hd.
      split; [intros (H & _); contradiction|apply app_nil_r]. }
  split; [rewrite Hn; exact Ho|].
  subst out.
  split; [apply firstn_map_nodup, dedup_nodup|].
  split; [intros a Ha; apply firstn_in in Ha; apply (dedup_keys _ _ _ Ha)|].
  split; [apply subsequence_firstn, dedup_subsequence|].
  split; [intros a Ha; apply firstn_in in Ha; apply (dedup_first_seen _ _ _ Ha)|].
  intro Hl. specialize (Hlim Hl). subst n. split.
  - pose proof (firstn_le_length (Z.to_nat limit) (dedup_loop merged [] [])). lia.
  - intros k Hk Hin.
    destruct (firstn_short_or_full (Z.to_nat limit) (dedup_loop merged [] []))
      as [H|H].
    + left. rewrite H. apply dedup_complete; [exact Hk|intros []|exact Hin].
    + right. rewrite H. lia.
Qed.

Lemma fetch_news_articles_enhanced_merge_witness :
  (Z.of_nat (List.length
     (fetch_news_articles_enhanced (Examples.news_world Examples.three_news)
        "Acme" "acme.io" 2)) <= 2)%Z.
Proof.
  apply (proj2 (proj2 (proj2 (proj2 (proj2 (proj2
           (fetch_news_articles_enhanced_merge
              (Examples.news_world Examples.three_news) "Acme" "acme.io" 2))))))).
  lia.
Defined.

(** *** Company names on ASCII text *)

Import Regex.

(** Facts about single characters, by enumeration. *)
Ltac by_cases_on_char c :=
  destruct c as [[] [] [] [] [] [] [] []]; vm_compute;
  try reflexivity; try discriminate; try (intro; discriminate);
  try (split; intro; (reflexivity || discriminate)).

Lemma lower_char_idem (c : ascii) : lower_char (lower_char c) = lower_char c.
Proof. by_cases_on_char c. Qed.

Lemma isspace_lower_char (c : ascii) : isspace (lower_char c) = isspace c.
Proof. by_cases_on_char c. Qed.

Lemma lower_char_space (c : ascii) : isspace c = true -> lower_char c = c.
Proof. by_cases_on_char c. Qed.

Lemma lower_char_newline (c : ascii) :
  Ascii.eqb (lower_char c) (chr 10) = Ascii.eqb c (chr 10).
Proof. by_cases_on_char c. Qed.

Lemma lower_char_dot (c : ascii) :
  Ascii.eqb "." (lower_char c) = Ascii.eqb "." c.
Proof. by_cases_on_char c. Qed.

Lemma lower_empty (s : string) : lower s = EmptyString -> s = EmptyString.
Proof. destruct s; [reflexivity|discriminate]. Qed.

(** A literal is matched by stripping it, case ignored. *)
Lemma matches_lit (p u : string) (k : string -> option string) :
  matches (lit p) u k
  = match strip_prefix_ci p u with Some v => k v | None => None end.
Proof.
  revert u. induction p as [|c p IH]; intro u; [reflexivity|].
  cbn [lit matches strip_prefix_ci]. destruct u as [|d u]; [reflexivity|].
  destruct (Ascii.eqb (lower_char c) (lower_char d)); [apply IH|reflexivity].
Qed.

Lemma strip_prefix_ci_app (p u v : string) :
  strip_prefix_ci p u = Some v ->
  exists u1, u = u1 ++ v /\ lower u1 = lower p.
Proof.
  revert u. induction p as [|c p IH]; intros u H.
  - injection H as <-. exists EmptyString. split; reflexivity.
  - cbn [strip_prefix_ci] in H. destruct u as [|d u]; [discriminate|].
    destruct (Ascii.eqb (lower_char c) (lower_char d)) eqn:Hc; [|discriminate].
    apply Ascii.eqb_eq in Hc. destruct (IH u H) as (u1 & -> & Hl).
    exists (String d u1). split; [reflexivity|].
    unfold lower in *. cbn [map_chars]. rewrite Hl, Hc. reflexivity.
Qed.

Lemma plus_space_lstrip (k : string -> option string) :
  (forall d u, isspace d = true -> k (String d u) = None) ->
  forall t c, isspace c = true -> plus_space (String c t) k = k (lstrip t).
Proof.
  intros Hk t. induction t as [|d t IH]; intros c Hc.
  - simpl. rewrite Hc. reflexivity.
  - change (plus_space (String c (String d t)) k)
      with (if isspace c
            then match plus_space (String d t) k with
                 | Some r => Some r
                 | None => k (String d t)
                 end
            else None).
    rewrite Hc. unfold lstrip. cbn [lstrip_by].
    destruct (isspace d) eqn:Hd.
    + rewrite (IH d Hd). fold (lstrip t).
      destruct (k (lstrip t)); [reflexivity|]. apply Hk. exact Hd.
    + simpl. rewrite Hd. reflexivity.
Qed.

(** The optional period and the end of the text. *)
Lemma dot_end_cases (v r : string) :
  matches (Opt (Lit ".")) v (fun s' => matches EndOfString s' Some) = Some r ->
  (r = EmptyString /\ (v = EmptyString \/ v = "."))
  \/ exists x, v = x ++ newline.
Proof.
  cbn [matches]. destruct v as [|d v].
  - simpl. intro H. injection H as <-. left. auto.
  - change (lower_char ".") with "."%char. rewrite lower_char_dot.
    destruct (Ascii.eqb "." d) eqn:Hd.
    + apply Ascii.eqb_eq in Hd. subst d.
      destruct v as [|e v].
      * simpl. intro H. injection H as <-. left. auto.
      * cbn [truthy negb orb].
        destruct (String.eqb (String e v) newline) eqn:He.
        -- apply String.eqb_eq in He. intros _. right.
           exists ".". rewrite He. reflexivity.
        -- simpl. discriminate.
    + cbn [truthy negb orb].
      destruct (String.eqb (String d v) newline) eqn:He; [|discriminate].
      apply String.eqb_eq in He. intros _. right.
      exists EmptyString. rewrite He. reflexivity.
Qed.

Lemma dotted_end (p u : string) :
  matches (ParserUtils.dotted p) u (fun s' => matches EndOfString s' Some)
  = match strip_prefix_ci p u with
    | Some v => matches (Opt (Lit ".")) v (fun s' => matches EndOfString s' Some)
    | None => None
    end.
Proof. unfold ParserUtils.dotted. cbn [matches]. rewrite matches_lit. reflexivity. Qed.

Lemma matches_alt_some (a b : regex) (u : string)
  (k : string -> option string) (r : string) :
  matches (Alt a b) u k = Some r ->
  matches a u k = Some r \/ matches b u k = Some r.
Proof.
  cbn [matches]. destruct (matches a u k); intro H; [left|right]; exact H.
Qed.

Lemma dotted_some (p u r : string) :
  matches (ParserUtils.dotted p) u (fun s' => matches EndOfString s' Some) = Some r ->
  exists v,
    strip_prefix_ci p u = Some v
    /\ matches (Opt (Lit ".")) v (fun s' => matches EndOfString s' Some) = Some r.
Proof.
  rewrite dotted_end. destruct (strip_prefix_ci p u) as [v|]; [|discriminate].
  intro H. exists v. split; [reflexivity|exact H].
Qed.

(** A successful match of the tail of the pattern names its token. *)
Lemma suffix_tail_sound (u r : string) :
  match_here ParserUtils.suffix_tail u = Some r ->
  exists p v,
    In p ["inc"; "ltd"; "corp"; "co"]
    /\ strip_prefix_ci p u = Some v
    /\ matches (Opt (Lit ".")) v (fun s' => matches EndOfString s' Some) = Some r.
Proof.
  intro H.
  change (matches ParserUtils.suffix_words u
            (fun s' => matches EndOfString s' Some) = Some r) in H.
  unfold ParserUtils.suffix_words in H.
  apply matches_alt_some in H. destruct H as [H|H].
  { apply dotted_some in H. destruct H as (v & Hv & Ht).
    exists "inc", v. simpl. auto 10. }
  apply matches_alt_some in H. destruct H as [H|H].
  { apply dotted_some in H. destruct H as (v & Hv & Ht).
    exists "ltd", v. simpl. auto 10. }
  apply matches_alt_some in H. destruct H as [H|H];
    apply dotted_some in H; destruct H as (v & Hv & Ht).
  - exists "corp", v. simpl. auto 10.
  - exists "co", v. simpl. auto 10.
Qed.

Lemma suffix_tail_not_space (d : ascii) (u : string) :
  isspace d = true -> match_here ParserUtils.suffix_tail (String d u) = None.
Proof.
  intro Hd. destruct (match_here ParserUtils.suffix_tail (String d u)) as [r|] eqn:H;
    [|reflexivity].
  exfalso. apply suffix_tail_sound in H. destruct H as (p & v & Hp & Hv & _).
  simpl in Hp.
  destruct Hp as [<-|[<-|[<-|[<-|[]]]]]; cbn [strip_prefix_ci] in Hv;
    rewrite (lower_char_space d Hd) in Hv;
    match type of Hv with
    | (if Ascii.eqb ?x d then _ else _) = _ =>
        destruct (Ascii.eqb x d) eqn:He; [|discriminate];
        apply Ascii.eqb_eq in He; rewrite <- He in Hd; vm_compute in Hd;
        discriminate
    end.
Qed.

(** The whole pattern at the head of a text: white space, then the tail
    of the pattern on what follows the white space. *)
Lemma match_here_suffix_pattern (c : ascii) (t : string) :
  match_here ParserUtils.suffix_pattern (String c t)
  = if isspace c then match_here ParserUtils.suffix_tail (lstrip t) else None.
Proof.
  unfold match_here, ParserUtils.suffix_pattern.
  change (matches (Seq PlusSpace ParserUtils.suffix_tail) (String c t) Some)
    with (plus_space (String c t)
            (fun s' => matches ParserUtils.suffix_tail s' Some)).
  destruct (isspace c) eqn:Hc.
  - apply (plus_space_lstrip
             (fun s' => matches ParserUtils.suffix_tail s' Some)).
    + intros d u Hd. apply (suffix_tail_not_space d u Hd).
    + exact Hc.
  - simpl. rewrite Hc. reflexivity.
Qed.

Lemma truthy_lower (s : string) : truthy (lower s) = truthy s.
Proof. destruct s; reflexivity. Qed.

Lemma eqb_newline_lower (s : string) :
  String.eqb (lower s) newline = String.eqb s newline.
Proof.
  destruct s as [|c [|d s]]; try reflexivity.
  - unfold newline. simpl. rewrite lower_char_newline. reflexivity.
  - unfold newline. simpl. rewrite lower_char_newline. reflexivity.
Qed.

Lemma plus_space_lower (u : string) (k k' : string -> option string) :
  (forall v, option_map lower (k v) = k' (lower v)) ->
  option_map lower (plus_space u k) = plus_space (lower u) k'.
Proof.
  intro Hk. induction u as [|c u IH]; [reflexivity|].
  simpl. rewrite isspace_lower_char. destruct (isspace c); [|reflexivity].
  fold (lower u). rewrite <- IH.
  destruct (plus_space u k); [reflexivity|]. simpl. apply Hk.
Qed.

(** Matching ignores the case of the text. *)
Lemma matches_lower (r : regex) :
  forall (u : string) (k k' : string -> option string),
    (forall v, option_map lower (k v) = k' (lower v)) ->
    option_map lower (matches r u k) = matches r (lower u) k'.
Proof.
  induction r as [|c| |r1 IH1|r1 IH1 r2 IH2|r1 IH1 r2 IH2|]; intros u k k' Hk;
    cbn [matches].
  - apply Hk.
  - destruct u as [|d u]; [reflexivity|]. simpl.
    rewrite lower_char_idem.
    destruct (Ascii.eqb (lower_char c) (lower_char d)); [apply Hk|reflexivity].
  - apply plus_space_lower. exact Hk.
  - rewrite <- (IH1 u k k' Hk).
    destruct (matches r1 u k); [reflexivity|]. apply Hk.
  - apply IH1. intro v. apply IH2. exact Hk.
  - rewrite <- (IH1 u k k' Hk), <- (IH2 u k k' Hk).
    destruct (matches r1 u k); reflexivity.
  - rewrite truthy_lower, eqb_newline_lower.
    destruct (negb (truthy u) || String.eqb u newline); [apply Hk|reflexivity].
Qed.

Lemma match_here_lower (r : regex) (u : string) :
  option_map lower (match_here r u) = match_here r (lower u).
Proof. apply matches_lower. intro v. reflexivity. Qed.

(** A legal suffix token is matched to its end. *)
Lemma suffix_tail_complete (u : string) :
  Spec.is_legal_suffix u = true ->
  match_here ParserUtils.suffix_tail u = Some EmptyString.
Proof.
  unfold Spec.is_legal_suffix. intro H.
  apply existsb_exists in H. destruct H as (tok & Hin & He).
  apply String.eqb_eq in He.
  pose proof (match_here_lower ParserUtils.suffix_tail u) as Hl.
  rewrite He in Hl.
  assert (Ht : match_here ParserUtils.suffix_tail tok = Some EmptyString).
  { simpl in Hin.
    destruct Hin as [<-|[<-|[<-|[<-|[<-|[<-|[<-|[<-|[]]]]]]]]]; reflexivity. }
  rewrite Ht in Hl.
  destruct (match_here ParserUtils.suffix_tail u) as [r|]; [|discriminate].
  simpl in Hl. injection Hl as Hr. apply lower_empty in Hr. rewrite Hr.
  reflexivity.
Qed.

Lemma rstrip_empty_iff_tail (c : ascii) (t : string) :
  rstrip (String c t) = String c t -> t <> EmptyString -> rstrip t = t.
Proof.
  unfold rstrip. cbn [rstrip_by]. intros H Ht.
  destruct (rstrip_by isspace t) as [|d r] eqn:Hr.
  - destruct (isspace c); [discriminate|]. injection H as H. congruence.
  - injection H as H. exact H.
Qed.

Lemma rstrip_single (c : ascii) :
  rstrip (String c EmptyString) = String c EmptyString -> isspace c = false.
Proof.
  unfold rstrip. cbn [rstrip_by]. destruct (isspace c); [discriminate|reflexivity].
Qed.

Lemma append_not_empty (x : string) (c : ascii) (t : string) :
  x ++ String c t <> EmptyString.
Proof. destruct x; discriminate. Qed.

(** A text that trimming on the right leaves alone does not end in white
    space. *)
Lemma rstrip_fixed_last (x : string) (c : ascii) :
  rstrip (x ++ String c EmptyString) = x ++ String c EmptyString ->
  isspace c = false.
Proof.
  induction x as [|d x IH]; intro H.
  - apply rstrip_single. exact H.
  - apply IH. apply (rstrip_empty_iff_tail d); [exact H|apply append_not_empty].
Qed.

Lemma lower_app (a b : string) : lower (a ++ b) = lower a ++ lower b.
Proof.
  unfold lower. induction a as [|c a IH]; simpl; [reflexivity|].
  rewrite IH. reflexivity.
Qed.

Lemma append_assoc (a b c : string) : (a ++ b) ++ c = a ++ b ++ c.
Proof. induction a as [|x a IH]; simpl; [reflexivity|]. rewrite IH. reflexivity. Qed.

Lemma suffix_tail_sound_legal (u r : string) :
  rstrip u = u ->
  match_here ParserUtils.suffix_tail u = Some r ->
  r = EmptyString /\ Spec.is_legal_suffix u = true.
Proof.
  intros Hu H. apply suffix_tail_sound in H.
  destruct H as (p & v & Hp & Hv & Ht).
  apply strip_prefix_ci_app in Hv. destruct Hv as (u1 & -> & Hl).
  apply dot_end_cases in Ht. destruct Ht as [(-> & Hv)|(x & ->)].
  - split; [reflexivity|]. unfold Spec.is_legal_suffix.
    rewrite lower_app, Hl.
    simpl in Hp.
    destruct Hp as [<-|[<-|[<-|[<-|[]]]]]; destruct Hv as [->| ->]; reflexivity.
  - exfalso. unfold newline in Hu. rewrite <- append_assoc in Hu.
    apply rstrip_fixed_last in Hu. vm_compute in Hu. discriminate.
Qed.

(** On a text that does not end in white space the tail of the pattern
    matches exactly the legal suffix tokens. *)
Lemma suffix_tail_spec (u : string) :
  rstrip u = u ->
  match_here ParserUtils.suffix_tail u
  = if Spec.is_legal_suffix u then Some EmptyString else None.
Proof.
  intro Hu. destruct (Spec.is_legal_suffix u) eqn:Hl.
  - apply suffix_tail_complete. exact Hl.
  - destruct (match_here ParserUtils.suffix_tail u) as [r|] eqn:H; [|reflexivity].
    destruct (suffix_tail_sound_legal u r Hu H) as [_ Hc]. congruence.
Qed.

Lemma rstrip_fixed_lstrip (t : string) : rstrip t = t -> rstrip (lstrip t) = lstrip t.
Proof.
  induction t as [|c t IH]; intro H; [reflexivity|].
  unfold lstrip. cbn [lstrip_by]. destruct (isspace c) eqn:Hc; [|exact H].
  destruct t as [|d t].
  - apply rstrip_single in H. congruence.
  - apply IH. apply (rstrip_empty_iff_tail c); [exact H|discriminate].
Qed.

Lemma rstrip_idem (s : string) : rstrip (rstrip s) = rstrip s.
Proof.
  unfold rstrip. induction s as [|c s IH]; [reflexivity|].
  cbn [rstrip_by]. destruct (rstrip_by isspace s) as [|d r] eqn:Hr.
  - destruct (isspace c) eqn:Hc; [reflexivity|].
    cbn [rstrip_by]. rewrite Hc. reflexivity.
  - cbn [rstrip_by] in *. rewrite IH. reflexivity.
Qed.

Lemma rstrip_strip (s : string) : rstrip (strip s) = strip s.
Proof. unfold strip. apply rstrip_fixed_lstrip. apply rstrip_idem. Qed.

Lemma sub_from_pass (r : regex) (t : string) (k : nat) :
  String.length t <= k -> sub_from r k t = EmptyString.
Proof.
  revert k. induction t as [|c t IH]; intros k H; [reflexivity|].
  destruct k as [|k]; simpl in H; [lia|]. cbn [sub_from]. apply IH. lia.
Qed.

(** [re.sub] with the suffix pattern, one character at a time, on a text
    that does not end in white space. *)
Lemma sub_suffix_cons (c : ascii) (t : string) :
  rstrip (String c t) = String c t ->
  sub_empty ParserUtils.suffix_pattern (String c t)
  = if isspace c && Spec.is_legal_suffix (lstrip t) then EmptyString
    else String c (sub_empty ParserUtils.suffix_pattern t).
Proof.
  intro H. unfold sub_empty. cbn [sub_from].
  rewrite match_here_suffix_pattern.
  destruct (isspace c) eqn:Hc; cbn [andb]; [|reflexivity].
  destruct t as [|d t]; [apply rstrip_single in H; congruence|].
  assert (Ht : rstrip (String d t) = String d t)
    by (apply (rstrip_empty_iff_tail c); [exact H|discriminate]).
  rewrite (suffix_tail_spec _ (rstrip_fixed_lstrip _ Ht)).
  destruct (Spec.is_legal_suffix (lstrip (String d t))); [|reflexivity].
  apply sub_from_pass. simpl. lia.
Qed.

Lemma rstrip_app_fixed (x y : string) :
  y <> EmptyString -> rstrip y = y -> rstrip (x ++ y) = x ++ y.
Proof.
  intros Hy Hr. induction x as [|c x IH]; [exact Hr|].
  unfold rstrip in *. simpl. rewrite IH.
  destruct (x ++ y) eqn:He; [|reflexivity].
  destruct x; simpl in He; [congruence|discriminate].
Qed.

Lemma rstrip_cons_fixed (c : ascii) (base : string) :
  base <> EmptyString -> rstrip base = base ->
  rstrip (String c base) = String c base.
Proof.
  intros Hb Hr. apply (rstrip_app_fixed (String c EmptyString) base Hb Hr).
Qed.

(** *** Company names over Python's own characters (C8) *)

Section CompanyNames.
Import Unicode.
Variable T : Tables.
Hypothesis line_feed_space : isspace T line_feed = true.
Hypothesis no_space_letter : space_matches_no_letter T.
Hypothesis title_empty : title T [] = [].

(** A literal is matched by stripping it. *)
Lemma text_matches_lit (p : string) (u : text) (k : text -> option text) :
  matches T (lit p) u k
  = match strip_prefix T p u with Some v => k v | None => None end.
Proof.
  revert u. induction p as [|c p IH]; intro u; [reflexivity|].
  cbn [lit matches strip_prefix]. destruct u as [|d u]; [reflexivity|].
  destruct (ignore_case_eq T (N_of_ascii c) d); [apply IH|reflexivity].
Qed.

Lemma strip_prefix_split (p : string) (u v : text) :
  strip_prefix T p u = Some v ->
  exists u1, u = List.app u1 v /\ Spec.same_ignoring_case T p u1 = true.
Proof.
  revert u. induction p as [|c p IH]; intros u H.
  - injection H as <-. exists []. split; reflexivity.
  - cbn [strip_prefix] in H. destruct u as [|d u]; [discriminate|].
    destruct (ignore_case_eq T (N_of_ascii c) d) eqn:Hc; [|discriminate].
    destruct (IH u H) as (u1 & -> & Hl).
    exists (d :: u1). split; [reflexivity|].
    cbn [Spec.same_ignoring_case]. rewrite Hc, Hl. reflexivity.
Qed.

Lemma strip_prefix_same (p : string) (u v : text) :
  Spec.same_ignoring_case T p u = true ->
  strip_prefix T p (List.app u v) = Some v.
Proof.
  revert u. induction p as [|c p IH]; intros u H.
  - destruct u; [reflexivity|discriminate].
  - destruct u as [|d u]; [discriminate|].
    cbn [Spec.same_ignoring_case] in H. apply andb_true_iff in H.
    destruct H as [Hc Hu]. cbn [List.app strip_prefix]. rewrite Hc.
    apply IH. exact Hu.
Qed.

(** A word and a final period spell the dotted token. *)
Lemma same_ignoring_case_app (p q : string) (u v : text) :
  Spec.same_ignoring_case T p u = true ->
  Spec.same_ignoring_case T q v = true ->
  Spec.same_ignoring_case T (p ++ q) (List.app u v) = true.
Proof.
  revert u. induction p as [|c p IH]; intros u Hu Hv.
  - destruct u; [exact Hv|discriminate].
  - destruct u as [|d u]; [discriminate|].
    cbn [Spec.same_ignoring_case] in Hu. apply andb_true_iff in Hu.
    destruct Hu as [Hc Hu]. cbn [append List.app Spec.same_ignoring_case].
    rewrite Hc. apply IH; assumption.
Qed.

Lemma same_ignoring_case_split (p q : string) (w : text) :
  Spec.same_ignoring_case T (p ++ q) w = true ->
  exists u v, w = List.app u v
              /\ Spec.same_ignoring_case T p u = true
              /\ Spec.same_ignoring_case T q v = true.
Proof.
  revert w. induction p as [|c p IH]; intros w H.
  - exists [], w. repeat split. exact H.
  - destruct w as [|d w]; [discriminate|].
    cbn [append Spec.same_ignoring_case] in H. apply andb_true_iff in H.
    destruct H as [Hc H]. destruct (IH w H) as (u & v & -> & Hu & Hv).
    exists (d :: u), v. repeat split; [|exact Hv].
    cbn [Spec.same_ignoring_case]. rewrite Hc. exact Hu.
Qed.

Lemma text_plus_space_lstrip (k : text -> option text) :
  (forall d u, isspace T d = true -> k (d :: u) = None) ->
  forall t c, isspace T c = true -> plus_space T (c :: t) k = k (lstrip T t).
Proof.
  intros Hk t. induction t as [|d t IH]; intros c Hc.
  - cbn [plus_space lstrip]. rewrite Hc. reflexivity.
  - change (plus_space T (c :: d :: t) k)
      with (if isspace T c
            then match plus_space T (d :: t) k with
                 | Some r => Some r
                 | None => k (d :: t)
                 end
            else None).
    rewrite Hc. cbn [lstrip].
    destruct (isspace T d) eqn:Hd.
    + rewrite (IH d Hd).
      destruct (k (lstrip T t)); [reflexivity|]. apply Hk. exact Hd.
    + cbn [plus_space]. rewrite Hd. reflexivity.
Qed.

(** The optional period and the end of the text. *)
Lemma text_dot_end_cases (v r : text) :
  matches T (Opt (Lit ".")) v (at_end T) = Some r ->
  (r = [] /\ Spec.same_ignoring_case T "" v = true)
  \/ (r = [] /\ Spec.same_ignoring_case T "." v = true)
  \/ exists x, v = List.app x [line_feed].
Proof.
  unfold at_end. cbn [matches]. destruct v as [|d v].
  - intro H. injection H as <-. left. split; reflexivity.
  - destruct (ignore_case_eq T (N_of_ascii ".") d) eqn:Hd.
    + destruct v as [|e [|f v]].
      * intro H. injection H as <-. right. left. split; [reflexivity|].
        cbn [Spec.same_ignoring_case]. rewrite Hd. reflexivity.
      * destruct (N.eqb e line_feed) eqn:He; [|discriminate].
        apply N.eqb_eq in He. subst e. intros _. right. right.
        exists [d]. reflexivity.
      * discriminate.
    + destruct v as [|e v]; [|discriminate].
      destruct (N.eqb d line_feed) eqn:He; [|discriminate].
      apply N.eqb_eq in He. subst d. intros _. right. right.
      exists []. reflexivity.
Qed.

Lemma text_dotted_end (p : string) (u : text) :
  matches T (ParserUtils.dotted p) u (at_end T)
  = match strip_prefix T p u with
    | Some v => matches T (Opt (Lit ".")) v (at_end T)
    | None => None
    end.
Proof.
  unfold ParserUtils.dotted. cbn [matches]. rewrite text_matches_lit.
  reflexivity.
Qed.

Lemma text_matches_alt (a b : regex) (u : text) (k : text -> option text)
  (r : text) :
  matches T (Alt a b) u k = Some r ->
  matches T a u k = Some r \/ matches T b u k = Some r.
Proof.
  cbn [matches]. destruct (matches T a u k); intro H; [left|right]; exact H.
Qed.

Lemma text_dotted_some (p : string) (u r : text) :
  matches T (ParserUtils.dotted p) u (at_end T) = Some r ->
  exists v,
    strip_prefix T p u = Some v
    /\ matches T (Opt (Lit ".")) v (at_end T) = Some r.
Proof.
  rewrite text_dotted_end. destruct (strip_prefix T p u) as [v|]; [|discriminate].
  intro H. exists v. split; [reflexivity|exact H].
Qed.

(** A successful match of the tail of the pattern names its word. *)
Lemma text_suffix_tail_sound (u r : text) :
  match_here T ParserUtils.suffix_tail u = Some r ->
  exists p v,
    In p ["inc"; "ltd"; "corp"; "co"]
    /\ strip_prefix T p u = Some v
    /\ matches T (Opt (Lit ".")) v (at_end T) = Some r.
Proof.
  intro H.
  change (matches T ParserUtils.suffix_words u (at_end T) = Some r) in H.
  unfold ParserUtils.suffix_words in H.
  apply text_matches_alt in H. destruct H as [H|H].
  { apply text_dotted_some in H. destruct H as (v & Hv & Ht).
    exists "inc", v. simpl. auto 10. }
  apply text_matches_alt in H. destruct H as [H|H].
  { apply text_dotted_some in H. destruct H as (v & Hv & Ht).
    exists "ltd", v. simpl. auto 10. }
  apply text_matches_alt in H. destruct H as [H|H];
    apply text_dotted_some in H; destruct H as (v & Hv & Ht).
  - exists "corp", v. simpl. auto 10.
  - exists "co", v. simpl. auto 10.
Qed.

(** The words of the pattern, each with and without its period, are the
    tokens of the specification. *)
Lemma word_tokens (p : string) :
  In p ["inc"; "ltd"; "corp"; "co"] ->
  In p Spec.legal_suffix_tokens /\ In (p ++ ".") Spec.legal_suffix_tokens.
Proof.
  simpl. intros [<-|[<-|[<-|[<-|[]]]]]; simpl; auto 20.
Qed.

Lemma token_words (tok : string) :
  In tok Spec.legal_suffix_tokens ->
  exists p q, In p ["inc"; "ltd"; "corp"; "co"] /\ In q [""; "."]
              /\ tok = p ++ q.
Proof.
  simpl. intros [<-|[<-|[<-|[<-|[<-|[<-|[<-|[<-|[]]]]]]]]].
  - exists "inc", "". simpl. auto 10.
  - exists "inc", ".". simpl. auto 10.
  - exists "ltd", "". simpl. auto 10.
  - exists "ltd", ".". simpl. auto 10.
  - exists "corp", "". simpl. auto 10.
  - exists "corp", ".". simpl. auto 10.
  - exists "co", "". simpl. auto 10.
  - exists "co", ".". simpl. auto 10.
Qed.

Lemma token_letters (tok : string) :
  In tok Spec.legal_suffix_tokens ->
  tok <> EmptyString
  /\ Forall (fun c => In c (literals ParserUtils.suffix_pattern))
            (list_ascii_of_string tok).
Proof.
  simpl. intros [<-|[<-|[<-|[<-|[<-|[<-|[<-|[<-|[]]]]]]]]];
    (split; [discriminate|]);
    repeat (apply Forall_cons; [simpl; auto 25|]); apply Forall_nil.
Qed.

(** What spells letters of the pattern holds no white space. *)
Lemma same_no_space (p : string) (u : text) :
  Forall (fun c => In c (literals ParserUtils.suffix_pattern))
         (list_ascii_of_string p) ->
  Spec.same_ignoring_case T p u = true ->
  existsb (isspace T) u = false.
Proof.
  revert u. induction p as [|c p IH]; intros u Hp H.
  - destruct u; [reflexivity|discriminate].
  - destruct u as [|d u]; [discriminate|].
    cbn [Spec.same_ignoring_case] in H. apply andb_true_iff in H.
    destruct H as [Hc Hu]. cbn [list_ascii_of_string] in Hp.
    inversion Hp as [|? ? Hin Hrest]; subst.
    cbn [existsb]. rewrite (IH u Hrest Hu), orb_false_r.
    destruct (isspace T d) eqn:Hd; [|reflexivity].
    rewrite (no_space_letter c d Hin Hd) in Hc. discriminate.
Qed.

(** A suffix token is not empty and holds no white space. *)
Lemma suffix_token_shape (tok : text) :
  Spec.is_suffix_token T tok = true ->
  tok <> [] /\ existsb (isspace T) tok = false.
Proof.
  unfold Spec.is_suffix_token. intro H.
  apply existsb_exists in H. destruct H as (p & Hin & He).
  destruct (token_letters p Hin) as [Hne Hl]. split.
  - intros ->. destruct p; [congruence|discriminate].
  - apply (same_no_space p tok Hl He).
Qed.

Lemma text_suffix_tail_not_space (d : N) (u : text) :
  isspace T d = true -> match_here T ParserUtils.suffix_tail (d :: u) = None.
Proof.
  intro Hd.
  destruct (match_here T ParserUtils.suffix_tail (d :: u)) as [r|] eqn:H;
    [|reflexivity].
  exfalso. apply text_suffix_tail_sound in H.
  destruct H as (p & v & Hp & Hv & _).
  apply strip_prefix_split in Hv. destruct Hv as (u1 & Hu & Hs).
  destruct (word_tokens p Hp) as [Hin _].
  destruct (token_letters p Hin) as [Hne Hl].
  pose proof (same_no_space p u1 Hl Hs) as Hn.
  destruct u1 as [|e u1].
  - destruct p; [congruence|discriminate].
  - cbn [List.app] in Hu. injection Hu as <- _.
    cbn [existsb] in Hn. rewrite Hd in Hn. discriminate.
Qed.

(** The whole pattern at the head of a text: white space, then the tail
    of the pattern on what follows the white space. *)
Lemma text_match_here_suffix_pattern (c : N) (t : text) :
  match_here T ParserUtils.suffix_pattern (c :: t)
  = if isspace T c then match_here T ParserUtils.suffix_tail (lstrip T t)
    else None.
Proof.
  unfold match_here, ParserUtils.suffix_pattern.
  change (matches T (Seq PlusSpace ParserUtils.suffix_tail) (c :: t) Some)
    with (plus_space T (c :: t)
            (fun s' => matches T ParserUtils.suffix_tail s' Some)).
  destruct (isspace T c) eqn:Hc.
  - apply (text_plus_space_lstrip
             (fun s' => matches T ParserUtils.suffix_tail s' Some)).
    + intros d u Hd. apply (text_suffix_tail_not_space d u Hd).
    + exact Hc.
  - cbn [plus_space]. rewrite Hc. reflexivity.
Qed.

(** An alternative succeeds when one of its branches does. *)
Lemma text_alt_succeeds (a b : regex) (u : text) (k : text -> option text) :
  matches T a u k <> None \/ matches T b u k <> None ->
  matches T (Alt a b) u k <> None.
Proof.
  cbn [matches]. destruct (matches T a u k); [discriminate|].
  intros [H|H]; [congruence|exact H].
Qed.

Lemma text_dotted_succeeds (p q : string) (u : text) :
  In q [""; "."] ->
  Spec.same_ignoring_case T (p ++ q) u = true ->
  matches T (ParserUtils.dotted p) u (at_end T) <> None.
Proof.
  intros Hq H. apply same_ignoring_case_split in H.
  destruct H as (u1 & v & -> & Hu & Hv).
  rewrite text_dotted_end, (strip_prefix_same p u1 v Hu).
  simpl in Hq. destruct Hq as [<-|[<-|[]]].
  - destruct v; [|discriminate]. cbn. discriminate.
  - destruct v as [|d v]; [discriminate|].
    cbn [Spec.same_ignoring_case] in Hv. apply andb_true_iff in Hv.
    destruct Hv as [Hd Hv]. destruct v; [|discriminate].
    unfold at_end. cbn [matches]. rewrite Hd. discriminate.
Qed.

(** A suffix token is matched by the tail of the pattern. *)
Lemma text_suffix_tail_complete (u : text) :
  Spec.is_suffix_token T u = true ->
  match_here T ParserUtils.suffix_tail u <> None.
Proof.
  unfold Spec.is_suffix_token. intro H.
  apply existsb_exists in H. destruct H as (tok & Hin & He).
  destruct (token_words tok Hin) as (p & q & Hp & Hq & ->).
  change (matches T ParserUtils.suffix_words u (at_end T) <> None).
  unfold ParserUtils.suffix_words.
  pose proof (text_dotted_succeeds p q u Hq He) as Hd.
  simpl in Hp. destruct Hp as [<-|[<-|[<-|[<-|[]]]]].
  - apply text_alt_succeeds. left. exact Hd.
  - apply text_alt_succeeds. right.
    apply text_alt_succeeds. left. exact Hd.
  - apply text_alt_succeeds. right. apply text_alt_succeeds. right.
    apply text_alt_succeeds. left. exact Hd.
  - apply text_alt_succeeds. right. apply text_alt_succeeds. right.
    apply text_alt_succeeds. right. exact Hd.
Qed.

Lemma text_rstrip_tail (c : N) (t : text) :
  rstrip T (c :: t) = c :: t -> t <> [] -> rstrip T t = t.
Proof.
  cbn [rstrip]. intros H Ht.
  destruct (rstrip T t) as [|d r] eqn:Hr.
  - destruct (isspace T c); [discriminate|]. injection H as H. congruence.
  - injection H as H. exact H.
Qed.

Lemma text_rstrip_single (c : N) :
  rstrip T [c] = [c] -> isspace T c = false.
Proof. cbn [rstrip]. destruct (isspace T c); [discriminate|reflexivity]. Qed.

(** A text that trimming on the right leaves alone does not end in white
    space. *)
Lemma text_rstrip_fixed_last (x : text) (c : N) :
  rstrip T (List.app x [c]) = List.app x [c] -> isspace T c = false.
Proof.
  induction x as [|d x IH]; intro H.
  - apply text_rstrip_single. exact H.
  - apply IH. apply (text_rstrip_tail d); [exact H|].
    destruct x; discriminate.
Qed.

Lemma text_suffix_tail_sound_token (u r : text) :
  rstrip T u = u ->
  match_here T ParserUtils.suffix_tail u = Some r ->
  r = [] /\ Spec.is_suffix_token T u = true.
Proof.
  intros Hu H. apply text_suffix_tail_sound in H.
  destruct H as (p & v & Hp & Hv & Ht).
  apply strip_prefix_split in Hv. destruct Hv as (u1 & -> & Hl).
  destruct (word_tokens p Hp) as [Hin Hdot].
  apply text_dot_end_cases in Ht.
  destruct Ht as [(-> & Hv)|[(-> & Hv)|(x & ->)]].
  - split; [reflexivity|]. unfold Spec.is_suffix_token.
    apply existsb_exists. exists p. split; [exact Hin|].
    destruct v; [|discriminate]. rewrite app_nil_r. exact Hl.
  - split; [reflexivity|]. unfold Spec.is_suffix_token.
    apply existsb_exists. exists (p ++ "."). split; [exact Hdot|].
    apply same_ignoring_case_app; assumption.
  - exfalso. rewrite app_assoc in Hu.
    apply text_rstrip_fixed_last in Hu.
    congruence.
Qed.

(** On a text that does not end in white space the tail of the pattern
    matches exactly the suffix tokens. *)
Lemma text_suffix_tail_spec (u : text) :
  rstrip T u = u ->
  match_here T ParserUtils.suffix_tail u
  = if Spec.is_suffix_token T u then Some [] else None.
Proof.
  intro Hu. destruct (Spec.is_suffix_token T u) eqn:Hl.
  - pose proof (text_suffix_tail_complete u Hl) as Hc.
    destruct (match_here T ParserUtils.suffix_tail u) as [r|] eqn:H;
      [|congruence].
    destruct (text_suffix_tail_sound_token u r Hu H) as [-> _]. reflexivity.
  - destruct (match_here T ParserUtils.suffix_tail u) as [r|] eqn:H;
      [|reflexivity].
    destruct (text_suffix_tail_sound_token u r Hu H) as [_ Hc]. congruence.
Qed.

Lemma text_rstrip_fixed_lstrip (t : text) :
  rstrip T t = t -> rstrip T (lstrip T t) = lstrip T t.
Proof.
  induction t as [|c t IH]; intro H; [reflexivity|].
  cbn [lstrip]. destruct (isspace T c) eqn:Hc; [|exact H].
  destruct t as [|d t].
  - apply text_rstrip_single in H. congruence.
  - apply IH. apply (text_rstrip_tail c); [exact H|discriminate].
Qed.

Lemma text_rstrip_idem (s : text) : rstrip T (rstrip T s) = rstrip T s.
Proof.
  induction s as [|c s IH]; [reflexivity|].
  cbn [rstrip]. destruct (rstrip T s) as [|d r] eqn:Hr.
  - destruct (isspace T c) eqn:Hc; [reflexivity|].
    cbn [rstrip]. rewrite Hc. reflexivity.
  - cbn [rstrip] in *. rewrite IH. reflexivity.
Qed.

Lemma text_rstrip_strip (s : text) : rstrip T (strip T s) = strip T s.
Proof. unfold strip. apply text_rstrip_fixed_lstrip. apply text_rstrip_idem. Qed.

Lemma text_sub_from_pass (r : regex) (t : text) (k : nat) :
  List.length t <= k -> sub_from T r k t = [].
Proof.
  revert k. induction t as [|c t IH]; intros k H; [reflexivity|].
  destruct k as [|k]; simpl in H; [lia|]. cbn [sub_from]. apply IH. lia.
Qed.

(** [re.sub] with the suffix pattern, one character at a time, on a text
    that does not end in white space. *)
Lemma text_sub_suffix_cons (c : N) (t : text) :
  rstrip T (c :: t) = c :: t ->
  sub_empty T ParserUtils.suffix_pattern (c :: t)
  = if isspace T c && Spec.is_suffix_token T (lstrip T t) then []
    else c :: sub_empty T ParserUtils.suffix_pattern t.
Proof.
  intro H. unfold sub_empty. cbn [sub_from].
  rewrite text_match_here_suffix_pattern.
  destruct (isspace T c) eqn:Hc; cbn [andb]; [|reflexivity].
  destruct t as [|d t]; [apply text_rstrip_single in H; congruence|].
  assert (Ht : rstrip T (d :: t) = d :: t)
    by (apply (text_rstrip_tail c); [exact H|discriminate]).
  rewrite (text_suffix_tail_spec _ (text_rstrip_fixed_lstrip _ Ht)).
  destruct (Spec.is_suffix_token T (lstrip T (d :: t))); [|reflexivity].
  apply text_sub_from_pass. simpl. lia.
Qed.

Lemma text_lstrip_no_space (x : text) :
  existsb (isspace T) x = false -> lstrip T x = x.
Proof.
  destruct x as [|c x]; [reflexivity|]. cbn [existsb lstrip]. intro H.
  apply orb_false_iff in H. destruct H as [-> _]. reflexivity.
Qed.

Lemma text_lstrip_all_space (ws x : text) :
  forallb (isspace T) ws = true -> lstrip T (List.app ws x) = lstrip T x.
Proof.
  induction ws as [|c ws IH]; [reflexivity|]. cbn [forallb]. intro H.
  apply andb_true_iff in H. destruct H as [Hc Hw].
  cbn [List.app lstrip]. rewrite Hc. apply IH. exact Hw.
Qed.

Lemma text_lstrip_split (t : text) :
  exists sp, t = List.app sp (lstrip T t) /\ forallb (isspace T) sp = true.
Proof.
  induction t as [|c t (sp & Ht & Hs)].
  - exists []. split; reflexivity.
  - cbn [lstrip]. destruct (isspace T c) eqn:Hc.
    + exists (c :: sp). split.
      * cbn [List.app]. f_equal. exact Ht.
      * cbn [forallb]. rewrite Hc, Hs. reflexivity.
    + exists []. split; reflexivity.
Qed.

Lemma text_rstrip_no_space (x : text) :
  existsb (isspace T) x = false -> rstrip T x = x.
Proof.
  induction x as [|c x IH]; [reflexivity|]. cbn [existsb rstrip]. intro H.
  apply orb_false_iff in H. destruct H as [Hc Hx].
  rewrite (IH Hx). destruct x; [rewrite Hc|]; reflexivity.
Qed.

Lemma text_rstrip_app_fixed (x y : text) :
  y <> [] -> rstrip T y = y -> rstrip T (List.app x y) = List.app x y.
Proof.
  intros Hy Hr. induction x as [|c x IH]; [exact Hr|].
  cbn [List.app rstrip]. rewrite IH.
  destruct (List.app x y) eqn:He; [|reflexivity].
  destruct x; simpl in He; [congruence|discriminate].
Qed.

Lemma text_rstrip_cons_fixed (c : N) (base : text) :
  base <> [] -> rstrip T base = base -> rstrip T (c :: base) = c :: base.
Proof. intros Hb Hr. apply (text_rstrip_app_fixed [c] base Hb Hr). Qed.

(** After a text that does not end in white space, white space and more
    text leave white space inside what [lstrip] returns. *)
Lemma text_space_stays_inside (base ws rest : text) :
  rstrip T base = base -> base <> [] ->
  ws <> [] -> forallb (isspace T) ws = true ->
  existsb (isspace T) (lstrip T (List.app base (List.app ws rest))) = true.
Proof.
  intros Hb Hne Hw Hs. induction base as [|d base IH]; [congruence|].
  cbn [List.app lstrip]. destruct (isspace T d) eqn:Hd.
  - destruct base as [|e base]; [apply text_rstrip_single in Hb; congruence|].
    apply IH; [|discriminate].
    apply (text_rstrip_tail d); [exact Hb|discriminate].
  - cbn [existsb]. rewrite Hd, !existsb_app.
    destruct ws as [|w ws]; [congruence|]. cbn [forallb] in Hs.
    apply andb_true_iff in Hs. destruct Hs as [Hw1 _].
    cbn [existsb]. rewrite Hw1. cbn [orb]. rewrite orb_true_r. reflexivity.
Qed.

(** A trailing suffix token and the white space before it are removed. *)
Lemma text_sub_strips_suffix (base ws tok : text) :
  ws <> [] -> forallb (isspace T) ws = true ->
  Spec.is_suffix_token T tok = true -> rstrip T base = base ->
  sub_empty T ParserUtils.suffix_pattern (List.app base (List.app ws tok)) = base.
Proof.
  intros Hw Hs Hl Hb.
  destruct (suffix_token_shape tok Hl) as [Hne Hns].
  assert (Hfix : forall x, rstrip T (List.app x (List.app ws tok))
                           = List.app x (List.app ws tok)).
  { intro x. rewrite app_assoc.
    apply text_rstrip_app_fixed; [exact Hne|apply text_rstrip_no_space; exact Hns]. }
  induction base as [|b base IH].
  - destruct ws as [|c ws]; [congruence|]. cbn [forallb] in Hs.
    apply andb_true_iff in Hs. destruct Hs as [Hc Hs].
    cbn [List.app]. rewrite text_sub_suffix_cons by (apply (Hfix [])).
    rewrite Hc, (text_lstrip_all_space ws tok Hs), (text_lstrip_no_space tok Hns), Hl.
    reflexivity.
  - cbn [List.app]. rewrite text_sub_suffix_cons by (apply (Hfix (b :: base))).
    assert (Hc : isspace T b
                 && Spec.is_suffix_token T (lstrip T (List.app base (List.app ws tok)))
                 = false).
    { destruct (isspace T b) eqn:Hsp; [|reflexivity]. cbn [andb].
      destruct base as [|e base]; [apply text_rstrip_single in Hb; congruence|].
      destruct (Spec.is_suffix_token T
                  (lstrip T (List.app (e :: base) (List.app ws tok)))) eqn:Hx;
        [|reflexivity].
      apply suffix_token_shape in Hx. destruct Hx as [_ Hx].
      rewrite text_space_stays_inside in Hx; try assumption; try discriminate.
      apply (text_rstrip_tail b); [exact Hb|discriminate]. }
    rewrite Hc. f_equal. apply IH.
    destruct base as [|e base]; [reflexivity|].
    apply (text_rstrip_tail b); [exact Hb|discriminate].
Qed.

Lemma ends_in_suffix_cons (c : N) (t base : text) :
  Spec.ends_in_suffix T t base ->
  exists base', Spec.ends_in_suffix T (c :: t) base'.
Proof.
  intros (ws & tok & -> & Hw & Hs & Hl & Hb).
  destruct base as [|b base].
  - destruct (isspace T c) eqn:Hc.
    + exists [], (c :: ws), tok. repeat split; try assumption.
      * discriminate.
      * cbn [forallb]. rewrite Hc. exact Hs.
    + exists [c], ws, tok. repeat split; try assumption.
      cbn [rstrip]. rewrite Hc. reflexivity.
  - exists (c :: b :: base), ws, tok. repeat split; try assumption.
    apply text_rstrip_cons_fixed; [discriminate|exact Hb].
Qed.

(** Without a trailing suffix token nothing is removed. *)
Lemma text_sub_keeps_other (t : text) :
  rstrip T t = t -> (forall base, ~ Spec.ends_in_suffix T t base) ->
  sub_empty T ParserUtils.suffix_pattern t = t.
Proof.
  induction t as [|c t IH]; intros Hr Hn; [reflexivity|].
  rewrite text_sub_suffix_cons by exact Hr.
  destruct (isspace T c && Spec.is_suffix_token T (lstrip T t)) eqn:Hc.
  - exfalso. apply andb_true_iff in Hc. destruct Hc as [Hc Hl].
    destruct (text_lstrip_split t) as (sp & Ht & Hs).
    apply (Hn []). exists (c :: sp), (lstrip T t).
    repeat split; try assumption.
    + cbn [List.app]. f_equal. exact Ht.
    + discriminate.
    + cbn [forallb]. rewrite Hc, Hs. reflexivity.
  - f_equal. destruct t as [|d t]; [reflexivity|]. apply IH.
    + apply (text_rstrip_tail c); [exact Hr|discriminate].
    + intros base Hb. destruct (ends_in_suffix_cons c _ _ Hb) as (base' & Hb').
      apply (Hn base' Hb').
Qed.

(** The two cases of [normalize_company_name]. *)
Lemma normalize_strips_suffix (s base : text) :
  Spec.ends_in_suffix T (strip T s) base ->
  normalize_company_name T s = title T base.
Proof.
  intros (ws & tok & Ht & Hw & Hs & Hl & Hb).
  unfold normalize_company_name. destruct s as [|c s].
  - exfalso. change (strip T []) with (@nil N) in Ht.
    destruct base; [destruct ws; [congruence|discriminate]|discriminate].
  - cbv zeta. rewrite Ht, text_sub_strips_suffix by assumption. reflexivity.
Qed.

Lemma normalize_keeps_other (s : text) :
  (forall base, ~ Spec.ends_in_suffix T (strip T s) base) ->
  normalize_company_name T s = title T (strip T s).
Proof.
  intro Hn. unfold normalize_company_name. destruct s as [|c s].
  - symmetry. exact title_empty.
  - cbv zeta.
    rewrite text_sub_keeps_other; [reflexivity|apply text_rstrip_strip|exact Hn].
Qed.

End CompanyNames.

(** *** Tables that extend those of ASCII *)

Section AsciiTexts.
Import Unicode.
Variable T : Tables.
Hypothesis extends : extends_ascii T.

Lemma lstrip_ascii (u : text) :
  is_ascii u -> lstrip T u = lstrip ascii_tables u /\ is_ascii (lstrip T u).
Proof.
  destruct extends as (Hsp & _). induction 1 as [|c u Hc Hu IH].
  - split; [reflexivity|constructor].
  - cbn [lstrip]. rewrite (Hsp c Hc). cbn [isspace ascii_tables].
    destruct (ascii_isspace c); [exact IH|].
    split; [reflexivity|constructor; assumption].
Qed.

Lemma rstrip_ascii (u : text) :
  is_ascii u -> rstrip T u = rstrip ascii_tables u /\ is_ascii (rstrip T u).
Proof.
  destruct extends as (Hsp & _). induction 1 as [|c u Hc Hu [IH1 IH2]].
  - split; [reflexivity|constructor].
  - cbn [rstrip]. rewrite <- IH1, (Hsp c Hc). cbn [isspace ascii_tables].
    destruct (rstrip T u) as [|d r].
    + destruct (ascii_isspace c); split; try reflexivity; repeat constructor.
      exact Hc.
    + split; [reflexivity|constructor; assumption].
Qed.

Lemma strip_ascii (u : text) :
  is_ascii u -> strip T u = strip ascii_tables u /\ is_ascii (strip T u).
Proof.
  intro H. unfold strip. destruct (rstrip_ascii u H) as [<- Hr].
  apply lstrip_ascii. exact Hr.
Qed.

Lemma plus_space_ascii (u : text) (k k' : text -> option text) :
  is_ascii u -> (forall v, is_ascii v -> k v = k' v) ->
  plus_space T u k = plus_space ascii_tables u k'.
Proof.
  destruct extends as (Hsp & _). intros Hu Hk.
  induction Hu as [|c u Hc Hu IH]; [reflexivity|].
  cbn [plus_space]. rewrite (Hsp c Hc), IH, (Hk u Hu). reflexivity.
Qed.

Lemma matches_ascii (r : regex) :
  Forall (fun c => (N_of_ascii c < 128)%N) (literals r) ->
  forall (u : text) (k k' : text -> option text),
    is_ascii u -> (forall v, is_ascii v -> k v = k' v) ->
    matches T r u k = matches ascii_tables r u k'.
Proof.
  destruct extends as (_ & Hic & _).
  induction r as [|c| |r1 IH1|r1 IH1 r2 IH2|r1 IH1 r2 IH2|];
    intros Hl u k k' Hu Hk; cbn [matches literals] in *.
  - apply Hk. exact Hu.
  - destruct Hu as [|d u Hd Hu]; [reflexivity|].
    inversion Hl as [|? ? Hc _]; subst.
    rewrite (Hic _ d Hc Hd). cbn [ignore_case_eq ascii_tables].
    rewrite (Hk u Hu). reflexivity.
  - apply plus_space_ascii; assumption.
  - rewrite (IH1 Hl u k k' Hu Hk), (Hk u Hu). reflexivity.
  - apply Forall_app in Hl. destruct Hl as [Hl1 Hl2].
    apply (IH1 Hl1); [exact Hu|]. intros v Hv. apply (IH2 Hl2); assumption.
  - apply Forall_app in Hl. destruct Hl as [Hl1 Hl2].
    rewrite (IH1 Hl1 u k k' Hu Hk), (IH2 Hl2 u k k' Hu Hk). reflexivity.
  - destruct Hu as [|d u Hd Hu]; [apply Hk; constructor|].
    destruct u as [|e u]; [|reflexivity].
    rewrite Hk by (constructor; assumption). reflexivity.
Qed.

Lemma sub_from_ascii (r : regex) (u : text) :
  Forall (fun c => (N_of_ascii c < 128)%N) (literals r) ->
  is_ascii u ->
  forall skip,
    sub_from T r skip u = sub_from ascii_tables r skip u
    /\ is_ascii (sub_from T r skip u).
Proof.
  intros Hl Hu. induction Hu as [|c u Hc Hu IH]; intro skip.
  - split; [reflexivity|constructor].
  - cbn [sub_from]. destruct skip as [|skip]; [|apply IH].
    unfold match_here.
    rewrite (matches_ascii r Hl (c :: u) Some Some)
      by (try constructor; auto).
    destruct (matches ascii_tables r (c :: u) Some) as [rest|]; [apply IH|].
    destruct (IH 0) as [<- Hs]. split; [reflexivity|constructor; assumption].
Qed.

(** On a text of the ASCII range the tables of ASCII decide the
    result. *)
Lemma normalize_company_name_ascii (s : text) :
  is_ascii s ->
  normalize_company_name T s = normalize_company_name ascii_tables s.
Proof.
  intro Hs. unfold normalize_company_name. destruct s as [|c s]; [reflexivity|].
  cbv zeta. destruct (strip_ascii (c :: s) Hs) as [<- Ht].
  assert (Hl : Forall (fun c => (N_of_ascii c < 128)%N)
                      (literals ParserUtils.suffix_pattern)).
  { cbn. repeat (apply Forall_cons; [reflexivity|]). apply Forall_nil. }
  unfold sub_empty.
  destruct (sub_from_ascii ParserUtils.suffix_pattern _ Hl Ht 0) as [<- Hr].
  destruct extends as (_ & _ & Htitle). apply Htitle. exact Hr.
Qed.

End AsciiTexts.

Lemma ascii_tables_extend : Unicode.extends_ascii Unicode.ascii_tables.
Proof. repeat split. Qed.

Lemma ascii_space_matches_no_letter :
  Unicode.space_matches_no_letter Unicode.ascii_tables.
Proof.
  intros c d Hc Hd. cbn [Unicode.isspace Unicode.ignore_case_eq
                           Unicode.ascii_tables] in *.
  assert (Hr : (9 <= d <= 32)%N).
  { unfold Unicode.ascii_isspace, Unicode.between in Hd.
    apply orb_true_iff in Hd.
    destruct Hd as [Hd|Hd]; apply andb_true_iff in Hd; destruct Hd as [H1 H2];
      apply N.leb_le in H1, H2; lia. }
  assert (Hd' : Unicode.ascii_lower d = d).
  { unfold Unicode.ascii_lower, Unicode.between.
    destruct (N.leb_spec 65 d); [lia|reflexivity]. }
  rewrite Hd'. apply N.eqb_neq.
  cbn in Hc.
  repeat (destruct Hc as [<-|Hc]; [vm_compute; lia|]). destruct Hc.
Qed.

(** C8: over Python text, with any character tables that extend those of
    ASCII and in which no white space matches a character of the
    pattern: with [t] the name trimmed of surrounding white space, when
    [t] is some [base] (not ending in white space), then white space,
    then one of inc, ltd, corp, co spelt in any case, with or without a
    final period, the result is [base] in title case; when [t] has no
    such ending the result is [t] in title case.  So ["  Acme Corp. "]
    gives ["Acme"] and ["OpenAI"] gives ["Openai"]. *)
Theorem normalize_company_name_spec (T : Unicode.Tables) (s : Unicode.text) :
  Unicode.extends_ascii T ->
  Unicode.space_matches_no_letter T ->
  let t := Unicode.strip T s in
  (forall base, Spec.ends_in_suffix T t base ->
     Unicode.normalize_company_name T s = Unicode.title T base)
  /\ ((forall base, ~ Spec.ends_in_suffix T t base) ->
      Unicode.normalize_company_name T s = Unicode.title T t)
  /\ Unicode.normalize_company_name T (Unicode.codes "  Acme Corp. ")
     = Unicode.codes "Acme"
  /\ Unicode.normalize_company_name T (Unicode.codes "OpenAI")
     = Unicode.codes "Openai".
Proof.
  intros Hext Hsp t. subst t.
  assert (Hlf : Unicode.isspace T Unicode.line_feed = true).
  { destruct Hext as (H & _). rewrite H; reflexivity. }
  assert (Hte : Unicode.title T [] = []).
  { destruct Hext as (_ & _ & H). apply H. constructor. }
  split; [|split; [|split]].
  - intros base Hb. apply (normalize_strips_suffix T Hlf Hsp s base Hb).
  - intro Hn. apply (normalize_keeps_other T Hlf Hsp Hte s Hn).
  - rewrite (normalize_company_name_ascii T Hext).
    + reflexivity.
    + unfold Unicode.is_ascii.
      repeat (apply Forall_cons; [reflexivity|]). apply Forall_nil.
  - rewrite (normalize_company_name_ascii T Hext).
    + reflexivity.
    + unfold Unicode.is_ascii.
      repeat (apply Forall_cons; [reflexivity|]). apply Forall_nil.
Qed.

Lemma normalize_company_name_spec_witness :
  Unicode.normalize_company_name Unicode.ascii_tables
    (Unicode.codes "  Acme Corp. ")
  = Unicode.title Unicode.ascii_tables (Unicode.codes "Acme").
Proof.
  apply (proj1 (normalize_company_name_spec Unicode.ascii_tables
                  (Unicode.codes "  Acme Corp. ")
                  ascii_tables_extend ascii_space_matches_no_letter)
               (Unicode.codes "Acme")).
  exists (Unicode.codes " "), (Unicode.codes "Corp.").
  repeat split; try reflexivity. discriminate.
Defined.

(** A token spelt with a character beyond ASCII: where the tables match
    the dotless i (code point 305) to the [i] of the pattern, as those of
    CPython do, "Acme ınc" loses its suffix. *)
Lemma dotless_i_suffix (T : Unicode.Tables) :
  Unicode.extends_ascii T ->
  Unicode.space_matches_no_letter T ->
  Unicode.ignore_case_eq T 105 305 = true ->
  Unicode.normalize_company_name T
    (List.app (Unicode.codes "Acme ") (305%N :: Unicode.codes "nc"))
  = Unicode.title T (Unicode.codes "Acme").
Proof.
  intros Hext Hsp Hi. pose proof Hext as (Hspace & Hcase & _).
  assert (Hlf : Unicode.isspace T Unicode.line_feed = true)
    by (rewrite Hspace; reflexivity).
  apply (normalize_strips_suffix T Hlf Hsp).
  exists (Unicode.codes " "), (305%N :: Unicode.codes "nc").
  assert (H65 : Unicode.isspace T 65 = false) by (rewrite Hspace; reflexivity).
  assert (H99 : Unicode.isspace T 99 = false) by (rewrite Hspace; reflexivity).
  assert (H101 : Unicode.isspace T 101 = false) by (rewrite Hspace; reflexivity).
  assert (H32 : Unicode.isspace T 32 = true) by (rewrite Hspace; reflexivity).
  split; [|split; [discriminate|split; [|split]]].
  - unfold Unicode.strip. cbn [Unicode.codes list_ascii_of_string map
                                 N_of_ascii N_of_digits List.app Unicode.rstrip].
    cbn. rewrite H99. cbn. rewrite H65. reflexivity.
  - cbn. rewrite H32. reflexivity.
  - unfold Spec.is_suffix_token. cbn [Spec.legal_suffix_tokens existsb].
    cbn [Spec.same_ignoring_case Unicode.codes list_ascii_of_string map].
    change (N_of_ascii "i") with 105%N. rewrite Hi.
    rewrite !Hcase by reflexivity. reflexivity.
  - cbn. rewrite H101. reflexivity.
Qed.

(** White space beyond ASCII: where the no-break space (code point 160)
    is white space, as in CPython, it separates the token like a
    blank. *)
Lemma no_break_space_suffix (T : Unicode.Tables) :
  Unicode.extends_ascii T ->
  Unicode.space_matches_no_letter T ->
  Unicode.isspace T 160 = true ->
  Unicode.normalize_company_name T
    (List.app (Unicode.codes "Acme") (160%N :: Unicode.codes "Inc"))
  = Unicode.title T (Unicode.codes "Acme").
Proof.
  intros Hext Hsp H160. pose proof Hext as (Hspace & Hcase & _).
  assert (Hlf : Unicode.isspace T Unicode.line_feed = true)
    by (rewrite Hspace; reflexivity).
  apply (normalize_strips_suffix T Hlf Hsp).
  exists [160%N], (Unicode.codes "Inc").
  assert (H65 : Unicode.isspace T 65 = false) by (rewrite Hspace; reflexivity).
  assert (H99 : Unicode.isspace T 99 = false) by (rewrite Hspace; reflexivity).
  assert (H101 : Unicode.isspace T 101 = false) by (rewrite Hspace; reflexivity).
  split; [|split; [discriminate|split; [|split]]].
  - unfold Unicode.strip. cbn. rewrite H99. cbn. rewrite H65. reflexivity.
  - cbn. rewrite H160. reflexivity.
  - unfold Spec.is_suffix_token. cbn [Spec.legal_suffix_tokens existsb].
    cbn [Spec.same_ignoring_case Unicode.codes list_ascii_of_string map].
    rewrite !Hcase by reflexivity. reflexivity.
  - cbn. rewrite H101. reflexivity.
Qed.

(* ================================================================== *)
(** ** Further properties of the adapters and of the aggregator *)
(* ================================================================== *)

(** *** The request wrappers *)

(** X1: [_safe_get] and [_safe_post] make at most two attempts: the
    answer is that of the first attempt when it succeeds and that of the
    second otherwise, so it is [None] exactly when both fail, and no later
    attempt is ever looked at. *)
Theorem safe_request_two_attempts {R : Type} (send : nat -> option R) :
  (forall r, send 0 = Some r -> _safe_get send = Some r)
  /\ (send 0 = None -> _safe_get send = send 1)
  /\ (_safe_get send = None <-> send 0 = None /\ send 1 = None)
  /\ (forall send' : nat -> option R,
        send' 0 = send 0 -> send' 1 = send 1 -> _safe_get send' = _safe_get send)
  /\ _safe_post send = _safe_get send.
Proof.
  unfold _safe_get, _safe_post, retry_loop, RETRY_COUNT. cbn [Nat.ltb Nat.leb Nat.sub].
  repeat split.
  - intros r H. rewrite H. reflexivity.
  - intro H. rewrite H. destruct (send 1); reflexivity.
  - destruct (send 0); [discriminate|]. destruct (send 1); [discriminate|reflexivity].
  - destruct (send 0); [discriminate|]. destruct (send 1); [discriminate|reflexivity].
  - intros [H0 H1]. rewrite H0, H1. reflexivity.
  - intros send' H0 H1. rewrite H0, H1. reflexivity.
Qed.

Lemma safe_request_two_attempts_witness :
  _safe_get (fun n => if Nat.eqb n 1 then Some 7 else None) = Some 7.
Proof.
  exact (proj1 (proj2 (safe_request_two_attempts
                         (fun n => if Nat.eqb n 1 then Some 7 else None)))
               eq_refl).
Defined.

(** *** Serper results *)

Lemma rstrip_cons_nonspace (c : ascii) (t : string) :
  isspace c = false -> rstrip (String c t) = String c (rstrip t).
Proof.
  intro Hc. unfold rstrip. cbn [rstrip_by].
  destruct (rstrip_by isspace t); [rewrite Hc|]; reflexivity.
Qed.

Lemma startswith_http_strip (s : string) :
  startswith "http" s = true -> startswith "http" (strip s) = true.
Proof.
  intro H.
  destruct s as [|c1 [|c2 [|c3 [|c4 s]]]]; cbn [startswith] in H;
    rewrite ?andb_false_r in H; try discriminate H.
  rewrite andb_true_r in H.
  apply andb_true_iff in H. destruct H as [H1 H].
  apply andb_true_iff in H. destruct H as [H2 H].
  apply andb_true_iff in H. destruct H as [H3 H4].
  apply Ascii.eqb_eq in H1, H2, H3, H4. subst c1 c2 c3 c4.
  unfold strip. rewrite !rstrip_cons_nonspace by reflexivity. reflexivity.
Qed.

Lemma serper_item_source (item : SerperItem) :
  ci_source (serper_item item) = EmptyString
  \/ startswith "http" (ci_source (serper_item item)) = true.
Proof.
  unfold serper_item. cbv zeta. cbn [ci_source].
  set (link := or_else (si_link item) (or_else (si_url item) (si_source item))).
  destruct link as [|c l] eqn:Hl.
  - left. reflexivity.
  - cbn [truthy andb]. destruct (startswith "http" (String c l)) eqn:Hs; cbn [negb].
    + right. apply startswith_http_strip. exact Hs.
    + right. apply startswith_http_strip. reflexivity.
Qed.

Lemma strip_idem (s : string) : strip (strip s) = strip s.
Proof.
  unfold strip at 1. rewrite rstrip_strip. unfold strip, lstrip.
  induction (rstrip s) as [|c t IH]; [reflexivity|].
  cbn [lstrip_by]. destruct (isspace c) eqn:Hc; [exact IH|].
  cbn [lstrip_by]. rewrite Hc. reflexivity.
Qed.

Lemma fetch_serper_organic_items (w : World) (query : string) (num : Z) :
  Forall (fun item =>
            strip (ci_title item) = ci_title item
            /\ strip (ci_content item) = ci_content item
            /\ strip (ci_source item) = ci_source item
            /\ (ci_source item = EmptyString
                \/ startswith "http" (ci_source item) = true))
         (_fetch_serper_organic w query num)
  /\ (SERPER_API_KEY w = EmptyString -> _fetch_serper_organic w query num = []).
Proof.
  split.
  - unfold _fetch_serper_organic.
    destruct (truthy (SERPER_API_KEY w)); cbn [negb]; [|constructor].
    destruct (_safe_post (post_serper w query num)) as [[data|]|];
      try constructor.
    cbv zeta. apply Forall_forall. intros item Hin.
    apply in_map_iff in Hin. destruct Hin as (raw & <- & _).
    split; [|split; [|split]]; try apply serper_item_source;
      unfold serper_item; cbv zeta; cbn [ci_title ci_content ci_source];
      apply strip_idem.
  - intro Hk. unfold _fetch_serper_organic. rewrite Hk. reflexivity.
Qed.


(** X2: every result of the organic search is normalised: its title,
    snippet and link are trimmed, and its link is empty or begins with
    [http].  A link that is not empty and does not begin with [http] loses
    its leading slashes and gets [https://] in front; any other link
    (also a bare domain that happens to begin with [http]) is only
    trimmed.  Without an API key there is no result; with one, an answered
    request gives one item for each organic result, in order. *)
Theorem fetch_serper_organic_normalised (w : World) (query : string) (num : Z) :
  Forall (fun item =>
            strip (ci_title item) = ci_title item
            /\ strip (ci_content item) = ci_content item
            /\ strip (ci_source item) = ci_source item
            /\ (ci_source item = EmptyString
                \/ startswith "http" (ci_source item) = true))
         (_fetch_serper_organic w query num)
  /\ (SERPER_API_KEY w = EmptyString -> _fetch_serper_organic w query num = [])
  /\ (forall data,
        SERPER_API_KEY w <> EmptyString ->
        _safe_post (post_serper w query num) = Some (Some data) ->
        _fetch_serper_organic w query num
        = map serper_item
            (or_list (sd_organic data)
                     (or_list (sd_results data) (sd_organic_results data))))
  /\ (forall item,
        let link := or_else (si_link item) (or_else (si_url item) (si_source item)) in
        (link <> EmptyString -> startswith "http" link = false ->
         ci_source (serper_item item)
         = strip ("https://" ++ lstrip_by (Ascii.eqb "/") link))
        /\ (link = EmptyString \/ startswith "http" link = true ->
            ci_source (serper_item item) = strip link)).
Proof.
  split; [apply fetch_serper_organic_items|].
  split; [apply fetch_serper_organic_items|]. split.
  - intros data Hk Hp. unfold _fetch_serper_organic.
    apply truthy_true_iff in Hk. rewrite Hk, Hp. reflexivity.
  - intro item. cbv zeta. unfold serper_item. cbv zeta. cbn [ci_source].
    set (link := or_else (si_link item) (or_else (si_url item) (si_source item))).
    split.
    + intros Hne Hs. apply truthy_true_iff in Hne. rewrite Hne, Hs. reflexivity.
    + intros [He|Hs].
      * rewrite He. reflexivity.
      * rewrite Hs, andb_false_r. reflexivity.
Qed.

Lemma fetch_serper_organic_normalised_witness :
  _fetch_serper_organic Examples.serper_world "acme" 2
  = [mkContextItem "Acme" "Tools" "https://acme.io/about"].
Proof.
  rewrite (proj1 (proj2 (proj2 (fetch_serper_organic_normalised
             Examples.serper_world "acme" 2)))
             (mkSerperData
                [mkSerperItem " Acme " EmptyString "Tools " EmptyString EmptyString
                              "//acme.io/about" EmptyString EmptyString] [] [])).
  - reflexivity.
  - discriminate.
  - reflexivity.
Defined.

(** *** The brand lookup *)

Lemma fetch_brandfetch_data_no_key (w : World) (domain : string) :
  BRANDFETCH_API_KEY w = EmptyString -> fetch_brandfetch_data w domain = [].
Proof.
  intro Hk. unfold fetch_brandfetch_data. rewrite Hk.
  destruct (truthy domain); reflexivity.
Qed.

Lemma try_variations_no_key (w : World) (clean : string) (variations : list string) :
  BRANDFETCH_API_KEY w = EmptyString ->
  try_variations w clean variations [] = [].
Proof.
  intro Hk. induction variations as [|v rest IH]; [reflexivity|].
  cbn [try_variations]. rewrite (fetch_brandfetch_data_no_key w v Hk).
  destruct (negb (String.eqb v clean)); exact IH.
Qed.

(** X3: the brand lookup answers with the empty dictionary or with a
    dictionary of exactly a logo and a non-empty name (the provider's
    name, else the domain asked for); it answers with the empty dictionary
    when the domain is empty and when no API key is configured. *)
Theorem brand_lookup_answer (w : World) (domain : string) :
  (fetch_brandfetch_data_enhanced w domain = []
   \/ exists logo_url name,
        fetch_brandfetch_data_enhanced w domain
        = [("logo", logo_url); ("name", name)]
        /\ name <> EmptyString)
  /\ (domain = EmptyString \/ BRANDFETCH_API_KEY w = EmptyString ->
      fetch_brandfetch_data_enhanced w domain = []).
Proof.
  split; [apply fetch_brandfetch_data_enhanced_shape|].
  intros [Hd|Hk]; unfold fetch_brandfetch_data_enhanced.
  - rewrite Hd. reflexivity.
  - destruct (truthy domain); cbn [negb]; [|reflexivity]. cbv zeta.
    rewrite (fetch_brandfetch_data_no_key w _ Hk).
    match goal with |- context [if ?c then _ else _] => destruct c end;
      [apply try_variations_no_key; exact Hk|reflexivity].
Qed.

Lemma brand_lookup_answer_witness :
  fetch_brandfetch_data_enhanced Examples.silent "acme.io" = [].
Proof.
  apply (proj2 (brand_lookup_answer Examples.silent "acme.io")).
  right. reflexivity.
Defined.

(** *** The news adapter *)

Lemma news_article_titles (a : NewsItem) :
  Forall (fun art => a_title art <> EmptyString) (news_article a)
  /\ List.length (news_article a) <= 1.
Proof.
  unfold news_article. cbv zeta.
  destruct (truthy (or_else (ni_title a) (or_else (ni_headline a) EmptyString)))
    eqn:Ht.
  - split; [|simpl; lia]. constructor; [|constructor].
    simpl. apply truthy_true_iff. exact Ht.
  - split; [constructor|simpl; lia].
Qed.

Lemma flat_map_news_length (l : list NewsItem) :
  List.length (flat_map news_article l) <= List.length l.
Proof.
  induction l as [|a l IH]; [simpl; lia|].
  cbn [flat_map]. rewrite length_app.
  destruct (news_article_titles a) as [_ H]. simpl. lia.
Qed.

(** X4: the news adapter returns only articles with a non-empty title,
    at most [limit] of them when [limit] is not negative, and none
    without an API key. *)
Theorem fetch_news_articles_bounds (w : World) (name : string) (limit : Z) :
  Forall (fun art => a_title art <> EmptyString) (fetch_news_articles w name limit)
  /\ ((0 <= limit)%Z ->
      (Z.of_nat (List.length (fetch_news_articles w name limit)) <= limit)%Z)
  /\ (NEWSDATA_API_KEY w = EmptyString -> fetch_news_articles w name limit = []).
Proof.
  unfold fetch_news_articles. repeat split.
  - destruct (truthy (NEWSDATA_API_KEY w)); cbn [negb]; [|constructor].
    destruct (_safe_get (get_news w (news_query name))) as [[data|]|];
      try constructor.
    cbv zeta. apply Forall_forall. intros art Hin.
    apply in_flat_map in Hin. destruct Hin as (a & _ & Hin).
    destruct (news_article_titles a) as [Hf _].
    rewrite Forall_forall in Hf. apply Hf. exact Hin.
  - intro Hl.
    destruct (truthy (NEWSDATA_API_KEY w)); cbn [negb]; [|simpl; lia].
    destruct (_safe_get (get_news w (news_query name))) as [[data|]|];
      try (simpl; lia).
    cbv zeta.
    match goal with |- context [slice_to limit ?l] =>
      destruct (slice_to_firstn limit l) as (n & Hn & Hlim);
      pose proof (flat_map_news_length (slice_to limit l)) as Hf;
      rewrite Hn in *; rewrite (Hlim Hl) in *;
      pose proof (firstn_le_length (Z.to_nat limit) l)
    end.
    lia.
  - intro Hk. rewrite Hk. reflexivity.
Qed.

Lemma fetch_news_articles_bounds_witness :
  (Z.of_nat (List.length
     (fetch_news_articles (Examples.news_world Examples.three_news) "Acme" 2))
   <= 2)%Z.
Proof.
  apply (proj1 (proj2 (fetch_news_articles_bounds
                         (Examples.news_world Examples.three_news) "Acme" 2))).
  lia.
Defined.

(** *** URLs and domains *)

(** X5: a URL that [api_helpers.is_valid_url] accepts is accepted by
    [validation.is_valid_url] too, and [api_helpers.extract_domain] gives
    it a non-empty domain; text with a slash that is no valid URL gets the
    empty domain. *)
Theorem valid_url_has_domain (s : string) :
  (ApiHelpers.is_valid_url s = true ->
   Validation.is_valid_url s = true
   /\ ApiHelpers.extract_domain s <> EmptyString)
  /\ (ApiHelpers.is_valid_url s = false -> contains "/" s = true ->
      ApiHelpers.extract_domain s = EmptyString).
Proof.
  split.
  - intro Hv. pose proof Hv as Hp.
    apply api_is_valid_url_iff in Hp. destruct Hp as (p & Hp & Hs & Hn).
    split.
    + apply validation_is_valid_url_iff. exists p. split; [exact Hp|].
      split; [|exact Hn]. destruct Hs as [Hs|Hs]; rewrite Hs; discriminate.
    + unfold ApiHelpers.extract_domain. rewrite Hv, Hp.
      destruct s; [discriminate Hv|exact Hn].
  - intros Hv Hs. unfold ApiHelpers.extract_domain. rewrite Hv, Hs.
    destruct s; reflexivity.
Qed.

Lemma valid_url_has_domain_witness :
  Validation.is_valid_url "https://acme.io/about" = true
  /\ ApiHelpers.extract_domain "https://acme.io/about" <> EmptyString.
Proof.
  apply (proj1 (valid_url_has_domain "https://acme.io/about")). reflexivity.
Defined.

(** X6: when the DuckDuckGo step of the website discovery yields nothing
    and the company name itself supplies the website (the second step),
    the website found is a valid URL: the trimmed name, or the trimmed
    name with [https://] in front. *)
Theorem website_from_name_valid (w : World) (name url : string) :
  website_from_ddg w name = None ->
  website_from_name name = Some url ->
  find_official_website w name = url
  /\ ApiHelpers.is_valid_url url = true
  /\ (url = strip name \/ url = "https://" ++ strip name)
  /\ contains "." name = true.
Proof.
  intros Hddg Hn. split.
  { unfold find_official_website. rewrite Hddg, Hn. reflexivity. }
  revert Hn. unfold website_from_name.
  destruct (contains "." name) eqn:Hd; cbn [andb]; [|discriminate].
  destruct (Nat.leb 2 (split_len "." name)); [|discriminate].
  cbv zeta.
  destruct (ApiHelpers.is_valid_url (strip name)) eqn:Hv.
  - intro H. injection H as <-. auto.
  - destruct (startswith "http" (strip name)) eqn:Hs; cbn [negb].
    + rewrite Hv. discriminate.
    + destruct (ApiHelpers.is_valid_url ("https://" ++ strip name)) eqn:Hv2;
        [|discriminate].
      intro H. injection H as <-. auto.
Qed.

Lemma website_from_name_valid_witness :
  find_official_website Examples.silent " acme.io " = "https://acme.io".
Proof.
  apply (website_from_name_valid Examples.silent " acme.io " "https://acme.io");
    reflexivity.
Defined.

(** *** The summary lookup, continued *)

Lemma scan_related_bound (indicators : list string) (related : list Topic) :
  scan_related related (Some indicators) = Some None
  \/ exists t, scan_related related (Some indicators) = Some (Some t)
               /\ t <> EmptyString
               /\ any_indicator indicators t = true.
Proof.
  induction related as [|[text result url|] rest IH]; cbn [scan_related].
  - left. reflexivity.
  - cbv zeta.
    destruct (truthy (or_else text (or_else result EmptyString))) eqn:Ht;
      [|exact IH].
    cbn [read_local bind].
    destruct (any_indicator indicators
                (or_else text (or_else result EmptyString))) eqn:Hi; [|exact IH].
    right. eexists. split; [reflexivity|]. split; [|exact Hi].
    apply truthy_true_iff. exact Ht.
  - exact IH.
Qed.

Lemma summary_of_data_filtered (data : DdgData) :
  let r := try_except (summary_of_data data) EmptyString in
  r = EmptyString
  \/ any_indicator indicator_words r = true
  \/ List.length (split_ws r) <= 20.
Proof.
  cbv zeta. unfold summary_of_data.
  set (summary := or_else (AbstractText data) (or_else (Heading data) EmptyString)).
  destruct (truthy summary) eqn:Ht.
  - cbv zeta.
    destruct (any_indicator indicator_words summary) eqn:Hi; cbn [negb andb].
    + rewrite Ht. cbn [negb]. unfold or_else. rewrite Ht.
      cbn [ret try_except]. auto.
    + destruct (Nat.ltb 20 (List.length (split_ws summary))) eqn:Hw.
      * cbn [truthy negb].
        destruct (scan_related_bound indicator_words (RelatedTopics data))
          as [H|(t & H & Hne & Hi')]; rewrite H; cbn [bind ret try_except].
        -- left. reflexivity.
        -- unfold or_else. apply truthy_true_iff in Hne. rewrite Hne. auto.
      * rewrite Ht. cbn [negb]. unfold or_else. rewrite Ht.
        cbn [ret try_except]. apply Nat.ltb_ge in Hw. auto.
  - apply truthy_false_iff in Ht. rewrite Ht. cbn [truthy negb].
    destruct (scan_related_unbound (RelatedTopics data)) as [H|H]; rewrite H;
      left; reflexivity.
Qed.

(** X7: the summary lookup never returns a text of more than 20 words
    that holds no business indicator: its result is empty, or holds an
    indicator, or has at most 20 words. *)
Theorem fetch_duckduckgo_summary_filtered (w : World) (company : string) :
  fetch_duckduckgo_summary w company = EmptyString
  \/ any_indicator indicator_words (fetch_duckduckgo_summary w company) = true
  \/ List.length (split_ws (fetch_duckduckgo_summary w company)) <= 20.
Proof.
  unfold fetch_duckduckgo_summary.
  destruct (_safe_get (get_ddg w (summary_query company) true)) as [[data|]|];
    [|left; reflexivity|left; reflexivity].
  apply summary_of_data_filtered.
Qed.

Lemma upper_c_not_lowered (c : ascii) : Ascii.eqb "C" (lower_char c) = false.
Proof. by_cases_on_char c. Qed.

Lemma contains_ceo_lower (t : string) : contains "CEO" (lower t) = false.
Proof.
  induction t as [|c t IH]; [reflexivity|].
  unfold lower in *. cbn [map_chars contains startswith].
  rewrite upper_c_not_lowered, IH. reflexivity.
Qed.

(** X8: the indicator "CEO" never counts: texts are lowered before the
    indicators are looked for, so a text passes the indicator test exactly
    when it holds one of the nine other words. *)
Theorem ceo_indicator_never_matches (t : string) :
  any_indicator ["CEO"] t = false
  /\ any_indicator indicator_words t
     = any_indicator ["company"; "startup"; "tech"; "business"; "inc"; "corp";
                      "ltd"; "founder"; "venture"] t.
Proof.
  unfold any_indicator, indicator_words. cbn [existsb].
  rewrite contains_ceo_lower. split; [reflexivity|].
  rewrite orb_false_l. reflexivity.
Qed.

(** *** The record the aggregator returns *)

Ltac decide_lists :=
  repeat match goal with
         | |- _ /\ _ => split
         | |- _ <-> _ => split
         | |- NoDup _ => constructor
         | |- ~ _ => intro
         | |- _ -> _ => intro
         end;
  simpl in *; try lia; try tauto; try congruence;
  try (intuition (try discriminate; try congruence)).

(** X9: the sources list of a run has no label twice and at most five
    labels; "Website Summary" comes only with "Website Content", and never
    together with "DuckDuckGo". *)
Theorem research_sources_consistent (w : World) (name site : string) :
  let srcs := sources_used (research_company_thoroughly w name site) in
  NoDup srcs
  /\ List.length srcs <= 5
  /\ (In "Website Summary" srcs -> In "Website Content" srcs)
  /\ ~ (In "DuckDuckGo" srcs /\ In "Website Summary" srcs).
Proof.
  cbv zeta. rewrite research_record. cbn [sources_used].
  destruct (dict_truthy _);
    destruct (truthy (Spec.website_answer w name site)) eqn:Ht;
    destruct (truthy (fetch_duckduckgo_summary w _)) eqn:Hd;
    destruct (fetch_news_articles_enhanced w _ _ 5);
    rewrite ?Hd, ?Ht; cbn [truthy]; rewrite ?Ht; decide_lists.
Qed.

Lemma research_sources_consistent_witness :
  In "Website Content"
     (sources_used (research_company_thoroughly
                      (Examples.pages_only Examples.acme_soup)
                      "Acme" "https://acme.test")).
Proof.
  apply (proj1 (proj2 (proj2 (research_sources_consistent
           (Examples.pages_only Examples.acme_soup) "Acme" "https://acme.test")))).
  vm_compute. tauto.
Defined.

(** X10: what the labels of a run mean: "AI Industry Classification" is
    recorded exactly when the summary is not empty, which is exactly when
    "DuckDuckGo" or "Website Summary" is recorded; "NewsData" is recorded
    exactly when there is news; "Brandfetch" is recorded exactly when the
    brand lookup answered; and with an empty summary the industry stays
    empty. *)
Theorem research_labels_meaning (w : World) (name site : string) :
  let r := research_company_thoroughly w name site in
  (In "AI Industry Classification" (sources_used r) <-> summary r <> EmptyString)
  /\ (summary r <> EmptyString <->
      In "DuckDuckGo" (sources_used r) \/ In "Website Summary" (sources_used r))
  /\ (In "NewsData" (sources_used r) <-> news r <> [])
  /\ (In "Brandfetch" (sources_used r) <-> Spec.brand_answer w name site <> [])
  /\ (summary r = EmptyString -> industry r = EmptyString).
Proof.
  cbv zeta. rewrite research_record.
  cbn [sources_used summary news industry].
  destruct (Spec.brand_answer w name site) as [|kv brand]; cbn [dict_truthy];
    destruct (fetch_duckduckgo_summary w _) as [|c ddg] eqn:Hd; cbn [truthy];
    destruct (Spec.website_answer w name site) as [|c' text]; cbn [truthy];
    destruct (fetch_news_articles_enhanced w _ _ 5); decide_lists.
Qed.

Lemma research_labels_meaning_witness :
  industry (research_company_thoroughly Examples.silent "Acme" EmptyString)
  = EmptyString.
Proof.
  apply (proj2 (proj2 (proj2 (proj2 (research_labels_meaning
           Examples.silent "Acme" EmptyString))))).
  reflexivity.
Defined.

Lemma enhanced_is_slice (w : World) (name domain : string) (limit : Z) :
  exists merged,
    fetch_news_articles_enhanced w name domain limit
    = slice_to limit (dedup_loop merged [] []).
Proof.
  unfold fetch_news_articles_enhanced, fetch_news_articles_enhanced_calls.
  destruct (truthy name); destruct (truthy domain && negb (contains domain name));
    cbn [snd]; eexists; reflexivity.
Qed.

(** X11: the news of a run are at most five articles, no two with the
    same lowered and trimmed title and none with an empty one. *)
Theorem research_news_bounds (w : World) (name site : string) :
  let r := research_company_thoroughly w name site in
  List.length (news r) <= 5
  /\ NoDup (map title_key (news r))
  /\ Forall (fun a => title_key a <> EmptyString) (news r).
Proof.
  cbv zeta. rewrite research_record. cbn [news].
  match goal with |- context [fetch_news_articles_enhanced w ?c ?d 5] =>
    destruct (enhanced_is_slice w c d 5) as (merged & ->) end.
  unfold slice_to. cbn [Z.leb Z.compare Z.to_nat Pos.to_nat Pos.iter_op Nat.add].
  repeat split.
  - apply firstn_le_length.
  - apply firstn_map_nodup, dedup_nodup.
  - apply Forall_forall. intros a Ha. apply firstn_in in Ha.
    apply (dedup_keys _ _ _ Ha).
Qed.

(** X12: a run keeps the input company name; it keeps a website that was
    given; the canonical name differs from the input name only when
    "Brandfetch" is recorded and is not empty unless the input name is;
    and a logo comes only with "Brandfetch". *)
Theorem research_identity_fields (w : World) (name site : string) :
  let r := research_company_thoroughly w name site in
  company_name r = name
  /\ (site <> EmptyString -> website r = site)
  /\ (canonical_name r = name \/ In "Brandfetch" (sources_used r))
  /\ (name <> EmptyString -> canonical_name r <> EmptyString)
  /\ (logo r <> EmptyString -> In "Brandfetch" (sources_used r)).
Proof.
  cbv zeta. rewrite research_record.
  cbn [company_name website canonical_name logo sources_used].
  split; [reflexivity|]. split.
  { intro Hs. unfold Spec.effective_website.
    apply truthy_true_iff in Hs. rewrite Hs. reflexivity. }
  destruct (brand_answer_shape w name site) as [Hb|(l & n & Hb & Hn)];
    rewrite Hb; cbn [dict_truthy].
  - split; [left; reflexivity|]. split; [auto|]. intro H. elim H. reflexivity.
  - split; [right; left; reflexivity|]. split; [|intros _; left; reflexivity].
    intros _. simpl. exact Hn.
Qed.

Lemma research_identity_fields_witness :
  website (research_company_thoroughly Examples.silent "Acme" "https://acme.test")
  = "https://acme.test".
Proof.
  apply (proj1 (proj2 (research_identity_fields
                         Examples.silent "Acme" "https://acme.test"))).
  discriminate.
Defined.

(** *** When no provider answers *)

Lemma safe_get_none {R : Type} (send : nat -> option R) :
  (forall n, send n = None) -> _safe_get send = None.
Proof.
  intro H. unfold _safe_get, retry_loop, RETRY_COUNT. rewrite !H. reflexivity.
Qed.

Lemma safe_post_none {R : Type} (send : nat -> option R) :
  (forall n, send n = None) -> _safe_post send = None.
Proof.
  intro H. unfold _safe_post, retry_loop, RETRY_COUNT. rewrite !H. reflexivity.
Qed.

Lemma try_variations_nothing (w : World) (clean : string) (variations : list string) :
  (forall v, fetch_brandfetch_data w v = []) ->
  try_variations w clean variations [] = [].
Proof.
  intro H. induction variations as [|v rest IH]; [reflexivity|].
  cbn [try_variations]. rewrite (H v).
  destruct (negb (String.eqb v clean)); exact IH.
Qed.

Lemma unreachable_adapters (w : World) :
  Spec.unreachable w ->
  (forall url, scrape_website_content w url = EmptyString)
  /\ (forall domain, fetch_brandfetch_data_enhanced w domain = [])
  /\ (forall company, fetch_duckduckgo_summary w company = EmptyString)
  /\ (forall name domain limit, fetch_news_articles_enhanced w name domain limit = [])
  /\ (forall name industry, fetch_strategic_context w name industry = [])
  /\ (forall name, website_from_ddg w name = None)
  /\ (forall payload, _call_groq_chat w payload = None).
Proof.
  intros (Hp & Hb & Hd & Hn & Hs & Hg).
  assert (Hbf : forall v, fetch_brandfetch_data w v = []).
  { intro v. unfold fetch_brandfetch_data.
    rewrite (safe_get_none _ (Hb v)).
    destruct (truthy v); destruct (truthy (BRANDFETCH_API_KEY w)); reflexivity. }
  assert (Hnf : forall q limit, fetch_news_articles w q limit = []).
  { intros q limit. unfold fetch_news_articles.
    rewrite (safe_get_none _ (Hn _)).
    destruct (truthy (NEWSDATA_API_KEY w)); reflexivity. }
  repeat split.
  - intro url. unfold scrape_website_content.
    rewrite (safe_get_none _ (Hp url)).
    destruct (negb (truthy url) || negb (is_valid_url url)); reflexivity.
  - intro domain. unfold fetch_brandfetch_data_enhanced.
    destruct (truthy domain); cbn [negb]; [|reflexivity]. cbv zeta.
    rewrite Hbf.
    match goal with |- context [if ?c then _ else _] => destruct c end;
      [apply try_variations_nothing; exact Hbf|reflexivity].
  - intro company. unfold fetch_duckduckgo_summary.
    rewrite (safe_get_none _ (Hd _ _)). reflexivity.
  - intros name domain limit.
    unfold fetch_news_articles_enhanced, fetch_news_articles_enhanced_calls.
    rewrite !Hnf.
    destruct (truthy name); destruct (truthy domain && negb (contains domain name));
      cbn [snd List.app dedup_loop]; unfold slice_to;
      destruct (0 <=? limit)%Z; apply firstn_nil.
  - intros name industry. unfold fetch_strategic_context, _fetch_serper_organic.
    cbv zeta. cbn [firstn flat_map].
    rewrite !(safe_post_none _ (Hs _ _)).
    destruct (truthy (SERPER_API_KEY w)); reflexivity.
  - intro name. unfold website_from_ddg.
    rewrite (safe_get_none _ (Hd _ _)). reflexivity.
  - intro payload. unfold _call_groq_chat.
    rewrite (safe_post_none _ (Hg payload)).
    destruct (truthy (GROQ_API_KEY w)); reflexivity.
Qed.

(** X13: when no provider answers, with or without API keys, a run still
    returns a record: the input name as company and canonical name, the
    website given (or, when none is given, the one the name itself
    supplies, if any), and nothing else: no summary, no news, no logo, no
    industry and no source. *)
Theorem research_when_unreachable (w : World) (name site : string) :
  Spec.unreachable w ->
  research_company_thoroughly w name site
  = mkRecord name
      (if truthy site then site
       else match website_from_name name with
            | Some url => url
            | None => EmptyString
            end)
      name EmptyString [] EmptyString EmptyString [].
Proof.
  intro Hu.
  destruct (unreachable_adapters w Hu) as (Hp & Hb & Hd & Hn & Hs & Hw & _).
  rewrite research_record.
  unfold Spec.brand_answer, Spec.website_answer.
  rewrite !Hb, !Hp, !Hd, !Hn.
  assert (He : Spec.effective_website w name site
               = if truthy site then site
                 else match website_from_name name with
                      | Some url => url
                      | None => EmptyString
                      end).
  { unfold Spec.effective_website, find_official_website.
    rewrite Hw, Hs. destruct (website_from_name name); reflexivity. }
  rewrite He.
  destruct (truthy (Spec.research_domain w name site));
    destruct (truthy (if truthy site then site
                      else match website_from_name name with
                           | Some url => url
                           | None => EmptyString
                           end)); reflexivity.
Qed.

Lemma silent_unreachable : Spec.unreachable Examples.silent.
Proof. repeat split. Qed.

Lemma research_when_unreachable_witness :
  research_company_thoroughly Examples.silent "acme.io" EmptyString
  = mkRecord "acme.io" "https://acme.io" "acme.io" EmptyString []
             EmptyString EmptyString [].
Proof.
  exact (research_when_unreachable Examples.silent "acme.io" EmptyString
           silent_unreachable).
Defined.

(** *** The language-model calls *)

(** X14: the industry classifier returns "Unknown" or the trimmed content
    of the first choice of the model's answer, so its result is always
    trimmed; without an API key it returns "Unknown". *)
Theorem infer_industry_result (w : World) (name summ : string) :
  (infer_industry w name summ = "Unknown"
   \/ exists payload raw cs,
        _call_groq_chat w payload = Some (GroqChoices (Some raw :: cs))
        /\ max_tokens payload = 30%Z /\ temperature payload = 0%Z
        /\ infer_industry w name summ = strip raw)
  /\ strip (infer_industry w name summ) = infer_industry w name summ
  /\ (GROQ_API_KEY w = EmptyString -> infer_industry w name summ = "Unknown").
Proof.
  unfold infer_industry. cbv zeta.
  match goal with |- context [_call_groq_chat w ?p] => set (payload := p) end.
  repeat split.
  - destruct (_call_groq_chat w payload) as [[| |[|[raw|] cs]]|] eqn:Hc;
      cbn [no_response bind first_content ret raise try_except]; auto.
    right. exists payload, raw, cs. auto.
  - destruct (_call_groq_chat w payload) as [[| |[|[raw|] cs]]|];
      cbn [no_response bind first_content ret raise try_except];
      try reflexivity.
    apply strip_idem.
  - intro Hk. unfold _call_groq_chat. rewrite Hk. reflexivity.
Qed.

Lemma infer_industry_result_witness :
  infer_industry Examples.silent "Acme" "Acme makes tools." = "Unknown".
Proof.
  apply (proj2 (proj2 (infer_industry_result Examples.silent "Acme"
                         "Acme makes tools."))).
  reflexivity.
Defined.

(** X15: the insight synthesizer hands on the model's content, trimmed
    and otherwise unchanged, whenever the trimmed content ends in [.], [!]
    or [?] or has at most 300 words. *)
Theorem generate_ai_insight_passes_content (w : World) (lead : EnrichedLead)
  (strategic : bool) (raw : string) (cs : list (option string)) :
  _call_groq_chat w (insight_payload w lead strategic)
  = Some (GroqChoices (Some raw :: cs)) ->
  ends_with_terminal (strip raw) = true \/ List.length (split_ws raw) <= 300 ->
  generate_ai_insight w lead strategic = strip raw.
Proof.
  intros Hr Hc. unfold generate_ai_insight. cbv zeta. rewrite Hr.
  cbv beta iota zeta
    delta [no_response try_except bind insight_of_response first_content ret].
  rewrite split_ws_strip.
  destruct Hc as [Hc|Hc].
  - rewrite Hc. cbn [negb]. rewrite andb_false_r. reflexivity.
  - apply Nat.ltb_ge in Hc. rewrite Hc, andb_false_r. reflexivity.
Qed.

Lemma generate_ai_insight_passes_content_witness :
  generate_ai_insight
    (Examples.groq_world (Some (Some (GroqChoices [Some " Acme sells tools. "]))))
    Examples.acme_lead false
  = "Acme sells tools.".
Proof.
  apply (generate_ai_insight_passes_content
           (Examples.groq_world (Some (Some (GroqChoices [Some " Acme sells tools. "]))))
           Examples.acme_lead false " Acme sells tools. " []).
  - reflexivity.
  - left. reflexivity.
Defined.

(** *** [parser_utils.py], continued *)

Lemma lower_idem (s : string) : lower (lower s) = lower s.
Proof.
  unfold lower. induction s as [|c s IH]; [reflexivity|].
  cbn [map_chars]. rewrite lower_char_idem, IH. reflexivity.
Qed.

Lemma lstrip_lower (s : string) : lstrip (lower s) = lower (lstrip s).
Proof.
  unfold lstrip, lower. induction s as [|c s IH]; [reflexivity|].
  cbn [map_chars lstrip_by]. rewrite isspace_lower_char.
  destruct (isspace c); [exact IH|reflexivity].
Qed.

Lemma rstrip_lower (s : string) : rstrip (lower s) = lower (rstrip s).
Proof.
  unfold rstrip, lower. induction s as [|c s IH]; [reflexivity|].
  cbn [map_chars rstrip_by]. rewrite IH, isspace_lower_char.
  destruct (rstrip_by isspace s); cbn [map_chars]; [|reflexivity].
  destruct (isspace c); reflexivity.
Qed.

Lemma strip_lower (s : string) : strip (lower s) = lower (strip s).
Proof. unfold strip. rewrite rstrip_lower, lstrip_lower. reflexivity. Qed.

(** X16: a domain that [parser_utils.extract_domain] returns is in lower
    case and trimmed; the empty input gives the empty domain. *)
Theorem parser_extract_domain_normal (url domain : string) :
  ParserUtils.extract_domain url = Some domain ->
  lower domain = domain /\ strip domain = domain
  /\ (url = EmptyString -> domain = EmptyString).
Proof.
  unfold ParserUtils.extract_domain. destruct url as [|c url]; cbn [truthy negb].
  - intro H. injection H as <-. repeat split.
  - destruct (urlparse (String c url)) as [parsed|]; [|discriminate].
    cbv zeta. intro H. injection H as <-.
    repeat split.
    + apply lower_idem.
    + rewrite strip_lower, strip_idem. reflexivity.
    + discriminate.
Qed.

Lemma parser_extract_domain_normal_witness :
  lower "example.com" = "example.com".
Proof.
  apply (parser_extract_domain_normal "HTTPS://www.Example.COM/a" "example.com").
  reflexivity.
Defined.

Lemma isspace_upper_char (c : ascii) : isspace (upper_char c) = isspace c.
Proof. by_cases_on_char c. Qed.

Lemma title_from_empty (prev : bool) (s : string) :
  title_from prev s = EmptyString -> s = EmptyString.
Proof. destruct s; [reflexivity|discriminate]. Qed.

Lemma rstrip_title_from (s : string) (prev : bool) :
  rstrip s = s -> rstrip (title_from prev s) = title_from prev s.
Proof.
  revert prev. induction s as [|c s IH]; intros prev H; [reflexivity|].
  cbn [title_from]. destruct s as [|d s].
  - apply rstrip_single in H. cbn [title_from].
    unfold rstrip. cbn [rstrip_by].
    destruct prev; rewrite ?isspace_lower_char, ?isspace_upper_char, H;
      reflexivity.
  - apply rstrip_cons_fixed.
    + cbn [title_from]. discriminate.
    + apply IH. apply (rstrip_empty_iff_tail c); [exact H|discriminate].
Qed.

Lemma lstrip_title_from (s : string) (prev : bool) :
  lstrip s = s -> lstrip (title_from prev s) = title_from prev s.
Proof.
  destruct s as [|c s]; [reflexivity|]. unfold lstrip. cbn [lstrip_by title_from].
  destruct (isspace c) eqn:Hc.
  - intro H. exfalso.
    assert (Hl : String.length (lstrip_by isspace s) <= String.length s).
    { clear. induction s as [|d s IH]; simpl; [lia|].
      destruct (isspace d); simpl; lia. }
    rewrite H in Hl. simpl in Hl. lia.
  - intros _. destruct prev; rewrite ?isspace_lower_char, ?isspace_upper_char, Hc;
      reflexivity.
Qed.

Lemma sub_suffix_rstrip (t : string) :
  rstrip t = t ->
  rstrip (sub_empty ParserUtils.suffix_pattern t)
  = sub_empty ParserUtils.suffix_pattern t.
Proof.
  induction t as [|c t IH]; intro H; [reflexivity|].
  rewrite sub_suffix_cons by exact H.
  destruct (isspace c && Spec.is_legal_suffix (lstrip t)) eqn:Hc; [reflexivity|].
  destruct t as [|d t].
  - exact H.
  - assert (Ht : rstrip (String d t) = String d t)
      by (apply (rstrip_empty_iff_tail c); [exact H|discriminate]).
    destruct (sub_empty ParserUtils.suffix_pattern (String d t)) as [|e r] eqn:Hs.
    + (* the rest is removed whole: it is white space and a token *)
      rewrite sub_suffix_cons in Hs by exact Ht.
      destruct (isspace d && Spec.is_legal_suffix (lstrip t)) eqn:Hd;
        [|discriminate].
      apply andb_true_iff in Hd. destruct Hd as [Hd Hl].
      unfold rstrip. cbn [rstrip_by].
      destruct (isspace c) eqn:Hsp; [|reflexivity].
      exfalso. cbn [andb] in Hc.
      unfold lstrip in Hc. cbn [lstrip_by] in Hc. rewrite Hd in Hc.
      fold (lstrip t) in Hc. congruence.
    + apply rstrip_cons_fixed; [discriminate|]. apply IH. exact Ht.
Qed.

Lemma sub_suffix_lstrip (t : string) :
  rstrip t = t -> lstrip t = t ->
  lstrip (sub_empty ParserUtils.suffix_pattern t)
  = sub_empty ParserUtils.suffix_pattern t.
Proof.
  destruct t as [|c t]; [reflexivity|]. intros Hr Hl.
  rewrite sub_suffix_cons by exact Hr.
  assert (Hc : isspace c = false).
  { destruct (isspace c) eqn:Hc; [|reflexivity]. exfalso.
    unfold lstrip in Hl. cbn [lstrip_by] in Hl. rewrite Hc in Hl.
    assert (Hlen : String.length (lstrip_by isspace t) <= String.length t).
    { clear. induction t as [|d t IH]; simpl; [lia|].
      destruct (isspace d); simpl; lia. }
    rewrite Hl in Hlen. simpl in Hlen. lia. }
  rewrite Hc. cbn [andb]. unfold lstrip. cbn [lstrip_by]. rewrite Hc. reflexivity.
Qed.

Lemma lstrip_idem (s : string) : lstrip (lstrip s) = lstrip s.
Proof.
  unfold lstrip. induction s as [|c s IH]; [reflexivity|].
  cbn [lstrip_by]. destruct (isspace c) eqn:Hc; [exact IH|].
  cbn [lstrip_by]. rewrite Hc. reflexivity.
Qed.

(** X17: a normalised company name has no white space around it. *)
Theorem normalize_company_name_trimmed (s : string) :
  strip (ParserUtils.normalize_company_name s)
  = ParserUtils.normalize_company_name s.
Proof.
  unfold ParserUtils.normalize_company_name.
  destruct (truthy s); cbn [negb]; [|reflexivity]. cbv zeta.
  set (t := sub_empty ParserUtils.suffix_pattern (strip s)).
  assert (Hr : rstrip t = t) by (apply sub_suffix_rstrip, rstrip_strip).
  assert (Hl : lstrip t = t).
  { apply sub_suffix_lstrip; [apply rstrip_strip|].
    unfold strip. apply lstrip_idem. }
  unfold strip, title.
  rewrite (rstrip_title_from t false Hr). apply lstrip_title_from. exact Hl.
Qed.

(** *** [validation.is_valid_company_name] *)

Lemma not_newline_when_fixed (t : string) :
  rstrip t = t -> String.eqb t newline = false.
Proof.
  intro H. destruct (String.eqb t newline) eqn:He; [|reflexivity].
  apply String.eqb_eq in He. subst t. vm_compute in H. discriminate.
Qed.

Lemma plus_class_to_end (p : ascii -> bool) (s : string) :
  rstrip s = s ->
  ValidationNames.plus_class p s (fun s' => matches EndOfString s' Some)
  = if truthy s && all_chars p s then Some EmptyString else None.
Proof.
  induction s as [|c t IH]; intro H; [reflexivity|].
  cbn [ValidationNames.plus_class truthy all_chars andb].
  destruct (p c); [|reflexivity]. cbn [andb].
  destruct t as [|d t].
  - reflexivity.
  - assert (Ht : rstrip (String d t) = String d t)
      by (apply (rstrip_empty_iff_tail c); [exact H|discriminate]).
    rewrite (IH Ht). cbn [truthy andb].
    destruct (all_chars p (String d t)); [reflexivity|].
    cbn [matches truthy negb orb]. rewrite (not_newline_when_fixed _ Ht).
    reflexivity.
Qed.

(** X18: a company name is valid exactly when, trimmed, it has at least
    two characters and only ASCII letters, digits, blanks, [&], [.] and
    [-]. *)
Theorem is_valid_company_name_iff (name : string) :
  ValidationNames.is_valid_company_name name = true
  <-> 2 <= String.length (strip name)
      /\ all_chars ValidationNames.name_char (strip name) = true.
Proof.
  unfold ValidationNames.is_valid_company_name, ValidationNames.match_name.
  rewrite (plus_class_to_end _ _ (rstrip_strip name)).
  destruct name as [|c name].
  - cbn [truthy negb orb]. split; [discriminate|].
    intros [H _]. vm_compute in H. lia.
  - cbn [truthy negb orb].
    destruct (Nat.ltb (String.length (strip (String c name))) 2) eqn:Hl.
    + apply Nat.ltb_lt in Hl. split; [discriminate|]. intros [H _]. lia.
    + apply Nat.ltb_ge in Hl.
      destruct (strip (String c name)) as [|d t] eqn:Hs; [simpl in Hl; lia|].
      cbn [truthy andb].
      destruct (all_chars ValidationNames.name_char (String d t)).
      * split; auto.
      * split; [discriminate|]. intros [_ H]. discriminate.
Qed.

(** *** [data_cleaner.clean_enriched_data] *)

Import DataCleaner.

Lemma clean_loop_acc (leads : list lead) (seen : list string) (cleaned : list lead) :
  clean_loop leads seen cleaned
  = option_map (List.app cleaned) (clean_loop leads seen []).
Proof.
  revert seen cleaned. induction leads as [|l rest IH]; intros seen cleaned.
  - simpl. rewrite app_nil_r. reflexivity.
  - cbn [clean_loop]. destruct (lead_name l) as [name|]; [|reflexivity].
    cbn [bind]. cbv zeta.
    destruct (negb (truthy name) || mem_string name seen); [apply IH|].
    rewrite (IH _ (List.app cleaned _)), (IH _ (List.app [] _)).
    destruct (clean_loop rest (name :: seen) []); [|reflexivity].
    simpl. rewrite <- app_assoc. reflexivity.
Qed.

(** The loop, one lead at a time. *)
Lemma clean_loop_cons (l : lead) (rest : list lead) (seen : list string) :
  clean_loop (l :: rest) seen []
  = match lead_name l with
    | None => None
    | Some name =>
        if negb (truthy name) || mem_string name seen
        then clean_loop rest seen []
        else option_map (cons (cleaned_lead l name))
                        (clean_loop rest (name :: seen) [])
    end.
Proof.
  cbn [clean_loop]. destruct (lead_name l) as [name|]; [|reflexivity].
  cbn [bind]. cbv zeta.
  destruct (negb (truthy name) || mem_string name seen); [reflexivity|].
  rewrite clean_loop_acc. reflexivity.
Qed.


Lemma lead_set_same (k : string) (v : value) (d : lead) :
  lead_find k d = Some v -> lead_set k v d = d.
Proof.
  induction d as [|[k' v'] d IH]; simpl; [discriminate|].
  destruct (String.eqb k k') eqn:He.
  - apply String.eqb_eq in He. intro H. injection H as ->. subst. reflexivity.
  - intro H. rewrite (IH H). reflexivity.
Qed.







(** X20: [clean_enriched_data] runs to its end exactly when the company
    name of every lead is absent or a text; a company name that is
    [None], a number or a list makes it raise. *)
Theorem clean_enriched_data_runs (leads : list lead) :
  (exists out, clean_enriched_data leads = Some out) <-> Forall text_name leads.
Proof.
  unfold clean_enriched_data. generalize (@nil string) as seen.
  induction leads as [|l rest IH]; intro seen.
  - split; [constructor|]. intros _. exists []. reflexivity.
  - rewrite clean_loop_cons. split.
    + intros (out & H).
      destruct (lead_name l) as [name|] eqn:Hl; [|discriminate].
      constructor.
      * unfold lead_name in Hl. unfold text_name.
        destruct (lead_find "company_name" l) as [[| | |s| |]|];
          try discriminate; eauto.
      * destruct (negb (truthy name) || mem_string name seen).
        -- apply (IH seen). eauto.
        -- apply (IH (name :: seen)).
           destruct (clean_loop rest (name :: seen) []); [eauto|discriminate].
    + intro H. inversion H as [|? ? Hl Hr]; subst.
      assert (Hn : exists name, lead_name l = Some name).
      { unfold lead_name. destruct Hl as [Hl|(s & Hl)]; rewrite Hl; eauto. }
      destruct Hn as (name & ->).
      destruct (negb (truthy name) || mem_string name seen).
      * apply (IH seen). exact Hr.
      * destruct (proj2 (IH (name :: seen)) Hr) as (out & ->). simpl. eauto.
Qed.

(** *** Strategic context *)

Lemma website_from_context_in (name : string) (items : list ContextItem)
  (url : string) :
  website_from_context name items = Some url ->
  exists item, In item items /\ ci_source item = url.
Proof.
  induction items as [|item rest IH]; cbn [website_from_context]; [discriminate|].
  cbv zeta. destruct (_ || _).
  - intro H. injection H as <-. exists item. split; [left|]; reflexivity.
  - intro H. destruct (IH H) as (it & Hin & Hs). exists it. split; [right|]; auto.
Qed.

(** X21: the strategic context is normalised like every organic result
    and is empty without an API key; so a website that the discovery takes
    from it (its last step, when neither DuckDuckGo nor the name supplied
    one) is empty or begins with [http]. *)
Theorem strategic_context_normalised (w : World) (name industry : string) :
  Forall (fun item =>
            strip (ci_source item) = ci_source item
            /\ (ci_source item = EmptyString
                \/ startswith "http" (ci_source item) = true))
         (fetch_strategic_context w name industry)
  /\ (SERPER_API_KEY w = EmptyString -> fetch_strategic_context w name industry = [])
  /\ (website_from_ddg w name = None -> website_from_name name = None ->
      find_official_website w name = EmptyString
      \/ startswith "http" (find_official_website w name) = true).
Proof.
  assert (Hall : forall n i,
    Forall (fun item =>
              strip (ci_source item) = ci_source item
              /\ (ci_source item = EmptyString
                  \/ startswith "http" (ci_source item) = true))
           (fetch_strategic_context w n i)).
  { intros n i. unfold fetch_strategic_context. cbv zeta.
    apply Forall_forall. intros item Hin.
    apply in_flat_map in Hin. destruct Hin as (q & _ & Hin).
    destruct (fetch_serper_organic_items w q 2) as [Hf _].
    rewrite Forall_forall in Hf. destruct (Hf item Hin) as (_ & _ & H1 & H2).
    auto. }
  split; [apply Hall|]. split.
  - intro Hk. unfold fetch_strategic_context. cbv zeta. cbn [firstn flat_map].
    rewrite !(proj2 (fetch_serper_organic_items w _ 2) Hk). reflexivity.
  - intros Hd Hn. unfold find_official_website. rewrite Hd, Hn.
    destruct (website_from_context name (fetch_strategic_context w name EmptyString))
      as [url|] eqn:Hc; [|left; reflexivity].
    apply website_from_context_in in Hc. destruct Hc as (item & Hin & <-).
    specialize (Hall name EmptyString). rewrite Forall_forall in Hall.
    apply (Hall item Hin).
Qed.

Lemma strategic_context_normalised_witness :
  fetch_strategic_context Examples.silent "Acme" "Tools" = [].
Proof.
  apply (proj1 (proj2 (strategic_context_normalised Examples.silent "Acme" "Tools"))).
  reflexivity.
Defined.
